(** * json-patch-stream: schema-aware validation of JSON Pointers and JSON Patches

    A shallow embedding of [src/validators/json-pointer.validator.ts], of
    [src/validators/json-patch.validator.ts] and of the generator of
    [src/agent.ts], followed by the properties that the specification
    states about them and by further properties of the code.

    The validators receive their schema and their patch as the result of
    [JSON.parse], and read them with JavaScript's dynamic operators
    (truthiness tests, [in], [typeof], object spread).  The embedding
    therefore works on JavaScript values rather than on the compile-time
    type [JSONSchema]: a schema is a [JS] value, and every field read is a
    property read. *)

From Stdlib Require Import ZArith String Ascii List Bool Lia DecimalString DecimalPos.
From stdpp Require Import base option gmap strings.

Open Scope string_scope.
Open Scope Z_scope.

(** ** JavaScript values *)

(** The values that [JSON.parse] can build, and [undefined] (which object
    literals such as [{ ...schema, allOf: undefined }] store under a key).
    - A number is an integer; fractions and magnitudes beyond the safe
      integers are not represented.
    - A string is a sequence of code units, each below 256.
    - An object is its list of own properties in insertion order, each key
      once.  Members inherited from [Object.prototype], [Array.prototype]
      and [String.prototype] (such as ["constructor"]) are not represented,
      so a key that names one of them is read as absent. *)
#[warnings="-register-all"]
Inductive JS : Type :=
| JUndef
| JNull
| JBool (b : bool)
| JNum (n : Z)
| JStr (s : string)
| JArr (xs : list JS)
| JObj (kvs : list (string * JS)).

(** What a call produces.  [Throw] is an uncaught [TypeError].
    [Unsupported] marks a coercion of JavaScript that the embedding does not
    compute (for example the numeric value of an arbitrary string).
    [OutOfFuel] is only produced by the fuel-indexed functions, when the
    fuel given does not cover the recursion depth. *)
Inductive outcome (A : Type) : Type :=
| Ret (a : A)
| Throw
| Unsupported
| OutOfFuel.
Arguments Ret {A} a.
Arguments Throw {A}.
Arguments Unsupported {A}.
Arguments OutOfFuel {A}.

Definition obind {A B} (m : outcome A) (k : A -> outcome B) : outcome B :=
  match m with
  | Ret a => k a
  | Throw => Throw
  | Unsupported => Unsupported
  | OutOfFuel => OutOfFuel
  end.

Notation "'let*' x ':=' m 'in' k" := (obind m (fun x => k))
  (at level 10, x pattern, m at level 100, k at level 200, only parsing).

(** ** Strings *)

Module Str.

(** [s.startsWith(p)] *)
Definition startsWith (s p : string) : bool := String.prefix p s.

(** [s.includes(sub)] *)
Fixpoint includes (s sub : string) : bool :=
  String.prefix sub s ||
  match s with
  | EmptyString => false
  | String _ r => includes r sub
  end.

(** [s.split(sep)] for a one-character separator. *)
Fixpoint split (sep : ascii) (s : string) : list string :=
  match s with
  | EmptyString => [EmptyString]
  | String c r =>
      if Ascii.eqb c sep then EmptyString :: split sep r
      else match split sep r with
           | [] => [String c EmptyString]
           | h :: t => String c h :: t
           end
  end.

(** [s.replace(/ab/g, r)] for a two-character literal pattern [ab]. *)
Fixpoint replace2 (a b : ascii) (r : string) (s : string) : string :=
  match s with
  | String c (String d rest as tl) =>
      if Ascii.eqb c a && Ascii.eqb d b then r ++ replace2 a b r rest
      else String c (replace2 a b r tl)
  | _ => s
  end.

Fixpoint lastIndexOf_from (c : ascii) (s : string) (i acc : Z) : Z :=
  match s with
  | EmptyString => acc
  | String d r => lastIndexOf_from c r (i + 1) (if Ascii.eqb d c then i else acc)
  end.

(** [s.lastIndexOf(c)], [-1] when [c] does not occur. *)
Definition lastIndexOf (c : ascii) (s : string) : Z := lastIndexOf_from c s 0 (-1).

Definition len (s : string) : Z := Z.of_nat (String.length s).

(** [s.slice(start, end)]: a negative bound counts from the end. *)
Definition slice (s : string) (start stop : Z) : string :=
  let clamp i := if i <? 0 then Z.max (len s + i) 0 else Z.min i (len s) in
  let from := clamp start in
  let to := clamp stop in
  String.substring (Z.to_nat from) (Z.to_nat (Z.max (to - from) 0)) s.

(** [s.slice(start)] *)
Definition sliceFrom (s : string) (start : Z) : string := slice s start (len s).

Definition digit (c : ascii) : option Z :=
  let n := Z.of_N (N_of_ascii c) in
  if (48 <=? n) && (n <=? 57) then Some (n - 48) else None.

Definition isWhite (c : ascii) : bool :=
  let n := Z.of_N (N_of_ascii c) in
  ((9 <=? n) && (n <=? 13)) || (n =? 32) || (n =? 160).

Fixpoint trimStart (s : string) : string :=
  match s with
  | String c r => if isWhite c then trimStart r else s
  | EmptyString => s
  end.

Fixpoint digits (s : string) (acc : option Z) : option Z :=
  match s with
  | String c r =>
      match digit c with
      | Some d => digits r (Some (10 * default 0 acc + d))
      | None => acc
      end
  | EmptyString => acc
  end.

(** [parseInt(s, 10)]; [None] is [NaN]. *)
Definition parseInt (s : string) : option Z :=
  match trimStart s with
  | String "-" r => Z.opp <$> digits r None
  | String "+" r => digits r None
  | t => digits t None
  end.

(** [n.toString()] for an integer [n]. *)
Definition toString (n : Z) : string := NilZero.string_of_int (Z.to_int n).

(** The test [!isNaN(index) && token === index.toString()] that follows
    every [parseInt] of the source, with the parsed value. *)
Definition canonicalInt (token : string) : option Z :=
  match parseInt token with
  | Some index => if String.eqb token (toString index) then Some index else None
  | None => None
  end.

End Str.

(** ** Property access *)

Definition truthy (v : JS) : bool :=
  match v with
  | JUndef | JNull | JBool false | JNum 0 | JStr EmptyString => false
  | _ => true
  end.

Definition nullish (v : JS) : bool :=
  match v with JUndef | JNull => true | _ => false end.

(** [v !== undefined] *)
Definition defined (v : JS) : bool :=
  match v with JUndef => false | _ => true end.

(** [typeof v === "object"] (true of [null] and of arrays). *)
Definition typeofObject (v : JS) : bool :=
  match v with JNull | JArr _ | JObj _ => true | _ => false end.

Definition typeofString (v : JS) : bool :=
  match v with JStr _ => true | _ => false end.

Definition isArray (v : JS) : bool :=
  match v with JArr _ => true | _ => false end.

(** [v === false] *)
Definition isFalse (v : JS) : bool :=
  match v with JBool false => true | _ => false end.

(** [v === s] for a string [s]. *)
Definition isStr (v : JS) (s : string) : bool :=
  match v with JStr t => String.eqb t s | _ => false end.

(** The own property [k] of an object, if it has one. *)
Fixpoint own {A} (kvs : list (string * A)) (k : string) : option A :=
  match kvs with
  | [] => None
  | (k', v) :: rest => if String.eqb k' k then Some v else own rest k
  end.

(** Assignment [o[k] = v]: an existing key keeps its place. *)
Fixpoint setProp {A} (kvs : list (string * A)) (k : string) (v : A) : list (string * A) :=
  match kvs with
  | [] => [(k, v)]
  | (k', v') :: rest =>
      if String.eqb k' k then (k, v) :: rest else (k', v') :: setProp rest k v
  end.

(** A key that is an array index: a canonical decimal below [2^32 - 1]. *)
Definition arrayIndex (k : string) : option Z :=
  match Str.canonicalInt k with
  | Some n => if (0 <=? n) && (n <? 4294967295) then Some n else None
  | None => None
  end.

(** The property read [v[k]] (also written [v.k]) on a value that is neither
    [null] nor [undefined]. *)
Definition get (v : JS) (k : string) : JS :=
  match v with
  | JObj kvs => default JUndef (own kvs k)
  | JArr xs =>
      if String.eqb k "length" then JNum (Z.of_nat (length xs))
      else match arrayIndex k with
           | Some i => nth (Z.to_nat i) xs JUndef
           | None => JUndef
           end
  | JStr s =>
      if String.eqb k "length" then JNum (Str.len s)
      else match arrayIndex k with
           | Some i => match String.get (Z.to_nat i) s with
                       | Some c => JStr (String c EmptyString)
                       | None => JUndef
                       end
           | None => JUndef
           end
  | _ => JUndef
  end.

(** [v?.[k]] *)
Definition getOpt (v : JS) (k : string) : JS :=
  if nullish v then JUndef else get v k.

(** [k in v]: a [TypeError] when [v] is not an object. *)
Definition hasProperty (k : string) (v : JS) : outcome bool :=
  match v with
  | JObj kvs => Ret (bool_decide (is_Some (own kvs k)))
  | JArr xs =>
      Ret (String.eqb k "length" ||
           match arrayIndex k with
           | Some i => i <? Z.of_nat (length xs)
           | None => false
           end)
  | _ => Throw
  end.

(** The elements of an array under their keys ["0"], ["1"], ... *)
Fixpoint indexed {A} (i : Z) (xs : list A) : list (string * A) :=
  match xs with
  | [] => []
  | x :: r => (Str.toString i, x) :: indexed (i + 1) r
  end.

(** The characters of a string, as its iteration yields them. *)
Fixpoint chars (s : string) : list JS :=
  match s with
  | EmptyString => []
  | String c r => JStr (String c EmptyString) :: chars r
  end.

(** Insertion into a list sorted by index. *)
Fixpoint insertByIndex {A} (i : Z) (e : A) (sorted : list (Z * A)) : list (Z * A) :=
  match sorted with
  | [] => [(i, e)]
  | (j, e') :: rest =>
      if i <? j then (i, e) :: sorted else (j, e') :: insertByIndex i e rest
  end.

(** The order in which [for ... in] meets the keys of an object: array
    indices in ascending order, then the other keys in insertion order. *)
Definition keyOrder (ks : list string) : list string :=
  let ints :=
    fold_left (fun acc k => match arrayIndex k with
                            | Some i => insertByIndex i k acc
                            | None => acc
                            end) ks [] in
  map snd ints ++ filter (fun k => bool_decide (arrayIndex k = None)) ks.

(** The own enumerable keys of a value, in insertion order. *)
Definition ownKeys (v : JS) : list string :=
  match v with
  | JObj kvs => remove_dups (map fst kvs)
  | JArr xs => map fst (indexed 0 xs)
  | JStr s => map fst (indexed 0 (chars s))
  | _ => []
  end.

(** The keys that [for (const k in v)] enumerates, in its order. *)
Definition forIn (v : JS) : list string := keyOrder (ownKeys v).

(** [{ ...target, ...v }], given the properties of [target]: every own key
    of [v] is read and assigned.  (JavaScript copies the keys in [forIn]
    order; the order of assignment only decides where new array-index keys
    are stored, which no read depends on.) *)
Definition spread (target : list (string * JS)) (v : JS) : list (string * JS) :=
  fold_left (fun o k => setProp o k (get v k)) (ownKeys v) target.

(** [xs.includes(s)] for a string [s]. *)
Definition includesStr (xs : list JS) (s : string) : bool :=
  existsb (fun x => isStr x s) xs.

Definition isPrimitive (v : JS) : bool :=
  match v with JArr _ | JObj _ => false | _ => true end.

(** Equality of two primitive values. *)
Definition primEqb (a b : JS) : bool :=
  match a, b with
  | JUndef, JUndef | JNull, JNull => true
  | JBool x, JBool y => Bool.eqb x y
  | JNum x, JNum y => x =? y
  | JStr x, JStr y => String.eqb x y
  | _, _ => false
  end.

(** The comparison used by [Array.prototype.includes] and by [Set].  Two
    objects are equal when they are the same object, which values do not
    record. *)
Definition sameValueZero (a b : JS) : outcome bool :=
  if negb (isPrimitive a) && negb (isPrimitive b) then Unsupported
  else Ret (primEqb a b).

Fixpoint includes (xs : list JS) (v : JS) : outcome bool :=
  match xs with
  | [] => Ret false
  | x :: r =>
      let* e := sameValueZero x v in
      if e then Ret true else includes r v
  end.

(** [ToNumber(v)]; [None] is [NaN]. *)
Definition toNumber (v : JS) : outcome (option Z) :=
  match v with
  | JUndef => Ret None
  | JNull => Ret (Some 0)
  | JBool b => Ret (Some (if b then 1 else 0))
  | JNum n => Ret (Some n)
  | _ => Unsupported
  end.

(** [ToString(v)], as a template literal computes it. *)
Fixpoint toStr (v : JS) : outcome string :=
  match v with
  | JUndef => Ret "undefined"
  | JNull => Ret "null"
  | JBool b => Ret (if b then "true" else "false")
  | JNum n => Ret (Str.toString n)
  | JStr s => Ret s
  | JArr xs =>
      (fix join (xs : list JS) : outcome string :=
         match xs with
         | [] => Ret ""
         | x :: r =>
             let* h := (if nullish x then Ret "" else toStr x) in
             match r with
             | [] => Ret h
             | _ => let* t := join r in Ret (h ++ "," ++ t)
             end
         end) xs
  | JObj kvs =>
      match own kvs "toString" with
      | Some _ => Throw
      | None => Ret "[object Object]"
      end
  end.

(** The empty schema [{}]. *)
Definition emptySchema : JS := JObj [].

(** ** The resolution context and the expression forms that both validators use *)

(** [interface SchemaContext] of json-pointer.validator.ts; the patch
    validator builds objects of the same shape.  The schema at [root] is
    never modified; [visited] is the set that reference resolution updates. *)
Record SchemaContext : Type := {
  root : JS;
  definitions : JS;
  visited : gset string;
  anchors : gmap string JS
}.

(** The context after [visited.add] or [visited.delete]. *)
Definition withVisited (f : gset string -> gset string) (ctx : SchemaContext) : SchemaContext :=
  {| root := root ctx; definitions := definitions ctx;
     visited := f (visited ctx); anchors := anchors ctx |}.

(** A computation that reads and updates the context. *)
Definition M (A : Type) : Type := SchemaContext -> outcome (A * SchemaContext).

Definition ret {A} (a : A) : M A := fun ctx => Ret (a, ctx).

Definition bind {A B} (m : M A) (k : A -> M B) : M B :=
  fun ctx => let* r := m ctx in k (fst r) (snd r).

Definition lift {A} (o : outcome A) : M A :=
  fun ctx => let* a := o in Ret (a, ctx).

Notation "'let!' x ':=' m 'in' k" := (bind m (fun x => k))
  (at level 10, x pattern, m at level 100, k at level 200, only parsing).

(** [token.replace(/~1/g, "/").replace(/~0/g, "~")] *)
Definition unescape (token : string) : string :=
  Str.replace2 "~" "0" "~" (Str.replace2 "~" "1" "/" token).

(** [v > 0] *)
Definition gtZero (v : JS) : outcome bool :=
  let* n := toNumber v in
  Ret (match n with Some z => 0 <? z | None => false end).

(** The argument of [[...x]]: arrays and strings are iterable. *)
Definition iterate (v : JS) : outcome (list JS) :=
  match v with
  | JArr xs => Ret xs
  | JStr s => Ret (chars s)
  | _ => Throw
  end.

(** [[...new Set(xs)]] *)
Fixpoint unique (xs seen : list JS) : outcome (list JS) :=
  match xs with
  | [] => Ret seen
  | x :: r =>
      let* dup := includes seen x in
      unique r (if dup then seen else seen ++ [x])
  end.

(** [xs.filter(t => ys.includes(t))] *)
Fixpoint common (xs ys : list JS) : outcome (list JS) :=
  match xs with
  | [] => Ret []
  | t :: r =>
      let* keep := includes ys t in
      let* rest := common r ys in
      Ret (if keep then t :: rest else rest)
  end.

(** [Array.isArray(t) ? t : [t]] *)
Definition typeList (t : JS) : list JS :=
  match t with JArr xs => xs | _ => [t] end.

(** The walk of [resolveRef] along the segments of a [#/...] reference:
    [resolved = resolved?.[key]; if (!resolved) break]. *)
Fixpoint walk (resolved : JS) (path : list string) : JS :=
  match path with
  | [] => resolved
  | segment :: rest =>
      let next := getOpt resolved (unescape segment) in
      if truthy next then walk next rest else next
  end.

(** The steps of [mergeSchemas] on [properties] and [patternProperties]:
    [merged[key] = { ...s1[key], ...s2[key] }] when either has the key. *)
Definition mergeProperties (key : string) (s1 s2 : JS) (merged : list (string * JS))
  : list (string * JS) :=
  if truthy (get s1 key) || truthy (get s2 key)
  then setProp merged key (JObj (spread (spread [] (get s1 key)) (get s2 key)))
  else merged.

(** [merged.required = [...new Set([...(s1.required || []), ...(s2.required || [])])]] *)
Definition mergeRequired (s1 s2 : JS) (merged : list (string * JS))
  : outcome (list (string * JS)) :=
  let r1 := get s1 "required" in
  let r2 := get s2 "required" in
  if truthy r1 || truthy r2 then
    let* a := iterate (if truthy r1 then r1 else JArr []) in
    let* b := iterate (if truthy r2 then r2 else JArr []) in
    let* u := unique (a ++ b) [] in
    Ret (setProp merged "required" (JArr u))
  else Ret merged.

(** The step of [mergeSchemas] on [type]: the assignment is guarded by
    [commonTypes.length > 0]. *)
Definition mergeType (s1 s2 : JS) (merged : list (string * JS))
  : outcome (list (string * JS)) :=
  if truthy (get s1 "type") && truthy (get s2 "type") then
    let t1 := typeList (get s1 "type") in
    let t2 := typeList (get s2 "type") in
    let* commonTypes := common t1 t2 in
    match commonTypes with
    | [] => Ret merged
    | [t] => Ret (setProp merged "type" t)
    | _ => Ret (setProp merged "type" (JArr commonTypes))
    end
  else Ret merged.

(** What array traversal answers from [items] once the index is past
    [prefixItems], or when [items] is not a tuple. *)
Definition itemsOrEmpty (schema : JS) : JS :=
  let items := get schema "items" in
  if defined items then
    if isFalse items then JNull
    else if typeofObject items && negb (isArray items) then items
    else emptySchema
  else emptySchema.

(** [index < v] *)
Definition ltNumber (index : Z) (v : JS) : outcome bool :=
  let* n := toNumber v in
  Ret (match n with Some z => index <? z | None => false end).

(** [index >= v] *)
Definition geNumber (index : Z) (v : JS) : outcome bool :=
  let* n := toNumber v in
  Ret (match n with Some z => z <=? index | None => false end).

(** The context that a validation call starts from. *)
Definition freshContext (schema : JS) : SchemaContext :=
  {| root := schema;
     definitions := JObj (spread (spread [] (get schema "$defs")) (get schema "definitions"));
     visited := ∅;
     anchors := ∅ |}.

(** The loop [for (const pattern in patternProperties)] with its
    [try { if (new RegExp(pattern).test(token)) return ...; } catch { continue; }].
    [RegExp_test pattern token] is [new RegExp(pattern).test(token)], and
    [None] when the constructor rejects the pattern. *)
Fixpoint findPattern (RegExp_test : string -> string -> option bool)
    (token : string) (patternProperties : JS) (patterns : list string)
  : option JS :=
  match patterns with
  | [] => None
  | pattern :: rest =>
      match RegExp_test pattern token with
      | Some true => Some (get patternProperties pattern)
      | _ => findPattern RegExp_test token patternProperties rest
      end
  end.

(** ** json-pointer.validator.ts *)

Module Pointer.

(** [Math.max] and [Math.min] of numbers that are not [NaN]. *)
Definition finite (n : option Z) : outcome Z :=
  match n with Some z => Ret z | None => Unsupported end.

(** [merged.minProperties = Math.max(s1.minProperties || 0, s2.minProperties || 0)] *)
Definition mergeMinProperties (s1 s2 : JS) (merged : list (string * JS))
  : outcome (list (string * JS)) :=
  let m1 := get s1 "minProperties" in
  let m2 := get s2 "minProperties" in
  if defined m1 || defined m2 then
    let* a := toNumber (if truthy m1 then m1 else JNum 0) in
    let* a := finite a in
    let* b := toNumber (if truthy m2 then m2 else JNum 0) in
    let* b := finite b in
    Ret (setProp merged "minProperties" (JNum (Z.max a b)))
  else Ret merged.

(** [v ?? Infinity] as a number; [None] is [Infinity]. *)
Definition orInfinity (v : JS) : outcome (option Z) :=
  if nullish v then Ret None
  else let* n := toNumber v in let* z := finite n in Ret (Some z).

(** [merged.maxProperties = Math.min(max1, max2)] unless that is [Infinity]. *)
Definition mergeMaxProperties (s1 s2 : JS) (merged : list (string * JS))
  : outcome (list (string * JS)) :=
  let m1 := get s1 "maxProperties" in
  let m2 := get s2 "maxProperties" in
  if defined m1 || defined m2 then
    let* max1 := orInfinity m1 in
    let* max2 := orInfinity m2 in
    match max1, max2 with
    | None, None => Ret merged
    | Some a, None | None, Some a => Ret (setProp merged "maxProperties" (JNum a))
    | Some a, Some b => Ret (setProp merged "maxProperties" (JNum (Z.min a b)))
    end
  else Ret merged.

Definition mergeSchemas (s1 s2 : JS) : outcome JS :=
  if nullish s1 || nullish s2 then Throw else
  let merged := spread (spread [] s1) s2 in
  let merged := mergeProperties "properties" s1 s2 merged in
  let merged := mergeProperties "patternProperties" s1 s2 merged in
  let* merged := mergeRequired s1 s2 merged in
  let* merged := mergeType s1 s2 merged in
  let* merged := mergeMinProperties s1 s2 merged in
  let* merged := mergeMaxProperties s1 s2 merged in
  Ret (JObj merged).

(** [resolveRef], given the function it calls on the target it finds. *)
Definition resolveRef (resolveSchema : JS -> M JS) (ref : JS) (currentSchema : JS) : M JS :=
  match ref with
  | JStr ref => fun ctx =>
      if bool_decide (ref ∈ visited ctx) then Ret (emptySchema, ctx) else
      let ctx := withVisited (fun v => v ∪ {[ref]}) ctx in
      let anchor := Str.sliceFrom ref 1 in
      let resolved := walk (root ctx) (Str.split "/" (Str.sliceFrom ref 2)) in
      if Str.startsWith ref "#" && negb (Str.includes ref "/")
         && bool_decide (is_Some (anchors ctx !! anchor))
      then resolveSchema (default JUndef (anchors ctx !! anchor)) ctx
      else if Str.startsWith ref "#/" && truthy resolved && typeofObject resolved
      then resolveSchema resolved ctx
      else if negb (Str.startsWith ref "#") && negb (Str.includes ref "://")
      then Ret (emptySchema, ctx)
      else Ret (emptySchema, withVisited (fun v => v ∖ {[ref]}) ctx)
  | _ =>
      (* [ref.startsWith] is not a function *)
      fun _ => Throw
  end.

(** [branches.reduce((acc, s) => mergeSchemas(acc, resolveSchema(s)), acc)] *)
Fixpoint reduceMerge (resolveSchema : JS -> M JS) (branches : list JS) (acc : JS) : M JS :=
  match branches with
  | [] => ret acc
  | s :: rest =>
      let! resolved := resolveSchema s in
      let! acc := lift (mergeSchemas acc resolved) in
      reduceMerge resolveSchema rest acc
  end.

(** [{ ...schema, ...merged, k1: undefined, ... }] *)
Definition overlay (schema merged : JS) (cleared : list string) : JS :=
  JObj (fold_left (fun o k => setProp o k JUndef) cleared
          (spread (spread [] schema) merged)).

(** [resolveSchema]; the fuel bounds the depth of the nested calls. *)
Fixpoint resolveSchema (fuel : nat) (schema : JS) : M JS :=
  match fuel with
  | O => fun _ => OutOfFuel
  | S fuel =>
      if nullish schema then fun _ => Throw
      else if truthy (get schema "$ref")
      then resolveRef (resolveSchema fuel) (get schema "$ref") schema
      else if truthy (get schema "$dynamicRef")
      then resolveRef (resolveSchema fuel) (get schema "$dynamicRef") schema
      else if truthy (get schema "allOf")
      then match get schema "allOf" with
           | JArr branches =>
               let! merged := reduceMerge (resolveSchema fuel) branches emptySchema in
               ret (overlay schema merged ["allOf"])
           | _ => fun _ => Throw
           end
      else
        let! anyOf := lift (if truthy (get schema "anyOf")
                            then gtZero (get (get schema "anyOf") "length")
                            else Ret false) in
        if anyOf then resolveSchema fuel (get (get schema "anyOf") "0") else
        let! oneOf := lift (if truthy (get schema "oneOf")
                            then gtZero (get (get schema "oneOf") "length")
                            else Ret false) in
        if oneOf then resolveSchema fuel (get (get schema "oneOf") "0") else
        if truthy (get schema "not") then ret (overlay schema emptySchema ["not"]) else
        let schemas :=
          ((if truthy (get schema "then") then [get schema "then"] else []) ++
           (if truthy (get schema "else") then [get schema "else"] else []))%list in
        if truthy (get schema "if") then
          match schemas with
          | [] => ret schema
          | _ =>
              let! merged := reduceMerge (resolveSchema fuel) schemas emptySchema in
              ret (overlay schema merged ["if"; "then"; "else"])
          end
        else ret schema
  end.

(** [context.anchors.set(name, schema)] under [if (name)]. *)
Definition setAnchor (name schema : JS) (anchors : gmap string JS) : gmap string JS :=
  match name with
  | JStr a => if truthy name then <[a := schema]> anchors else anchors
  | _ =>
      (* a key that is not a string is never looked up *)
      anchors
  end.

(** [collectAnchors]: the anchors of [schema], then of the schemas under
    [properties], then of those under [$defs]. *)
Fixpoint collectAnchors (schema : JS) (anchors : gmap string JS) : gmap string JS :=
  match schema with
  | JObj kvs =>
      let anchors := setAnchor (get schema "$anchor") schema anchors in
      let anchors := setAnchor (get schema "$dynamicAnchor") schema anchors in
      (* under every own key, the recursive call on each value it holds *)
      let calls : list (string * list (string * (gmap string JS -> gmap string JS))) :=
        map (fun '(k, v) =>
               (k, match v with
                   | JObj cs => map (fun '(ck, cv) => (ck, collectAnchors cv)) cs
                   | JArr xs => indexed 0 (map collectAnchors xs)
                   | _ => []
                   end)) kvs in
      let below (key : string) (anchors : gmap string JS) :=
        if truthy (get schema key) then
          fold_left (fun acc k =>
                       match own (default [] (own calls key)) k with
                       | Some call => call acc
                       | None => acc
                       end) (forIn (get schema key)) anchors
        else anchors in
      below "$defs" (below "properties" anchors)
  | _ => anchors
  end.

Section Traversal.

(** [new RegExp(pattern).test(token)]; [None] when the constructor
    rejects the pattern. *)
Variable RegExp_test : string -> string -> option bool.

(** The checks of [tryObjectTraversal] against the resolved
    [propertyNames]: [true] when one of them returns [null]. *)
Definition violatesPropertyNames (token : string) (resolved : JS) : outcome bool :=
  if defined (get resolved "const") && negb (isStr (get resolved "const") token)
  then Ret true else
  let* listed :=
    (if defined (get resolved "enum") then
       match get resolved "enum" with
       | JArr xs => Ret (includesStr xs token)
       | JStr s => Ret (Str.includes s token)
       | _ => Throw
       end
     else Ret true) in
  if negb listed then Ret true else
  let* mismatch :=
    (if truthy (get resolved "pattern") then
       match toStr (get resolved "pattern") with
       | Ret pattern =>
           Ret (match RegExp_test pattern token with Some false => true | _ => false end)
       | Throw => Ret false
       | Unsupported => Unsupported
       | OutOfFuel => OutOfFuel
       end
     else Ret false) in
  if mismatch then Ret true else
  let* short :=
    (if defined (get resolved "minLength") then
       let* m := toNumber (get resolved "minLength") in
       Ret (match m with Some m => Str.len token <? m | None => false end)
     else Ret false) in
  if short then Ret true else
  if defined (get resolved "maxLength") then
    let* m := toNumber (get resolved "maxLength") in
    Ret (match m with Some m => m <? Str.len token | None => false end)
  else Ret false.

Definition tryObjectTraversal (fuel : nat) (token : string) (schema : JS) : M JS :=
  let properties := get schema "properties" in
  let patternProperties := get schema "patternProperties" in
  let propertyNames := get schema "propertyNames" in
  let additionalProperties := get schema "additionalProperties" in
  let dependentSchemas := get schema "dependentSchemas" in
  let! declared := lift (if truthy properties then hasProperty token properties
                         else Ret false) in
  if declared then ret (get properties token) else
  match (if truthy patternProperties
         then findPattern RegExp_test token patternProperties (forIn patternProperties)
         else None) with
  | Some matched => ret matched
  | None =>
      let! rejected :=
        (if truthy propertyNames then
           let! resolved := resolveSchema fuel propertyNames in
           lift (violatesPropertyNames token resolved)
         else ret false) in
      if rejected then ret JNull
      else if isFalse additionalProperties then ret JNull
      else if typeofObject additionalProperties then ret additionalProperties
      else if truthy dependentSchemas && truthy (get dependentSchemas token)
      then ret (get dependentSchemas token)
      else ret emptySchema
  end.

Definition tryArrayTraversal (token : string) (schema : JS) : outcome JS :=
  match Str.parseInt token with
  | None => Ret JNull
  | Some index =>
      if (index <? 0) || negb (String.eqb token (Str.toString index)) then Ret JNull else
      let* full := (if defined (get schema "maxItems")
                    then geNumber index (get schema "maxItems") else Ret false) in
      if full then Ret JNull else
      let prefixItems := get schema "prefixItems" in
      let items := get schema "items" in
      let additionalItems := get schema "additionalItems" in
      if truthy prefixItems then
        let* positional := ltNumber index (get prefixItems "length") in
        if positional then Ret (get prefixItems (Str.toString index))
        else Ret (itemsOrEmpty schema)
      else if isArray items then
        let* positional := ltNumber index (get items "length") in
        if positional then Ret (get items (Str.toString index))
        else if isFalse additionalItems then Ret JNull
        else if typeofObject additionalItems then Ret additionalItems
        else Ret emptySchema
      else Ret (itemsOrEmpty schema)
  end.

(** [for (const type of types) { ...; if (result) return result; }] *)
Fixpoint firstTruthy (attempt : JS -> M JS) (types : list JS) : M JS :=
  match types with
  | [] => ret JNull
  | type :: rest =>
      let! result := attempt type in
      if truthy result then ret result else firstTruthy attempt rest
  end.

Fixpoint getNextSchema (fuel : nat) (token : string) (schema : JS) : M JS :=
  match fuel with
  | O => fun _ => OutOfFuel
  | S fuel =>
      let type := get schema "type" in
      let schemaTypes := typeList type in
      let! objectSchema :=
        (if includesStr schemaTypes "object" || truthy (get schema "properties")
            || truthy (get schema "patternProperties") || negb (truthy type)
         then tryObjectTraversal fuel token schema else ret JNull) in
      if truthy objectSchema then ret objectSchema else
      let! arraySchema :=
        (if includesStr schemaTypes "array" || truthy (get schema "items")
            || truthy (get schema "prefixItems")
         then lift (tryArrayTraversal token schema) else ret JNull) in
      if truthy arraySchema then ret arraySchema else
      match type with
      | JArr types =>
          if 1 <? Z.of_nat (length types) then
            firstTruthy (fun type =>
                           getNextSchema fuel token
                             (JObj (setProp (spread [] schema) "type" type))) types
          else ret JNull
      | _ => ret JNull
      end
  end.

Fixpoint validateTokens (fuel : nat) (tokens : list string) (currentSchema : JS) : M bool :=
  match tokens with
  | [] => ret true
  | token :: rest =>
      let! currentSchema := resolveSchema fuel currentSchema in
      if negb (truthy currentSchema) then ret false else
      if defined (get currentSchema "const") || defined (get currentSchema "enum")
      then ret false else
      let! nextSchema := getNextSchema fuel token currentSchema in
      if negb (truthy nextSchema) then ret false else
      validateTokens fuel rest nextSchema
  end.

(** The tokens of a pointer that starts with [/]. *)
Definition parseTokens (pointer : string) : list string :=
  map unescape (Str.split "/" (Str.sliceFrom pointer 1)).

Definition validateJSONPointer (fuel : nat) (pointer : string) (schema : JS) : outcome bool :=
  if String.eqb pointer "" || String.eqb pointer "/" then Ret true
  else if negb (Str.startsWith pointer "/") then Ret false
  else
    let tokens := parseTokens pointer in
    if nullish schema then Throw else
    let context := freshContext schema in
    let context :=
      {| root := root context; definitions := definitions context;
         visited := visited context;
         anchors := collectAnchors schema (anchors context) |} in
    let* r := validateTokens fuel tokens schema context in
    Ret (fst r).

End Traversal.

End Pointer.

(** ** json-patch.validator.ts *)

Module Patch.

(** [interface ValidationError] *)
Record ValidationError : Type := {
  operation : Z;
  error : string
}.

(** [interface PatchValidationResult] *)
Record PatchValidationResult : Type := {
  valid : bool;
  errors : list ValidationError
}.

(** The double-quote character. *)
Definition dquote : string := String (ascii_of_nat 34) EmptyString.

(** [s] between double quotes, as the messages show a path or a name. *)
Definition quoted (s : string) : string := dquote ++ s ++ dquote.

Definition mergeSchemas (s1 s2 : JS) : outcome JS :=
  if nullish s1 || nullish s2 then Throw else
  let merged := spread (spread [] s1) s2 in
  let merged := mergeProperties "properties" s1 s2 merged in
  let merged := mergeProperties "patternProperties" s1 s2 merged in
  let* merged := mergeRequired s1 s2 merged in
  let* merged := mergeType s1 s2 merged in
  Ret (JObj merged).

Fixpoint reduceMerge (resolveSchema : JS -> M JS) (branches : list JS) (acc : JS) : M JS :=
  match branches with
  | [] => ret acc
  | s :: rest =>
      let! resolved := resolveSchema s in
      let! acc := lift (mergeSchemas acc resolved) in
      reduceMerge resolveSchema rest acc
  end.

(** The patch validator's own [resolveSchema] ([context: any]). *)
Fixpoint resolveSchema (fuel : nat) (schema : JS) : M JS :=
  match fuel with
  | O => fun _ => OutOfFuel
  | S fuel =>
      if nullish schema then fun _ => Throw
      else if truthy (get schema "$ref") then
        match get schema "$ref" with
        | JStr refPath => fun context =>
            if bool_decide (refPath ∈ visited context) then Ret (emptySchema, context) else
            let context := withVisited (fun v => v ∪ {[refPath]}) context in
            let resolved := walk (root context) (Str.split "/" (Str.sliceFrom refPath 2)) in
            if Str.startsWith refPath "#/" && truthy resolved && typeofObject resolved
            then resolveSchema fuel resolved context
            else Ret (emptySchema, withVisited (fun v => v ∖ {[refPath]}) context)
        | _ => fun _ => Throw
        end
      else if truthy (get schema "allOf") then
        match get schema "allOf" with
        | JArr branches =>
            let! merged := reduceMerge (resolveSchema fuel) branches emptySchema in
            ret (JObj (setProp (spread (spread [] schema) merged) "allOf" JUndef))
        | _ => fun _ => Throw
        end
      else
        let! anyOf := lift (if truthy (get schema "anyOf")
                            then gtZero (get (get schema "anyOf") "length")
                            else Ret false) in
        if anyOf then resolveSchema fuel (get (get schema "anyOf") "0") else
        let! oneOf := lift (if truthy (get schema "oneOf")
                            then gtZero (get (get schema "oneOf") "length")
                            else Ret false) in
        if oneOf then resolveSchema fuel (get (get schema "oneOf") "0") else
        ret schema
  end.

Section Validation.

(** [new RegExp(pattern).test(token)]; [None] when the constructor
    rejects the pattern. *)
Variable RegExp_test : string -> string -> option bool.

Definition getNextSchemaForToken (token : string) (schema rootSchema : JS) : outcome JS :=
  let type := get schema "type" in
  let schemaTypes := typeList type in
  let properties := get schema "properties" in
  let patternProperties := get schema "patternProperties" in
  let additionalProperties := get schema "additionalProperties" in
  let prefixItems := get schema "prefixItems" in
  let items := get schema "items" in
  let additionalItems := get schema "additionalItems" in
  if includesStr schemaTypes "object" || truthy properties || negb (truthy type) then
    let* declared := (if truthy properties then hasProperty token properties
                      else Ret false) in
    if declared then Ret (get properties token) else
    match (if truthy patternProperties
           then findPattern RegExp_test token patternProperties (forIn patternProperties)
           else None) with
    | Some matched => Ret matched
    | None =>
        if isFalse additionalProperties then Ret JNull
        else if typeofObject additionalProperties then Ret additionalProperties
        else Ret emptySchema
    end
  else if includesStr schemaTypes "array" || truthy items || truthy prefixItems then
    match Str.parseInt token with
    | None => Ret JNull
    | Some index =>
        if (index <? 0) || negb (String.eqb token (Str.toString index)) then Ret JNull
        else if truthy prefixItems then
          let* positional := ltNumber index (get prefixItems "length") in
          if positional then Ret (get prefixItems (Str.toString index))
          else Ret (itemsOrEmpty schema)
        else if isArray items then
          let* positional := ltNumber index (get items "length") in
          if positional then Ret (get items (Str.toString index))
          else if isFalse additionalItems then Ret JNull
          else if typeofObject additionalItems then Ret additionalItems
          else Ret emptySchema
        else Ret (itemsOrEmpty schema)
    end
  else Ret JNull.

(** The loop of [getSchemaAtPath]; every step resolves in a context of
    its own. *)
Fixpoint schemaAtTokens (fuel : nat) (tokens : list string) (currentSchema schema : JS)
  : outcome JS :=
  match tokens with
  | [] => Ret currentSchema
  | token :: rest =>
      if nullish schema then Throw else
      let* r := resolveSchema fuel currentSchema (freshContext schema) in
      let currentSchema := fst r in
      if negb (truthy currentSchema) then Ret JNull else
      let* nextSchema := getNextSchemaForToken token currentSchema schema in
      if negb (truthy nextSchema) then Ret JNull else
      schemaAtTokens fuel rest nextSchema schema
  end.

Definition getSchemaAtPath (fuel : nat) (path : string) (schema : JS) : outcome JS :=
  if String.eqb path "" || String.eqb path "/" then Ret schema
  else schemaAtTokens fuel (map unescape (Str.split "/" (Str.sliceFrom path 1))) schema schema.

(** [checkRequiredProperty]; [None] is [null]. *)
Definition checkRequiredProperty (fuel : nat) (path : string) (schema : JS)
  : outcome (option string) :=
  let lastSlash := Str.lastIndexOf "/" path in
  if lastSlash <=? 0 then Ret None else
  let parentPath := if lastSlash =? 0 then "/" else Str.slice path 0 lastSlash in
  let propertyName := Str.sliceFrom path (lastSlash + 1) in
  let* parentSchema := getSchemaAtPath fuel parentPath schema in
  if negb (truthy parentSchema) then Ret None else
  let required := get parentSchema "required" in
  let* listed :=
    (if truthy required then
       match required with
       | JArr names => Ret (includesStr names propertyName)
       | JStr s => Ret (Str.includes s propertyName)
       | _ => Throw
       end
     else Ret false) in
  if listed then Ret (Some ("Cannot remove required property " ++ quoted propertyName))
  else Ret None.

Definition notValid (what path : string) : string :=
  what ++ " " ++ quoted path ++ " is not valid according to schema".

(** [validateAddPath]; [None] is [{ valid: true, error: "" }], and
    [Some e] is [{ valid: false, error: e }]. *)
Definition validateAddPath (fuel : nat) (path : string) (schema : JS)
  : outcome (option string) :=
  if String.eqb path "" || String.eqb path "/" then Ret None else
  let lastSlash := Str.lastIndexOf "/" path in
  let parentPath := if lastSlash =? 0 then "/" else Str.slice path 0 lastSlash in
  let target := Str.sliceFrom path (lastSlash + 1) in
  if String.eqb parentPath "/" && String.eqb target "" then Ret None else
  let* parentOk := Pointer.validateJSONPointer RegExp_test fuel parentPath schema in
  if negb parentOk then Ret (Some (notValid "Parent path" parentPath)) else
  if String.eqb target "-" then Ret None else
  match Str.canonicalInt target with
  | Some _ => Ret None
  | None =>
      let* ok := Pointer.validateJSONPointer RegExp_test fuel path schema in
      if ok then Ret None else Ret (Some (notValid "Path" path))
  end.

Definition fail (index : Z) (message : string) : ValidationError :=
  {| operation := index; error := message |}.

Definition missing (index : Z) (kind field : string) : ValidationError :=
  fail index (kind ++ " operation must have a " ++ quoted field ++ " property").

(** The errors pushed for a path that the schema does not admit. *)
Definition unlessValid (ok : bool) (e : ValidationError) : list ValidationError :=
  if ok then [] else [e].

Definition optionalError (index : Z) (message : option string) : list ValidationError :=
  match message with Some e => [fail index e] | None => [] end.

(** The body shared by [validateReplace] and [validateTest], and by
    [validateAdd] up to its last check. *)
Definition withPathAndValue (kind : string) (operation : JS) (index : Z)
    (check : string -> outcome (list ValidationError))
  : outcome (list ValidationError) :=
  if negb (truthy (get operation "path")) then Ret [missing index kind "path"] else
  let* hasValue := hasProperty "value" operation in
  if negb hasValue then Ret [missing index kind "value"] else
  match get operation "path" with
  | JStr path => check path
  | _ => Ret [fail index "Path must be a string"]
  end.

Definition validateAdd (fuel : nat) (operation schema : JS) (index : Z)
  : outcome (list ValidationError) :=
  withPathAndValue "Add" operation index (fun path =>
    let* pathValid := validateAddPath fuel path schema in
    Ret (optionalError index pathValid)).

Definition validateRemove (fuel : nat) (operation schema : JS) (index : Z)
  : outcome (list ValidationError) :=
  if negb (truthy (get operation "path")) then Ret [missing index "Remove" "path"] else
  match get operation "path" with
  | JStr path =>
      let* ok := Pointer.validateJSONPointer RegExp_test fuel path schema in
      let* requiredError := checkRequiredProperty fuel path schema in
      Ret (unlessValid ok (fail index (notValid "Path" path))
           ++ optionalError index requiredError)%list
  | _ => Ret [fail index "Path must be a string"]
  end.

Definition validateReplace (fuel : nat) (operation schema : JS) (index : Z)
  : outcome (list ValidationError) :=
  withPathAndValue "Replace" operation index (fun path =>
    let* ok := Pointer.validateJSONPointer RegExp_test fuel path schema in
    Ret (unlessValid ok (fail index (notValid "Path" path)))).

(** The two shape checks that [validateMove] and [validateCopy] make
    before they look at the schema. *)
Definition withFromAndPath (kind : string) (operation : JS) (index : Z)
    (check : string -> string -> outcome (list ValidationError))
  : outcome (list ValidationError) :=
  let from := get operation "from" in
  let path := get operation "path" in
  let absent :=
    ((if truthy from then [] else [missing index kind "from"]) ++
     (if truthy path then [] else [missing index kind "path"]))%list in
  match absent with
  | _ :: _ => Ret absent
  | [] =>
      match from, path with
      | JStr from, JStr path => check from path
      | _, _ =>
          Ret ((if typeofString from then [] else [fail index "From must be a string"]) ++
               (if typeofString path then [] else [fail index "Path must be a string"]))%list
      end
  end.

Definition validateMove (fuel : nat) (operation schema : JS) (index : Z)
  : outcome (list ValidationError) :=
  withFromAndPath "Move" operation index (fun from path =>
    let* fromOk := Pointer.validateJSONPointer RegExp_test fuel from schema in
    let* pathValid := validateAddPath fuel path schema in
    let cycle := Str.startsWith from (path ++ "/") in
    let* requiredError := checkRequiredProperty fuel from schema in
    Ret (unlessValid fromOk (fail index (notValid "From path" from))
         ++ optionalError index pathValid
         ++ (if cycle
             then [fail index "Cannot move to a location that is a child of the source"]
             else [])
         ++ optionalError index requiredError)%list).

Definition validateCopy (fuel : nat) (operation schema : JS) (index : Z)
  : outcome (list ValidationError) :=
  withFromAndPath "Copy" operation index (fun from path =>
    let* fromOk := Pointer.validateJSONPointer RegExp_test fuel from schema in
    let* pathValid := validateAddPath fuel path schema in
    Ret (unlessValid fromOk (fail index (notValid "From path" from))
         ++ optionalError index pathValid)%list).

Definition validateTest (fuel : nat) (operation schema : JS) (index : Z)
  : outcome (list ValidationError) :=
  withPathAndValue "Test" operation index (fun path =>
    let* ok := Pointer.validateJSONPointer RegExp_test fuel path schema in
    Ret (unlessValid ok (fail index (notValid "Path" path)))).

Definition validOps : list string := ["add"; "remove"; "replace"; "move"; "copy"; "test"].

Definition validateOperation (fuel : nat) (operation schema : JS) (index : Z)
  : outcome (list ValidationError) :=
  if negb (truthy operation) || negb (typeofObject operation)
  then Ret [fail index "Operation must be an object"] else
  let op := get operation "op" in
  if negb (truthy op)
  then Ret [fail index ("Operation must have an " ++ quoted "op" ++ " property")] else
  if negb (existsb (isStr op) validOps) then
    let* shown := toStr op in
    Ret [fail index ("Invalid operation " ++ quoted shown
                     ++ ". Must be one of: add, remove, replace, move, copy, test")]
  else if isStr op "add" then validateAdd fuel operation schema index
  else if isStr op "remove" then validateRemove fuel operation schema index
  else if isStr op "replace" then validateReplace fuel operation schema index
  else if isStr op "move" then validateMove fuel operation schema index
  else if isStr op "copy" then validateCopy fuel operation schema index
  else if isStr op "test" then validateTest fuel operation schema index
  else Ret [].

(** The loop of [validateJSONPatch], from operation [i] on. *)
Fixpoint validateOperations (fuel : nat) (patch : list JS) (schema : JS) (i : Z)
  : outcome (list ValidationError) :=
  match patch with
  | [] => Ret []
  | operation :: rest =>
      let* operationErrors := validateOperation fuel operation schema i in
      let* later := validateOperations fuel rest schema (i + 1) in
      Ret (operationErrors ++ later)%list
  end.

Definition validateJSONPatch (fuel : nat) (patch schema : JS)
  : outcome PatchValidationResult :=
  match patch with
  | JArr operations =>
      let* errors := validateOperations fuel operations schema 0 in
      Ret {| valid := match errors with [] => true | _ => false end;
             errors := errors |}
  | _ =>
      Ret {| valid := false; errors := [fail (-1) "Patch must be an array"] |}
  end.

End Validation.

End Patch.

(** ** agent.ts *)

Module Agent.

(** The line feed that [buffer.split("\n")] splits at. *)
Definition newline : ascii := ascii_of_nat 10.

(** [s.trimEnd()] *)
Fixpoint trimEnd (s : string) : string :=
  match s with
  | EmptyString => EmptyString
  | String c r =>
      match trimEnd r with
      | EmptyString => if Str.isWhite c then EmptyString else String c EmptyString
      | t => String c t
      end
  end.

(** [s.trim()] *)
Definition trim (s : string) : string := trimEnd (Str.trimStart s).

(** What a run of the generator amounts to: the lines that it has
    yielded, in order, and how it ended ([Ret tt] when the stream was
    consumed to its end, [Throw] when an exception left the generator). *)
Record run : Type := {
  yielded : list string;
  ending : outcome unit
}.

Definition finished : run := {| yielded := []; ending := Ret tt |}.

(** One run after the other; the second does not start when the first
    did not end normally. *)
Definition andThen (first second : run) : run :=
  match ending first with
  | Ret _ => {| yielded := yielded first ++ yielded second; ending := ending second |}
  | _ => first
  end.

Section Generator.

Variable RegExp_test : string -> string -> option bool.

(** [JSON.parse(text)]; [None] when it throws a [SyntaxError]. *)
Variable JSON_parse : string -> option JS.

Variable fuel : nat.
Variable schema : JS.

(** The body of the inner loop for the complete line [lines[i]]: the line
    is yielded when the operation it holds is valid (and reported on the
    console otherwise). *)
Definition processLine (raw : string) : run :=
  let line := trim raw in
  match JSON_parse line with
  | None => {| yielded := []; ending := Throw |}
  | Some patchOp =>
      match Patch.validateJSONPatch RegExp_test fuel (JArr [patchOp]) schema with
      | Ret validation =>
          {| yielded := if Patch.valid validation then [line] else [];
             ending := Ret tt |}
      | Throw => {| yielded := []; ending := Throw |}
      | Unsupported => {| yielded := []; ending := Unsupported |}
      | OutOfFuel => {| yielded := []; ending := OutOfFuel |}
      end
  end.

(** [for (let i = 0; i < lines.length - 1; i++)], given the complete lines. *)
Fixpoint processLines (lines : list string) : run :=
  match lines with
  | [] => finished
  | raw :: rest => andThen (processLine raw) (processLines rest)
  end.

(** [for await (const textPart of textStream)], from the current buffer,
    given the parts that the stream delivers. *)
Fixpoint consume (buffer : string) (textStream : list string) : run :=
  match textStream with
  | [] => finished
  | textPart :: rest =>
      let buffer := (buffer ++ textPart)%string in
      let lines := Str.split newline buffer in
      andThen (processLines (removelast lines)) (consume (List.last lines EmptyString) rest)
  end.

(** [jsonPatchStreamingAgent(schema, userPrompt)], given the text stream
    that [streamText] returns for the prompt. *)
Definition jsonPatchStreamingAgent (textStream : list string) : run :=
  consume EmptyString textStream.

End Generator.

End Agent.

(** * The words of the statements and the inputs of the examples *)

(** [{ required: ["name"] }] *)
Definition requiredNameSchema : JS := JObj [("required", JArr [JStr "name"])].

(** [[{ op: "remove", path: "/name" }]] *)
Definition removeName : JS := JArr [JObj [("op", JStr "remove"); ("path", JStr "/name")]].

(** [[{ op: "move", from: "/a", path: "/a/b" }]] *)
Definition moveIntoChild : JS :=
  JArr [JObj [("op", JStr "move"); ("from", JStr "/a"); ("path", JStr "/a/b")]].

(** [[{ op: "move", from: "/a/b", path: "/a" }]] *)
Definition moveOntoParent : JS :=
  JArr [JObj [("op", JStr "move"); ("from", JStr "/a/b"); ("path", JStr "/a")]].

(** The message of [validateMove] about a destination below the source. *)
Definition childOfSource : string :=
  "Cannot move to a location that is a child of the source".

(** [{ $defs: { A: { type: "object" } } }] *)
Definition definesA : JS :=
  JObj [("$defs", JObj [("A", JObj [("type", JStr "object")])])].

(** [{ $ref: "#/$defs/A" }] *)
Definition refersToA : JS := JObj [("$ref", JStr "#/$defs/A")].

(** A schema of linked records: [next] refers back to the record. *)
Definition linkedSchema : JS :=
  JObj [("$ref", JStr "#/$defs/node");
        ("$defs", JObj [("node",
           JObj [("type", JStr "object");
                 ("properties", JObj [("next", JObj [("$ref", JStr "#/$defs/node")])]);
                 ("additionalProperties", JBool false)])])].

(** The reference of [$defs/A] to itself. *)
Definition selfReference : string := "#/$defs/A".

(** A host function for the closed examples: on a pattern made of letters
    and digits only, [new RegExp(pattern).test(token)] tells whether the
    token contains the pattern. *)
Definition wordRegExp (pattern token : string) : option bool :=
  Some (Str.includes token pattern).

(** [{ $defs: { A: { $ref: "#/$defs/A" } } }] *)
Definition selfReferring : JS :=
  JObj [("$defs", JObj [("A", JObj [("$ref", JStr "#/$defs/A")])])].

(** [{ anyOf: [{ type: "string" }, { type: "number" }], properties: { x: {} } }] *)
Definition stringOrNumber : JS :=
  JObj [("anyOf", JArr [JObj [("type", JStr "string")]; JObj [("type", JStr "number")]]);
        ("properties", JObj [("x", JObj [])])].

(** How deep arrays are nested in a value.  [getNextSchema] calls itself
    once for every level of a [type] that is an array. *)
Fixpoint arrayDepth (v : JS) : nat :=
  match v with
  | JArr xs => S (list_max (map arrayDepth xs))
  | _ => O
  end.

(** A closed object with one property: [additionalProperties: false],
    [properties] with the single key ["a"], no [patternProperties] and no
    [propertyNames]. *)
Record closedOverA (declared schema : JS) : Prop := {
  closed_additional : get schema "additionalProperties" = JBool false;
  closed_properties : get schema "properties" = JObj [("a", declared)];
  closed_patterns : truthy (get schema "patternProperties") = false;
  closed_names : truthy (get schema "propertyNames") = false
}.

(** No keyword that makes [resolveSchema] look at another schema. *)
Record uncomposed (schema : JS) : Prop := {
  no_ref : truthy (get schema "$ref") = false;
  no_dynamicRef : truthy (get schema "$dynamicRef") = false;
  no_allOf : truthy (get schema "allOf") = false;
  no_anyOf : truthy (get schema "anyOf") = false;
  no_oneOf : truthy (get schema "oneOf") = false;
  no_if : truthy (get schema "if") = false
}.

(** [{ additionalProperties: false, properties: { a: {} }, enum: [{ a: 1 }] }] *)
Definition closedEnumSchema : JS :=
  JObj [("additionalProperties", JBool false);
        ("properties", JObj [("a", JObj [])]);
        ("enum", JArr [JObj [("a", JNum 1)]])].

(** [{ type: ["object", "null"], additionalProperties: false,
       properties: { a: { type: "string" } } }] *)
Definition closedSchema : JS :=
  JObj [("type", JArr [JStr "object"; JStr "null"]);
        ("additionalProperties", JBool false);
        ("properties", JObj [("a", JObj [("type", JStr "string")])])].

(** A schema of type ["array"] on which object traversal is not tried,
    with [prefixItems] and without [maxItems].  (An array of JavaScript
    holds at most [2^32 - 1] elements.) *)
Record tuple (prefix : list JS) (schema : JS) : Prop := {
  tuple_type : get schema "type" = JStr "array";
  tuple_properties : truthy (get schema "properties") = false;
  tuple_patterns : truthy (get schema "patternProperties") = false;
  tuple_prefix : get schema "prefixItems" = JArr prefix;
  tuple_maxItems : get schema "maxItems" = JUndef;
  tuple_length : 0 < Z.of_nat (length prefix) <= 4294967295
}.

(** [{ prefixItems: [{ type: "string" }], items: false }] *)
Definition closedTuple : JS :=
  JObj [("prefixItems", JArr [JObj [("type", JStr "string")]]);
        ("items", JBool false)].

(** [{ type: "array", properties: {}, prefixItems: [{ type: "string" }], items: false }] *)
Definition closedTupleWithProperties : JS :=
  JObj [("type", JStr "array");
        ("properties", JObj []);
        ("prefixItems", JArr [JObj [("type", JStr "string")]]);
        ("items", JBool false)].

(** [{ type: "array", prefixItems: [{ type: "string" }, { type: "number" }] }] *)
Definition pairSchema : JS :=
  JObj [("type", JStr "array");
        ("prefixItems", JArr [JObj [("type", JStr "string")]; JObj [("type", JStr "number")]])].

(** The same with [items: false]. *)
Definition closedPairSchema : JS :=
  JObj [("type", JStr "array");
        ("prefixItems", JArr [JObj [("type", JStr "string")]; JObj [("type", JStr "number")]]);
        ("items", JBool false)].

(** Every error of the list names operation [index]. *)
Definition tagged (index : Z) (es : list Patch.ValidationError) : Prop :=
  Forall (fun e => Patch.operation e = index) es.

(** What each operation of a batch reports when it is validated alone,
    under its position in the batch. *)
Definition eachOperation (RegExp_test : string -> string -> option bool) (fuel : nat)
    (schema : JS) (operations : list JS) : list (outcome (list Patch.ValidationError)) :=
  imap (fun k operation =>
          Patch.validateOperation RegExp_test fuel operation schema (Z.of_nat k)) operations.

(** The result for a patch that is not an array. *)
Definition notAnArray : Patch.PatchValidationResult :=
  {| Patch.valid := false; Patch.errors := [Patch.fail (-1) "Patch must be an array"] |}.

(** [{ op: "move" }], [{ op: "add", path: "/x", value: 1 }] and
    [{ op: "bogus" }]. *)
Definition moveWithoutFields : JS := JObj [("op", JStr "move")].
Definition addX : JS := JObj [("op", JStr "add"); ("path", JStr "/x"); ("value", JNum 1)].
Definition unknownOperation : JS := JObj [("op", JStr "bogus")].

(** [{ properties: { name: { type: "string" } } }] *)
Definition nameSchema : JS :=
  JObj [("properties", JObj [("name", JObj [("type", JStr "string")])])].

(** [{ op: "remove" }] and [{ op: "add", path: "/name", value: "Alice" }]. *)
Definition removeNothing : JS := JObj [("op", JStr "remove")].
Definition addName : JS :=
  JObj [("op", JStr "add"); ("path", JStr "/name"); ("value", JStr "Alice")].

(** One error for operation 0, none for operation 1, one for operation 2. *)
Definition twoReports : list (list Patch.ValidationError) :=
  [[Patch.missing 0 "Remove" "path"];
   [];
   [Patch.fail 2 ("Invalid operation " ++ Patch.quoted "bogus"
                  ++ ". Must be one of: add, remove, replace, move, copy, test")]].

(** The six operations and their names in the messages. *)
Definition kinds : list (string * string) :=
  [("add", "Add"); ("remove", "Remove"); ("replace", "Replace");
   ("move", "Move"); ("copy", "Copy"); ("test", "Test")].

(** [{ op: "remove", path: "" }] *)
Definition removeRoot : JS := JObj [("op", JStr "remove"); ("path", JStr "")].

(** [[{ op: "add", path: "/x", value: 1 }, { op: "remove", path: "" }]] *)
Definition removeRootAfterAdd : JS := JArr [addX; removeRoot].

(** The context [ctx'] differs from [ctx] at most by references added to
    the guard set. *)
Definition extends (ctx ctx' : SchemaContext) : Prop :=
  root ctx' = root ctx /\ definitions ctx' = definitions ctx /\
  anchors ctx' = anchors ctx /\ visited ctx ⊆ visited ctx'.

(** Every run of the computation that returns leaves such a context. *)
Definition keeps {A} (m : M A) : Prop :=
  forall ctx r ctx', m ctx = Ret (r, ctx') -> extends ctx ctx'.

(** An object schema that puts no condition on its properties beyond
    those it declares: no composition keyword, no [const] or [enum], a
    [type] that is absent or allows ["object"], no [patternProperties],
    [propertyNames] or [dependentSchemas], and [additionalProperties]
    absent or [true]. *)
Record openObject (schema : JS) : Prop := {
  open_uncomposed : uncomposed schema;
  open_const : get schema "const" = JUndef;
  open_enum : get schema "enum" = JUndef;
  open_type : truthy (get schema "type") = false \/
              includesStr (typeList (get schema "type")) "object" = true;
  open_patterns : truthy (get schema "patternProperties") = false;
  open_names : truthy (get schema "propertyNames") = false;
  open_additional : get schema "additionalProperties" = JUndef \/
                    get schema "additionalProperties" = JBool true;
  open_dependent : truthy (get schema "dependentSchemas") = false
}.

(** The property [token] is not declared under [properties]. *)
Definition undeclared (token : string) (schema : JS) : Prop :=
  truthy (get schema "properties") = false \/
  exists props, get schema "properties" = JObj props /\ own props token = None.

(** A schema of a value that has no members: one with [const] or [enum],
    or one whose [type] is a single name other than ["object"] and
    ["array"] and that has none of [properties], [patternProperties],
    [items] and [prefixItems]. *)
Definition leaf (schema : JS) : Prop :=
  defined (get schema "const") = true \/
  defined (get schema "enum") = true \/
  (exists t, get schema "type" = JStr t /\ t <> "" /\ t <> "object" /\ t <> "array") /\
  truthy (get schema "properties") = false /\
  truthy (get schema "patternProperties") = false /\
  truthy (get schema "items") = false /\
  truthy (get schema "prefixItems") = false.

(** [{ type: "object", properties: { name: { type: "string" } } }] *)
Definition personSchema : JS :=
  JObj [("type", JStr "object");
        ("properties", JObj [("name", JObj [("type", JStr "string")])])].

(** [{ properties: { a: { required: ["name"] } } }] *)
Definition nestedRequiredSchema : JS :=
  JObj [("properties", JObj [("a", requiredNameSchema)])].

(** [{ op: "remove", path: "/a/name" }] *)
Definition removeNestedName : JS :=
  JObj [("op", JStr "remove"); ("path", JStr "/a/name")].

(** The message of [checkRequiredProperty]. *)
Definition cannotRemove (name : string) : string :=
  "Cannot remove required property " ++ Patch.quoted name.

(** The error [e] under the index [i]. *)
Definition retag (i : Z) (e : Patch.ValidationError) : Patch.ValidationError :=
  Patch.fail i (Patch.error e).

(** [validateJSONPatch(patch, schema).valid] is [true]. *)
Definition accepts (RegExp_test : string -> string -> option bool) (fuel : nat)
    (schema patch : JS) : Prop :=
  exists result,
    Patch.validateJSONPatch RegExp_test fuel patch schema = Ret result /\
    Patch.valid result = true.

(** The names that a schema lists under [required]; nothing when the
    keyword is absent (or holds a falsy value), and [None] when it holds
    anything else that is not an array. *)
Definition requiredOf (schema : JS) : option (list JS) :=
  match get schema "required" with
  | JArr names => Some names
  | v => if truthy v then None else Some []
  end.

(** The entries of an object; none for a value that is not one. *)
Definition entries (v : JS) : list (string * JS) :=
  match v with JObj kvs => kvs | _ => [] end.

(** An object or [undefined]. *)
Definition objectOrAbsent (v : JS) : bool :=
  match v with JObj _ | JUndef => true | _ => false end.

(** The number that [mergeSchemas] reads from [minProperties]:
    [v || 0] for a number or [undefined]. *)
Definition lowerBound (v : JS) : option Z :=
  match v with JNum n => Some n | JUndef => Some 0 | _ => None end.

(** The number that it reads from [maxProperties]: [v ?? Infinity], where
    the inner [None] is [Infinity]. *)
Definition upperBound (v : JS) : option (option Z) :=
  match v with JNum n => Some (Some n) | JUndef => Some None | _ => None end.

(** The smaller of two upper bounds. *)
Definition tighter (a b : option Z) : option Z :=
  match a, b with
  | Some x, Some y => Some (Z.min x y)
  | Some x, None | None, Some x => Some x
  | None, None => None
  end.

(** [{ properties: { a: { type: "string" }, b: {} } }] and
    [{ properties: { a: { type: "number" } } }], and what [mergeSchemas]
    makes of them. *)
Definition leftProperties : list (string * JS) :=
  [("properties", JObj [("a", JObj [("type", JStr "string")]); ("b", JObj [])])].
Definition rightProperties : list (string * JS) :=
  [("properties", JObj [("a", JObj [("type", JStr "number")])])].
Definition mergedProperties : JS :=
  JObj [("properties", JObj [("a", JObj [("type", JStr "number")]); ("b", JObj [])])].

(** [{ minProperties: 1, maxProperties: 5 }] and [{ minProperties: 2 }]. *)
Definition oneToFive : list (string * JS) :=
  [("minProperties", JNum 1); ("maxProperties", JNum 5)].
Definition atLeastTwo : list (string * JS) := [("minProperties", JNum 2)].

(** A schema of type ["array"] on which object traversal is not tried. *)
Record arrayOnly (schema : JS) : Prop := {
  array_type : get schema "type" = JStr "array";
  array_properties : truthy (get schema "properties") = false;
  array_patterns : truthy (get schema "patternProperties") = false
}.

(** [{ type: "array", maxItems: 3 }] *)
Definition upToThree : list (string * JS) :=
  [("type", JStr "array"); ("maxItems", JNum 3)].

(** [{ op: "add", path: "/x", value: { deep: [1] }, note: "n" }] *)
Definition addXWithNote : list (string * JS) :=
  [("op", JStr "add"); ("path", JStr "/x");
   ("value", JObj [("deep", JArr [JNum 1])]); ("note", JStr "n")].

(** The encoding of a reference token in RFC 6901: [~] is written [~0]
    and [/] is written [~1].  The source only decodes. *)
Fixpoint escape (token : string) : string :=
  match token with
  | EmptyString => EmptyString
  | String c r =>
      (if Ascii.eqb c "~" then "~0"
       else if Ascii.eqb c "/" then "~1"
       else String c EmptyString) ++ escape r
  end.

(** The pointer that names the given tokens: each one encoded, after a [/]. *)
Fixpoint pointerOf (tokens : list string) : string :=
  match tokens with
  | [] => EmptyString
  | token :: rest => "/" ++ escape token ++ pointerOf rest
  end.

(** [{ properties: { owner: { $ref: "#/$defs/Person" } },
       $defs: { Person: { required: ["name"] } } }] *)
Definition ownerSchema : list (string * JS) :=
  [("properties", JObj [("owner", JObj [("$ref", JStr "#/$defs/Person")])]);
   ("$defs", JObj [("Person", requiredNameSchema)])].

(** The text that a stream has delivered in all. *)
Definition received (textStream : list string) : string :=
  fold_right String.append EmptyString textStream.

(** The lines of a text that end in a line feed. *)
Definition completeLines (text : string) : list string :=
  removelast (Str.split Agent.newline text).

(** A host function for the closed examples: it reads the one text
    [{"op":"add","path":"/x","value":1}] and rejects every other. *)
Definition addXText : string :=
  "{" ++ Patch.quoted "op" ++ ":" ++ Patch.quoted "add" ++ ","
      ++ Patch.quoted "path" ++ ":" ++ Patch.quoted "/x" ++ ","
      ++ Patch.quoted "value" ++ ":1}".
Definition parseAddX (text : string) : option JS :=
  if String.eqb text addXText then Some addX else None.

(** The line feed as a string. *)
Definition lf : string := String Agent.newline EmptyString.

(** A branch of [allOf] that is an object without reference or
    composition keywords and without [not], whose [properties] is an
    object or absent. *)
Record plainBranch (branch : JS) : Prop := {
  branch_object : exists kvs, branch = JObj kvs;
  branch_uncomposed : uncomposed branch;
  branch_not : truthy (get branch "not") = false;
  branch_properties : objectOrAbsent (get branch "properties") = true
}.

(** The schema that the last of the branches to declare [name] gives it. *)
Definition lastDeclared (name : string) (branches : list JS) (found : option JS)
  : option JS :=
  fold_left (fun found branch =>
               match own (entries (get branch "properties")) name with
               | Some schema => Some schema
               | None => found
               end) branches found.

(** [{ required: ["a"], allOf: [{ properties: { a: { type: "string" } } },
                                 { properties: { a: { type: "number" }, b: {} } }] }] *)
Definition twoBranches : list JS :=
  [JObj [("properties", JObj [("a", JObj [("type", JStr "string")])])];
   JObj [("properties", JObj [("a", JObj [("type", JStr "number")]); ("b", JObj [])])]].
Definition allOfTwo : JS := JObj [("allOf", JArr twoBranches)].


(** The number of nodes of a value. *)
Fixpoint size (v : JS) : nat :=
  match v with
  | JArr xs => S (list_sum (map size xs))
  | JObj kvs => S (list_sum (map (fun '(_, x) => size x) kvs))
  | _ => 1%nat
  end.

(** Every anchor of the map names a schema that declares it. *)
Definition declaredAnchors (anchors : gmap string JS) : Prop :=
  forall (a : string) (s : JS),
    anchors !! a = Some s ->
    get s "$anchor" = JStr a \/ get s "$dynamicAnchor" = JStr a.

(** [{ $defs: { D: { $anchor: "d", type: "object" } } }] *)
Definition anchoredDefinition : JS :=
  JObj [("$defs", JObj [("D", JObj [("$anchor", JStr "d"); ("type", JStr "object")])])].

(** [{ op: "move", from: "/a", path: "/b" }] and the copy between the
    same places. *)
Definition moveAB : list (string * JS) :=
  [("op", JStr "move"); ("from", JStr "/a"); ("path", JStr "/b")].
Definition copyAB : list (string * JS) :=
  [("op", JStr "copy"); ("from", JStr "/a"); ("path", JStr "/b")].

(** An integer that a JavaScript number holds exactly, so that [parseInt]
    and [toString] are those of the integers. *)
Definition safeInteger (n : Z) : Prop :=
  - 9007199254740991 <= n <= 9007199254740991.


(** An object schema read by object traversal alone: no composition
    keyword, no [const] or [enum], a [type] that is absent or ["object"],
    and none of [items], [prefixItems] and [dependentSchemas]. *)
Record objectSchema (schema : JS) : Prop := {
  object_uncomposed : uncomposed schema;
  object_const : get schema "const" = JUndef;
  object_enum : get schema "enum" = JUndef;
  object_type : truthy (get schema "type") = false \/ get schema "type" = JStr "object";
  object_items : truthy (get schema "items") = false;
  object_prefix : truthy (get schema "prefixItems") = false;
  object_dependent : truthy (get schema "dependentSchemas") = false
}.

(** [additionalProperties] is absent or [true]. *)
Definition additionalAllowed (schema : JS) : Prop :=
  get schema "additionalProperties" = JUndef \/
  get schema "additionalProperties" = JBool true.

(** A [propertyNames] schema that bounds the length of a name and says
    nothing else. *)
Record lengthBounds (lo hi : Z) (names : JS) : Prop := {
  bounds_object : exists kvs, names = JObj kvs;
  bounds_uncomposed : uncomposed names;
  bounds_not : truthy (get names "not") = false;
  bounds_const : get names "const" = JUndef;
  bounds_enum : get names "enum" = JUndef;
  bounds_pattern : truthy (get names "pattern") = false;
  bounds_min : get names "minLength" = JNum lo;
  bounds_max : get names "maxLength" = JNum hi
}.

(** [{ type: "object", additionalProperties: { type: "string" } }] *)
Definition stringMap : list (string * JS) :=
  [("type", JStr "object"); ("additionalProperties", JObj [("type", JStr "string")])].

(** [{ patternProperties: { id: { type: "number" } } }] *)
Definition idPattern : list (string * JS) :=
  [("patternProperties", JObj [("id", JObj [("type", JStr "number")])])].

(** [{ propertyNames: { minLength: 2, maxLength: 4 }, properties: { a: {} } }] *)
Definition shortNames : list (string * JS) :=
  [("propertyNames", JObj [("minLength", JNum 2); ("maxLength", JNum 4)]);
   ("properties", JObj [("a", JObj [])])].

(** [{ if: {}, then: { properties: { a: { type: "string" } } },
       else: { properties: { b: { type: "number" } } } }] *)
Definition conditional : list (string * JS) :=
  [("if", JObj []);
   ("then", JObj [("properties", JObj [("a", JObj [("type", JStr "string")])])]);
   ("else", JObj [("properties", JObj [("b", JObj [("type", JStr "number")])])])].

(** No keyword that [resolveSchema] handles before [if]. *)
Record uncomposed_but_if (schema : JS) : Prop := {
  cond_ref : truthy (get schema "$ref") = false;
  cond_dynamicRef : truthy (get schema "$dynamicRef") = false;
  cond_allOf : truthy (get schema "allOf") = false;
  cond_anyOf : truthy (get schema "anyOf") = false;
  cond_oneOf : truthy (get schema "oneOf") = false;
  cond_not : truthy (get schema "not") = false
}.

(** The names of the members that every object inherits from
    [Object.prototype].  The operator [in] and a property read find them
    in an object that does not hold them itself. *)
Definition objectPrototypeNames : list string :=
  ["constructor"; "__defineGetter__"; "__defineSetter__"; "hasOwnProperty";
   "__lookupGetter__"; "__lookupSetter__"; "isPrototypeOf"; "propertyIsEnumerable";
   "toString"; "valueOf"; "__proto__"; "toLocaleString"].

Definition inherited (k : string) : bool :=
  existsb (String.eqb k) objectPrototypeNames.

(** The walk of a pointer reference reads own members only: every value
    that a segment is read from is an object, and a segment that the object
    does not hold is not the name of an inherited member. *)
Fixpoint readsOwn (resolved : JS) (path : list string) : bool :=
  match path with
  | [] => true
  | segment :: rest =>
      match resolved with
      | JObj kvs =>
          match own kvs (unescape segment) with
          | Some next => if truthy next then readsOwn next rest else true
          | None => negb (inherited (unescape segment))
          end
      | _ => false
      end
  end.

(** [{ $ref: "#/$defs/B" }]: a reference to a definition that a root
    with the one definition [A] does not hold. *)
Definition missingDefinition : JS := JObj [("$ref", JStr "#/$defs/B")].

(** * Properties *)

(** ** Reading objects that assignment and spread have built *)

Lemma own_setProp {A} (kvs : list (string * A)) (k k' : string) (v : A) :
  own (setProp kvs k v) k' = if String.eqb k k' then Some v else own kvs k'.
Proof.
  induction kvs as [|[k0 v0] kvs IH]; simpl.
  - reflexivity.
  - destruct (String.eqb_spec k0 k) as [->|Hne]; simpl.
    + destruct (String.eqb k k'); reflexivity.
    + rewrite IH. destruct (String.eqb_spec k0 k') as [->|Hne'].
      * apply String.eqb_neq in Hne. rewrite String.eqb_sym, Hne. reflexivity.
      * reflexivity.
Qed.

Lemma own_fold_setProp (read : string -> JS) (ks : list string)
    (target : list (string * JS)) (k : string) :
  own (fold_left (fun o key => setProp o key (read key)) ks target) k
  = if bool_decide (k ∈ ks) then Some (read k) else own target k.
Proof.
  revert target. induction ks as [|k0 ks IH]; intros target; simpl.
  - reflexivity.
  - rewrite IH, own_setProp.
    destruct (String.eqb_spec k0 k) as [->|Hne].
    + rewrite (bool_decide_eq_true_2 (k ∈ k :: ks)) by (apply elem_of_cons; auto).
      destruct (bool_decide (k ∈ ks)); reflexivity.
    + destruct (bool_decide (k ∈ ks)) eqn:Hin.
      * apply bool_decide_eq_true_1 in Hin.
        rewrite (bool_decide_eq_true_2 (k ∈ k0 :: ks)) by (apply elem_of_cons; auto).
        reflexivity.
      * apply bool_decide_eq_false_1 in Hin.
        rewrite (bool_decide_eq_false_2 (k ∈ k0 :: ks))
          by (rewrite elem_of_cons; intros [?|?]; congruence).
        reflexivity.
Qed.

Lemma own_Some_elem {A} (kvs : list (string * A)) (k : string) :
  k ∈ map fst kvs <-> is_Some (own kvs k).
Proof.
  induction kvs as [|[k0 v0] kvs IH]; simpl.
  - rewrite elem_of_nil. split; [tauto | intros [? ?]; discriminate].
  - destruct (String.eqb_spec k0 k) as [->|Hne].
    + rewrite elem_of_cons. split; [eauto | auto].
    + rewrite <- IH, elem_of_cons. split; [intros [?|?]; [congruence | assumption] | auto].
Qed.

(** Spreading an object over a target: its own keys win, the others are
    read from the target. *)
Lemma own_spread_object (target kvs : list (string * JS)) (k : string) :
  own (spread target (JObj kvs)) k
  = match own kvs k with Some v => Some v | None => own target k end.
Proof.
  unfold spread. rewrite own_fold_setProp. simpl.
  destruct (own kvs k) as [v|] eqn:Hk.
  - rewrite bool_decide_eq_true_2; [reflexivity|].
    apply elem_of_remove_dups, own_Some_elem. rewrite Hk. eauto.
  - rewrite bool_decide_eq_false_2; [reflexivity|].
    rewrite elem_of_remove_dups, own_Some_elem, Hk. intros [? ?]; discriminate.
Qed.

(** [{ ...schema, k: v }] reads as [schema] on every other key. *)
Lemma get_with (kvs : list (string * JS)) (k k' : string) (v : JS) :
  get (JObj (setProp (spread [] (JObj kvs)) k v)) k'
  = if String.eqb k k' then v else get (JObj kvs) k'.
Proof.
  simpl. rewrite own_setProp, own_spread_object.
  destruct (String.eqb k k'); [reflexivity|].
  destruct (own kvs k'); reflexivity.
Qed.

(** ** Required-property protection at the root (C1) *)

(** [checkRequiredProperty] answers [null] for [/name] whatever the schema:
    [lastIndexOf("/")] is [0] there, and the function returns on
    [lastSlash <= 0] before it reads [required]. *)
Lemma checkRequiredProperty_at_root re fuel (schema : JS) :
  Patch.checkRequiredProperty re fuel "/name" schema = Ret None.
Proof. reflexivity. Qed.

(** One level down the same check does fire. *)
Example checkRequiredProperty_nested re fuel :
  Patch.checkRequiredProperty re (S fuel) "/a/name"
    (JObj [("properties", JObj [("a", requiredNameSchema)])])
  = Ret (Some ("Cannot remove required property " ++ Patch.quoted "name")).
Proof. reflexivity. Qed.

(** The [from] side of a move goes through the same check, with the same
    result. *)
Example move_required_at_root_is_accepted re fuel :
  Patch.validateJSONPatch re (S fuel)
    (JArr [JObj [("op", JStr "move"); ("from", JStr "/name"); ("path", JStr "/alias")]])
    requiredNameSchema
  = Ret {| Patch.valid := true; Patch.errors := [] |}.
Proof. reflexivity. Qed.

(** C1: removing [/name] from a document whose schema has
    [required: ["name"]] at the root is reported as valid, with no error;
    the specification asks for one error that cites the removal of a
    required property and for [valid: false]. *)
Theorem C1_remove_required_at_root_is_accepted re fuel :
  Patch.validateJSONPatch re (S fuel) removeName requiredNameSchema
  = Ret {| Patch.valid := true; Patch.errors := [] |}.
Proof. reflexivity. Qed.

(** ** Moving a location into its own subtree (C2) *)

(** The test [from.startsWith(path + "/")] holds when the source lies
    below the destination, and the message is pushed then. *)
Example move_onto_parent_is_rejected re fuel :
  Patch.validateJSONPatch re (S fuel) moveOntoParent emptySchema
  = Ret {| Patch.valid := false; Patch.errors := [Patch.fail 0 childOfSource] |}.
Proof. reflexivity. Qed.

(** Whatever the schema, the move of [/a] to [/a/b] never gets the message. *)
Lemma move_into_child_never_cited re fuel (schema : JS) (r : Patch.PatchValidationResult) :
  Patch.validateJSONPatch re fuel moveIntoChild schema = Ret r ->
  ~ In (Patch.fail 0 childOfSource) (Patch.errors r).
Proof.
  unfold Patch.validateJSONPatch, moveIntoChild, Patch.validateOperations.
  change (Patch.validateOperation re fuel _ schema 0) with
    (let* fromOk := Pointer.validateJSONPointer re fuel "/a" schema in
     let* pathValid := Patch.validateAddPath re fuel "/a/b" schema in
     Ret (Patch.unlessValid fromOk (Patch.fail 0 (Patch.notValid "From path" "/a"))
          ++ Patch.optionalError 0 pathValid ++ [])%list).
  change (Patch.validateAddPath re fuel "/a/b" schema) with
    (let* parentOk := Pointer.validateJSONPointer re fuel "/a" schema in
     if negb parentOk then Ret (Some (Patch.notValid "Parent path" "/a")) else
     let* ok := Pointer.validateJSONPointer re fuel "/a/b" schema in
     if ok then Ret None else Ret (Some (Patch.notValid "Path" "/a/b"))).
  destruct (Pointer.validateJSONPointer re fuel "/a" schema) as [[|]| | |];
    simpl; try discriminate;
    destruct (Pointer.validateJSONPointer re fuel "/a/b" schema) as [[|]| | |];
    simpl; try discriminate;
    intros [= <-]; simpl; intros H;
    repeat (destruct H as [H|H]; [discriminate H|]); exact H.
Qed.

(** C2: on the empty schema the move of [/a] to [/a/b] is reported as
    valid, with no error; the specification asks for one error saying that
    the destination is a descendant of the source. *)
Theorem C2_move_into_child_is_accepted re fuel :
  Patch.validateJSONPatch re (S fuel) moveIntoChild emptySchema
  = Ret {| Patch.valid := true; Patch.errors := [] |}.
Proof. reflexivity. Qed.

(** ** The cycle guard of [resolveRef] (C3) *)

(** A reference already in the guard set resolves to [{}] at once, and the
    context is left as it was. *)
Lemma resolveRef_guarded (resolveSchema : JS -> M JS) (ref : string) (current : JS)
    (ctx : SchemaContext) :
  ref ∈ visited ctx ->
  Pointer.resolveRef resolveSchema (JStr ref) current ctx = Ret (emptySchema, ctx).
Proof.
  intros Hin. unfold Pointer.resolveRef.
  rewrite bool_decide_eq_true_2 by exact Hin. reflexivity.
Qed.

(** A reference whose target does not exist is taken out of the guard set
    again: [visited.delete(ref)] is reached. *)
Example resolveRef_target_missing fuel :
  Pointer.resolveSchema (S fuel) (JObj [("$ref", JStr "#/$defs/B")]) (freshContext definesA)
  = Ret (emptySchema, freshContext definesA).
Proof. vm_compute. reflexivity. Qed.

(** What the entry left in the guard set does to a later step of the same
    call: [/bogus] is refused by the record, while below [/next] the same
    reference resolves to [{}] and every property is admitted. *)
Example later_step_meets_the_guard re fuel :
  Pointer.validateJSONPointer re (S (S fuel)) "/bogus" linkedSchema = Ret false /\
  Pointer.validateJSONPointer re (S (S fuel)) "/next/bogus" linkedSchema = Ret true.
Proof. split; vm_compute; reflexivity. Qed.

(** C3: when the target of a reference is found, [resolveRef] returns
    through [return resolveSchema(...)] and the reference is still in the
    guard set after the call; the specification says that it has been
    removed by then, whether or not a target was found. *)
Theorem C3_reference_stays_in_guard_set fuel :
  exists ctx : SchemaContext,
    Pointer.resolveRef (Pointer.resolveSchema (S fuel)) (JStr "#/$defs/A") refersToA
      (freshContext definesA)
    = Ret (JObj [("type", JStr "object")], ctx)
    /\ "#/$defs/A" ∈ visited ctx.
Proof.
  eexists. split.
  - vm_compute. reflexivity.
  - vm_compute. reflexivity.
Qed.

(** ** The [type] of a merged schema (C4) *)

Lemma mergeProperties_own key s1 s2 merged k :
  String.eqb key k = false ->
  own (mergeProperties key s1 s2 merged) k = own merged k.
Proof.
  intros Hk. unfold mergeProperties.
  destruct (truthy (get s1 key) || truthy (get s2 key)); [|reflexivity].
  rewrite own_setProp, Hk. reflexivity.
Qed.

Lemma mergeRequired_own s1 s2 merged merged' k :
  mergeRequired s1 s2 merged = Ret merged' ->
  String.eqb "required" k = false ->
  own merged' k = own merged k.
Proof.
  unfold mergeRequired. intros H Hk.
  destruct (truthy (get s1 "required") || truthy (get s2 "required")).
  - destruct (iterate _) as [a| | |]; try discriminate H. simpl in H.
    destruct (iterate _) as [b| | |]; try discriminate H. simpl in H.
    destruct (unique _ _) as [u| | |]; try discriminate H. simpl in H.
    injection H as <-. rewrite own_setProp, Hk. reflexivity.
  - injection H as <-. reflexivity.
Qed.

Lemma mergeMinProperties_own s1 s2 merged merged' k :
  Pointer.mergeMinProperties s1 s2 merged = Ret merged' ->
  String.eqb "minProperties" k = false ->
  own merged' k = own merged k.
Proof.
  unfold Pointer.mergeMinProperties. intros H Hk.
  destruct (defined _ || defined _).
  - destruct (toNumber _) as [[a|]| | |]; try discriminate H. simpl in H.
    destruct (toNumber _) as [[b|]| | |]; try discriminate H. simpl in H.
    injection H as <-. rewrite own_setProp, Hk. reflexivity.
  - injection H as <-. reflexivity.
Qed.

Lemma mergeMaxProperties_own s1 s2 merged merged' k :
  Pointer.mergeMaxProperties s1 s2 merged = Ret merged' ->
  String.eqb "maxProperties" k = false ->
  own merged' k = own merged k.
Proof.
  unfold Pointer.mergeMaxProperties. intros H Hk.
  destruct (defined _ || defined _).
  - destruct (Pointer.orInfinity _) as [[a|]| | |]; try discriminate H; simpl in H;
      destruct (Pointer.orInfinity _) as [[b|]| | |]; try discriminate H; simpl in H;
      injection H as <-; rewrite ?own_setProp, ?Hk; reflexivity.
  - injection H as <-. reflexivity.
Qed.

(** A value with a truthy keyword is an object that owns the keyword. *)
Lemma truthy_keyword (schema : JS) (k : string) :
  arrayIndex k = None -> String.eqb k "length" = false ->
  truthy (get schema k) = true ->
  exists kvs v, schema = JObj kvs /\ own kvs k = Some v /\ get schema k = v.
Proof.
  intros Hi Hl Ht. destruct schema as [| | | | s | xs | kvs]; simpl in *;
    rewrite ?Hl, ?Hi in Ht; try discriminate Ht.
  destruct (own kvs k) as [v|] eqn:Hk; [|discriminate Ht].
  exists kvs, v. auto.
Qed.

(** [{ type: "string" }] and [{ type: "number" }]: no common type. *)
Lemma C4_disjoint_types_keep_right_type :
  Pointer.mergeSchemas (JObj [("type", JStr "string")]) (JObj [("type", JStr "number")])
  = Ret (JObj [("type", JStr "number")]).
Proof. reflexivity. Qed.

(** C4 (amended): when both operands declare a type, the merged [type] is
    the list of the left operand's types that the right operand also
    allows (the value itself when there is exactly one), and when that list
    is empty it is the right operand's [type], which the spread
    [{ ...s1, ...s2 }] has put there. *)
Theorem C4_merged_type (s1 s2 merged : JS) :
  truthy (get s1 "type") = true ->
  truthy (get s2 "type") = true ->
  Pointer.mergeSchemas s1 s2 = Ret merged ->
  exists commonTypes : list JS,
    common (typeList (get s1 "type")) (typeList (get s2 "type")) = Ret commonTypes /\
    get merged "type" = match commonTypes with
                        | [] => get s2 "type"
                        | [t] => t
                        | _ :: _ :: _ => JArr commonTypes
                        end.
Proof.
  intros H1 H2 Hm.
  destruct (truthy_keyword s1 "type") as (kvs1 & t1 & -> & Hk1 & Ht1); auto.
  destruct (truthy_keyword s2 "type") as (kvs2 & t2 & -> & Hk2 & Ht2); auto.
  unfold Pointer.mergeSchemas in Hm. cbn [nullish orb] in Hm.
  destruct (mergeRequired _ _ _) as [m1| | |] eqn:Hreq; try discriminate Hm.
  cbn [obind] in Hm.
  destruct (mergeType _ _ _) as [m2| | |] eqn:Hty; try discriminate Hm.
  cbn [obind] in Hm.
  destruct (Pointer.mergeMinProperties _ _ _) as [m3| | |] eqn:Hmin; try discriminate Hm.
  cbn [obind] in Hm.
  destruct (Pointer.mergeMaxProperties _ _ _) as [m4| | |] eqn:Hmax; try discriminate Hm.
  cbn [obind] in Hm. injection Hm as <-.
  assert (Hm1 : own m1 "type" = Some t2).
  { rewrite (mergeRequired_own _ _ _ _ _ Hreq) by reflexivity.
    rewrite !mergeProperties_own by reflexivity.
    rewrite own_spread_object, Hk2. reflexivity. }
  assert (Hfinal : own m4 "type" = own m2 "type").
  { rewrite (mergeMaxProperties_own _ _ _ _ _ Hmax) by reflexivity.
    apply (mergeMinProperties_own _ _ _ _ _ Hmin). reflexivity. }
  unfold mergeType in Hty. rewrite H1, H2 in Hty. cbn [andb] in Hty.
  destruct (common _ _) as [commonTypes| | |]; try discriminate Hty.
  exists commonTypes. split; [reflexivity|].
  cbn [obind] in Hty. cbn [get]. rewrite Hfinal.
  destruct commonTypes as [|t [|t' rest]]; injection Hty as <-.
  - rewrite Hm1, Hk2. reflexivity.
  - rewrite own_setProp. reflexivity.
  - rewrite own_setProp. reflexivity.
Qed.

(** The theorem at [{ type: ["string", "number", "null"] }] and
    [{ type: ["null", "number"] }]: the merged type is ["number", "null"]. *)
Lemma C4_merged_type_witness :
  exists commonTypes : list JS,
    common (typeList (JArr [JStr "string"; JStr "number"; JStr "null"]))
           (typeList (JArr [JStr "null"; JStr "number"])) = Ret commonTypes /\
    get (JObj [("type", JArr [JStr "number"; JStr "null"])]) "type"
    = match commonTypes with
      | [] => JArr [JStr "null"; JStr "number"]
      | [t] => t
      | _ :: _ :: _ => JArr commonTypes
      end.
Proof.
  apply (C4_merged_type
           (JObj [("type", JArr [JStr "string"; JStr "number"; JStr "null"])])
           (JObj [("type", JArr [JStr "null"; JStr "number"])])
           (JObj [("type", JArr [JStr "number"; JStr "null"])])); reflexivity.
Defined.

(** ** A definition that refers to itself (C5) *)

(** A schema with a [$ref] is resolved by [resolveRef]. *)
Lemma resolveSchema_ref fuel schema ctx :
  truthy (get schema "$ref") = true ->
  Pointer.resolveSchema (S fuel) schema ctx
  = Pointer.resolveRef (Pointer.resolveSchema fuel) (get schema "$ref") schema ctx.
Proof.
  intros Href.
  destruct (truthy_keyword schema "$ref") as (kvs & v & -> & Hk & Hv); auto.
  cbn [Pointer.resolveSchema nullish]. rewrite Href. reflexivity.
Qed.

(** [{}] resolves to itself, and every token is admitted below it. *)
Lemma resolveSchema_empty fuel ctx :
  Pointer.resolveSchema (S fuel) emptySchema ctx = Ret (emptySchema, ctx).
Proof. reflexivity. Qed.

Lemma getNextSchema_empty re fuel token ctx :
  Pointer.getNextSchema re (S fuel) token emptySchema ctx = Ret (emptySchema, ctx).
Proof. reflexivity. Qed.

Lemma validateTokens_empty re fuel tokens ctx :
  Pointer.validateTokens re (S fuel) tokens emptySchema ctx = Ret (true, ctx).
Proof.
  induction tokens as [|token rest IH]; [reflexivity|].
  cbn [Pointer.validateTokens]. unfold bind at 1.
  rewrite resolveSchema_empty. cbn [obind fst snd].
  change (truthy emptySchema) with true. cbn [negb].
  change (defined (get emptySchema "const") || defined (get emptySchema "enum")) with false.
  cbv iota. unfold bind at 1. rewrite getNextSchema_empty. cbn [obind fst snd].
  change (truthy emptySchema) with true. cbn [negb]. exact IH.
Qed.

(** The segments of the reference lead from the root to the definition. *)
Lemma walk_to_definition (r nodeA : JS) :
  get (get r "$defs") "A" = nodeA ->
  truthy nodeA = true ->
  walk r (Str.split "/" (Str.sliceFrom selfReference 2)) = nodeA.
Proof.
  intros Hget Hnode.
  destruct (truthy_keyword (get r "$defs") "A") as (dkvs & v & Hdefs & Hk & Hv);
    [reflexivity | reflexivity | rewrite Hget; exact Hnode |].
  destruct (truthy_keyword r "$defs") as (rkvs & d & -> & Hk' & Hd);
    [reflexivity | reflexivity | rewrite Hdefs; reflexivity |].
  change (Str.split "/" (Str.sliceFrom selfReference 2)) with ["$defs"; "A"].
  cbn [walk]. change (unescape "$defs") with "$defs". change (unescape "A") with "A".
  change (getOpt (JObj rkvs) "$defs") with (get (JObj rkvs) "$defs").
  rewrite Hdefs. change (truthy (JObj dkvs)) with true. cbv iota.
  change (getOpt (JObj dkvs) "A") with (get (JObj dkvs) "A").
  rewrite <- Hdefs, Hget, Hnode. reflexivity.
Qed.

(** Two units of fuel resolve a schema that refers to the definition: the
    first call enters the reference in the guard set and reaches the
    definition, the second finds the reference guarded. *)
Lemma self_reference_resolves fuel (node nodeA : JS) (ctx : SchemaContext) :
  get (get (root ctx) "$defs") "A" = nodeA ->
  get nodeA "$ref" = JStr selfReference ->
  get node "$ref" = JStr selfReference ->
  Pointer.resolveSchema (S (S fuel)) node ctx
  = Ret (emptySchema,
         if bool_decide (selfReference ∈ visited ctx) then ctx
         else withVisited (fun v => v ∪ {[selfReference]}) ctx).
Proof.
  intros Hget HrefA Href.
  assert (Htruthy : truthy (get node "$ref") = true) by (rewrite Href; reflexivity).
  assert (HtruthyA : truthy (get nodeA "$ref") = true) by (rewrite HrefA; reflexivity).
  destruct (truthy_keyword nodeA "$ref") as (kvs & v & Hnode & _ & _); auto.
  assert (Hobj : truthy nodeA = true) by (rewrite Hnode; reflexivity).
  rewrite resolveSchema_ref, Href by exact Htruthy.
  unfold Pointer.resolveRef at 1.
  destruct (bool_decide (selfReference ∈ visited ctx)) eqn:Hin; [reflexivity|].
  change (Str.startsWith selfReference "#" && negb (Str.includes selfReference "/")) with false.
  cbn [andb].
  change (Str.startsWith selfReference "#/") with true.
  change (root (withVisited (fun v => v ∪ {[selfReference]}) ctx)) with (root ctx).
  rewrite (walk_to_definition (root ctx) nodeA Hget Hobj), Hobj.
  replace (typeofObject nodeA) with true by (rewrite Hnode; reflexivity).
  cbn [andb]. rewrite resolveSchema_ref, HrefA by exact HtruthyA.
  apply resolveRef_guarded. cbn [visited withVisited].
  apply elem_of_union_r, elem_of_singleton. reflexivity.
Qed.

(** The same holds of the patch validator's own [resolveSchema]. *)
Lemma patch_self_reference_resolves fuel (node nodeA : JS) (ctx : SchemaContext) :
  get (get (root ctx) "$defs") "A" = nodeA ->
  get nodeA "$ref" = JStr selfReference ->
  get node "$ref" = JStr selfReference ->
  Patch.resolveSchema (S (S fuel)) node ctx
  = Ret (emptySchema,
         if bool_decide (selfReference ∈ visited ctx) then ctx
         else withVisited (fun v => v ∪ {[selfReference]}) ctx).
Proof.
  intros Hget HrefA Href.
  assert (Htruthy : truthy (get node "$ref") = true) by (rewrite Href; reflexivity).
  assert (HtruthyA : truthy (get nodeA "$ref") = true) by (rewrite HrefA; reflexivity).
  destruct (truthy_keyword node "$ref") as (kvs & v & Hnode & _ & _); auto.
  destruct (truthy_keyword nodeA "$ref") as (kvsA & vA & HnodeA & _ & _); auto.
  rewrite Hnode in *. rewrite HnodeA in *. clear Hnode HnodeA node nodeA.
  cbn [Patch.resolveSchema nullish]. rewrite Htruthy, Href.
  destruct (bool_decide (selfReference ∈ visited ctx)) eqn:Hin; [reflexivity|].
  change (Str.startsWith selfReference "#/") with true.
  change (root (withVisited (fun v => v ∪ {[selfReference]}) ctx)) with (root ctx).
  rewrite (walk_to_definition (root ctx) (JObj kvsA) Hget eq_refl).
  cbn [andb truthy typeofObject nullish]. rewrite HtruthyA, HrefA.
  rewrite bool_decide_eq_true_2; [reflexivity|]. cbn [visited withVisited].
  apply elem_of_union_r, elem_of_singleton. reflexivity.
Qed.

(** C5: in a schema whose [$defs/A] holds [$ref: "#/$defs/A"], resolving
    the definition, or any schema that refers to it, returns the empty
    schema [{}] after two nested calls, in both validators and from any
    state of the guard set; and a pointer traversal that arrives there
    finishes, admitting every remaining token. *)
Theorem C5_self_reference_resolves_to_empty re fuel (node : JS) (ctx : SchemaContext)
    (tokens : list string) :
  get (get (get (root ctx) "$defs") "A") "$ref" = JStr "#/$defs/A" ->
  get node "$ref" = JStr "#/$defs/A" ->
  (exists ctx', Pointer.resolveSchema (S (S fuel)) node ctx = Ret (emptySchema, ctx')) /\
  (exists ctx', Patch.resolveSchema (S (S fuel)) node ctx = Ret (emptySchema, ctx')) /\
  (exists ctx', Pointer.validateTokens re (S (S fuel)) tokens node ctx = Ret (true, ctx')).
Proof.
  intros HrefA Href.
  pose proof (self_reference_resolves fuel node _ ctx eq_refl HrefA Href) as Hres.
  split; [eauto|].
  split; [rewrite (patch_self_reference_resolves fuel node _ ctx eq_refl HrefA Href); eauto|].
  destruct tokens as [|token rest]; [eexists; reflexivity|].
  cbn [Pointer.validateTokens]. unfold bind at 1. rewrite Hres. cbn [obind fst snd].
  change (truthy emptySchema) with true. cbn [negb].
  change (defined (get emptySchema "const") || defined (get emptySchema "enum")) with false.
  cbv iota. unfold bind at 1. rewrite getNextSchema_empty. cbn [obind fst snd].
  change (truthy emptySchema) with true. cbn [negb].
  rewrite validateTokens_empty. eauto.
Qed.

(** The theorem at the schema [selfReferring], from a fresh context. *)
Lemma C5_self_reference_resolves_to_empty_witness :
  (exists ctx', Pointer.resolveSchema 2 (JObj [("$ref", JStr "#/$defs/A")])
                  (freshContext selfReferring) = Ret (emptySchema, ctx')) /\
  (exists ctx', Patch.resolveSchema 2 (JObj [("$ref", JStr "#/$defs/A")])
                  (freshContext selfReferring) = Ret (emptySchema, ctx')) /\
  (exists ctx', Pointer.validateTokens wordRegExp 2 ["x"; "y"]
                  (JObj [("$ref", JStr "#/$defs/A")])
                  (freshContext selfReferring) = Ret (true, ctx')).
Proof.
  apply (C5_self_reference_resolves_to_empty wordRegExp 0
           (JObj [("$ref", JStr "#/$defs/A")]) (freshContext selfReferring) ["x"; "y"]);
    reflexivity.
Defined.

(** A pointer that goes through a property whose schema refers to the
    definition is valid, however long. *)
Example pointer_through_self_reference re fuel :
  Pointer.validateJSONPointer re (S (S fuel)) "/p/x/y"
    (JObj [("properties", JObj [("p", JObj [("$ref", JStr "#/$defs/A")])]);
           ("$defs", JObj [("A", JObj [("$ref", JStr "#/$defs/A")])])])
  = Ret true.
Proof. vm_compute. reflexivity. Qed.

(** ** [anyOf] and [oneOf] (C6) *)

Lemma gtZero_length (first : JS) (others : list JS) :
  gtZero (get (JArr (first :: others)) "length") = Ret true.
Proof. reflexivity. Qed.

Lemma get_first (first : JS) (others : list JS) :
  get (JArr (first :: others)) "0" = first.
Proof. reflexivity. Qed.

(** C6: a schema with no [$ref], [$dynamicRef] or [allOf] and a non-empty
    [anyOf] resolves to what its first [anyOf] branch resolves to; when
    [anyOf] is absent or empty and [oneOf] is not empty, to what its first
    [oneOf] branch resolves to.  Nothing else of the schema is read. *)
Theorem C6_first_branch_only fuel (schema first : JS) (others : list JS)
    (ctx : SchemaContext) :
  truthy (get schema "$ref") = false ->
  truthy (get schema "$dynamicRef") = false ->
  truthy (get schema "allOf") = false ->
  get schema "anyOf" = JArr (first :: others) \/
  ((truthy (get schema "anyOf") = false \/ get schema "anyOf" = JArr []) /\
   get schema "oneOf" = JArr (first :: others)) ->
  Pointer.resolveSchema (S fuel) schema ctx = Pointer.resolveSchema fuel first ctx.
Proof.
  intros Href Hdyn Hall Hbranches.
  assert (Hnn : nullish schema = false).
  { destruct Hbranches as [H|[_ H]]; destruct schema; try discriminate H; reflexivity. }
  cbn [Pointer.resolveSchema]. rewrite Hnn, Href, Hdyn, Hall.
  destruct Hbranches as [Hany | [Hany Hone]].
  - rewrite Hany. change (truthy (JArr (first :: others))) with true. cbv iota.
    unfold bind at 1, lift. rewrite gtZero_length. cbn [obind fst snd].
    rewrite get_first. reflexivity.
  - assert (Hskip : (if truthy (get schema "anyOf")
                     then gtZero (get (get schema "anyOf") "length")
                     else Ret false) = Ret false).
    { destruct Hany as [-> | ->]; reflexivity. }
    unfold bind at 1, lift. rewrite Hskip. cbn [obind fst snd].
    rewrite Hone. change (truthy (JArr (first :: others))) with true. cbv iota.
    unfold bind at 1. rewrite gtZero_length. cbn [obind fst snd].
    rewrite get_first. reflexivity.
Qed.

(** The theorem at [stringOrNumber]: the schema resolves to
    [{ type: "string" }], and its [properties] are not kept. *)
Lemma C6_first_branch_only_witness :
  Pointer.resolveSchema 2 stringOrNumber (freshContext stringOrNumber)
  = Ret (JObj [("type", JStr "string")], freshContext stringOrNumber).
Proof.
  etransitivity.
  - apply (C6_first_branch_only 1 stringOrNumber (JObj [("type", JStr "string")])
             [JObj [("type", JStr "number")]] (freshContext stringOrNumber));
      [reflexivity | reflexivity | reflexivity | left; reflexivity].
  - reflexivity.
Defined.

(** ** A closed object with one declared property (C7) *)

Lemma arrayDepth_element (t : JS) (types : list JS) :
  In t types -> (arrayDepth t < arrayDepth (JArr types))%nat.
Proof.
  intros Hin. cbn [arrayDepth]. apply Nat.lt_succ_r.
  assert (H : Forall (fun k => (k <= list_max (map arrayDepth types))%nat)
                (map arrayDepth types)) by (apply list_max_le; lia).
  rewrite Forall_forall in H. apply H, list_elem_of_In, in_map, Hin.
Qed.

Lemma closedOverA_object declared schema :
  closedOverA declared schema -> exists kvs, schema = JObj kvs.
Proof.
  intros [_ Hp _ _].
  destruct (truthy_keyword schema "properties") as (kvs & _ & -> & _);
    [reflexivity | reflexivity | rewrite Hp; reflexivity | eauto].
Qed.

(** [{ ...schema, type }] has the same object keywords. *)
Lemma closedOverA_with_type declared kvs t :
  closedOverA declared (JObj kvs) ->
  closedOverA declared (JObj (setProp (spread [] (JObj kvs)) "type" t)).
Proof.
  intros [Ha Hp Hpp Hn].
  split; rewrite get_with; cbn [String.eqb Ascii.eqb Bool.eqb]; assumption.
Qed.

Section DeclaredOnly.

Variable RegExp_test : string -> string -> option bool.

Lemma tryObjectTraversal_declared fuel declared schema ctx :
  closedOverA declared schema ->
  Pointer.tryObjectTraversal RegExp_test fuel "a" schema ctx = Ret (declared, ctx).
Proof.
  intros [Ha Hp Hpp Hn]. unfold Pointer.tryObjectTraversal.
  rewrite Hp. reflexivity.
Qed.

Lemma tryObjectTraversal_undeclared fuel declared schema ctx :
  closedOverA declared schema ->
  Pointer.tryObjectTraversal RegExp_test fuel "b" schema ctx = Ret (JNull, ctx).
Proof.
  intros [Ha Hp Hpp Hn]. unfold Pointer.tryObjectTraversal.
  rewrite Hp, Hpp, Hn, Ha. reflexivity.
Qed.

Lemma getNextSchema_declared fuel declared schema ctx :
  closedOverA declared schema -> truthy declared = true ->
  Pointer.getNextSchema RegExp_test (S fuel) "a" schema ctx = Ret (declared, ctx).
Proof.
  intros Hc Ht. pose proof Hc as [Ha Hp Hpp Hn].
  cbn [Pointer.getNextSchema]. rewrite Hp.
  change (truthy (JObj [("a", declared)])) with true.
  rewrite orb_true_r. cbn [orb]. unfold bind at 1.
  rewrite (tryObjectTraversal_declared fuel declared schema ctx Hc).
  cbn [obind fst snd]. rewrite Ht. reflexivity.
Qed.

Lemma getNextSchema_undeclared fuel declared schema ctx :
  closedOverA declared schema ->
  (arrayDepth (get schema "type") < fuel)%nat ->
  Pointer.getNextSchema RegExp_test fuel "b" schema ctx = Ret (JNull, ctx).
Proof.
  revert schema ctx. induction fuel as [|fuel IH]; intros schema ctx Hc Hd; [lia|].
  destruct (closedOverA_object _ _ Hc) as [kvs ->].
  pose proof Hc as [Ha Hp Hpp Hn].
  cbn [Pointer.getNextSchema]. rewrite Hp.
  change (truthy (JObj [("a", declared)])) with true.
  rewrite orb_true_r. cbn [orb]. unfold bind at 1.
  rewrite (tryObjectTraversal_undeclared fuel declared _ ctx Hc).
  cbn [obind fst snd truthy]. unfold bind at 1.
  assert (Harr : forall c : bool,
             (if c then lift (Pointer.tryArrayTraversal "b" (JObj kvs)) else ret JNull) ctx
             = Ret (JNull, ctx)) by (intros []; reflexivity).
  rewrite Harr. cbn [obind fst snd truthy].
  destruct (get (JObj kvs) "type") as [| | | | | types |] eqn:Htype; try reflexivity.
  destruct (1 <? Z.of_nat (length types)); [|reflexivity].
  assert (Hall : forall t, In t types -> (arrayDepth t < fuel)%nat).
  { intros t Hin. apply arrayDepth_element in Hin. lia. }
  clear Hd Htype. induction types as [|t rest IHrest]; [reflexivity|].
  cbn [Pointer.firstTruthy]. unfold bind at 1.
  rewrite IH.
  - cbn [obind fst snd truthy]. apply IHrest. intros t' Hin. apply Hall. right. exact Hin.
  - apply closedOverA_with_type, Hc.
  - rewrite get_with. cbn [String.eqb Ascii.eqb Bool.eqb]. apply Hall. left. reflexivity.
Qed.

End DeclaredOnly.

(** Such a schema resolves to itself, or to itself without [not]. *)
Lemma resolveSchema_uncomposed fuel (kvs : list (string * JS)) (ctx : SchemaContext) :
  uncomposed (JObj kvs) ->
  exists kvs',
    Pointer.resolveSchema (S fuel) (JObj kvs) ctx = Ret (JObj kvs', ctx) /\
    forall k, String.eqb "not" k = false -> get (JObj kvs') k = get (JObj kvs) k.
Proof.
  intros [Href Hdyn Hall Hany Hone Hif].
  cbn [Pointer.resolveSchema nullish]. rewrite Href, Hdyn, Hall, Hany, Hone, Hif.
  unfold bind, lift. cbn [obind fst snd].
  destruct (truthy (get (JObj kvs) "not")).
  - exists (setProp (spread [] (JObj kvs)) "not" JUndef). split; [reflexivity|].
    intros k Hk. rewrite get_with, Hk. reflexivity.
  - exists kvs. split; [|reflexivity].
    destruct (truthy (get (JObj kvs) "then")), (truthy (get (JObj kvs) "else")); reflexivity.
Qed.

Lemma closedOverA_resolved declared (schema schema' : JS) :
  (forall k, String.eqb "not" k = false -> get schema' k = get schema k) ->
  closedOverA declared schema -> closedOverA declared schema'.
Proof.
  intros Hsame [Ha Hp Hpp Hn]. split; rewrite Hsame by reflexivity; assumption.
Qed.

(** The schema is closed over the property ["a"], and yet [/a] is refused:
    [validateTokens] returns [false] on a schema with [enum] (or [const])
    before it looks at the token. *)
Lemma C7_enum_blocks_declared_property :
  get closedEnumSchema "additionalProperties" = JBool false /\
  get closedEnumSchema "properties" = JObj [("a", JObj [])] /\
  get closedEnumSchema "patternProperties" = JUndef /\
  get closedEnumSchema "propertyNames" = JUndef /\
  get closedEnumSchema "dependentSchemas" = JUndef /\
  Pointer.validateJSONPointer wordRegExp 2 "/a" closedEnumSchema = Ret false.
Proof. repeat split. Qed.

(** C7 (amended): a schema with [additionalProperties: false], with
    [properties] holding exactly the key ["a"] (bound to a schema object),
    without [patternProperties] and [propertyNames], and with none of
    [$ref], [$dynamicRef], [allOf], [anyOf], [oneOf], [if], [const], [enum],
    admits the pointer [/a] and refuses the pointer [/b], whatever its
    [type]; the fuel needed exceeds the nesting depth of [type]. *)
Theorem C7_declared_property_only re fuel (schema declared : JS) :
  get schema "additionalProperties" = JBool false ->
  get schema "properties" = JObj [("a", declared)] ->
  truthy declared = true ->
  truthy (get schema "patternProperties") = false ->
  truthy (get schema "propertyNames") = false ->
  (forall k, In k ["$ref"; "$dynamicRef"; "allOf"; "anyOf"; "oneOf"; "if"] ->
             truthy (get schema k) = false) ->
  get schema "const" = JUndef ->
  get schema "enum" = JUndef ->
  (arrayDepth (get schema "type") < fuel)%nat ->
  Pointer.validateJSONPointer re fuel "/a" schema = Ret true /\
  Pointer.validateJSONPointer re fuel "/b" schema = Ret false.
Proof.
  intros Ha Hp Hd Hpp Hn Hplain Hconst Henum Hfuel.
  assert (Hc : closedOverA declared schema) by (split; assumption).
  assert (Hu : uncomposed schema) by (split; apply Hplain; cbn; tauto).
  destruct (closedOverA_object _ _ Hc) as [kvs ->].
  destruct fuel as [|fuel]; [lia|].
  set (ctx := {| root := JObj kvs;
                 definitions := definitions (freshContext (JObj kvs));
                 visited := ∅;
                 anchors := Pointer.collectAnchors (JObj kvs) ∅ |}).
  destruct (resolveSchema_uncomposed fuel kvs ctx Hu) as (kvs' & Hres & Hsame).
  pose proof (closedOverA_resolved declared _ _ Hsame Hc) as Hc'.
  assert (Hopen : defined (get (JObj kvs') "const") || defined (get (JObj kvs') "enum") = false).
  { rewrite !Hsame by reflexivity. rewrite Hconst, Henum. reflexivity. }
  split.
  - change (Pointer.validateJSONPointer re (S fuel) "/a" (JObj kvs))
      with (let* r := Pointer.validateTokens re (S fuel) ["a"] (JObj kvs) ctx in Ret (fst r)).
    cbn [Pointer.validateTokens]. unfold bind at 1. rewrite Hres. cbn [obind fst snd truthy negb].
    rewrite Hopen. unfold bind at 1.
    rewrite (getNextSchema_declared re fuel declared _ ctx Hc' Hd).
    cbn [obind fst snd]. rewrite Hd. reflexivity.
  - change (Pointer.validateJSONPointer re (S fuel) "/b" (JObj kvs))
      with (let* r := Pointer.validateTokens re (S fuel) ["b"] (JObj kvs) ctx in Ret (fst r)).
    cbn [Pointer.validateTokens]. unfold bind at 1. rewrite Hres. cbn [obind fst snd truthy negb].
    rewrite Hopen. unfold bind at 1.
    rewrite (getNextSchema_undeclared re (S fuel) declared _ ctx Hc').
    + reflexivity.
    + rewrite Hsame by reflexivity. exact Hfuel.
Qed.

(** The theorem at [closedSchema], whose [type] is a list. *)
Lemma C7_declared_property_only_witness :
  Pointer.validateJSONPointer wordRegExp 3 "/a" closedSchema = Ret true /\
  Pointer.validateJSONPointer wordRegExp 3 "/b" closedSchema = Ret false.
Proof.
  apply (C7_declared_property_only wordRegExp 3 closedSchema (JObj [("type", JStr "string")]));
    try reflexivity.
  - intros k Hk. cbn in Hk. repeat (destruct Hk as [<-|Hk]; [reflexivity|]). destruct Hk.
  - cbn. lia.
Defined.

(** ** Tuples: [prefixItems] and the items past them (C8) *)

(** [parseInt] reads back what [toString] writes: the digits of a
    decimal numeral accumulate to its value. *)
Lemma digits_step (c : ascii) (r : string) (acc : option Z) (d : Z) :
  Str.digit c = Some d ->
  Str.digits (String c r) acc = Str.digits r (Some (10 * default 0 acc + d)).
Proof. intros H. cbn [Str.digits]. rewrite H. reflexivity. Qed.

Lemma digits_of_uint_acc (d : Decimal.uint) (acc : positive) :
  Str.digits (NilEmpty.string_of_uint d) (Some (Z.pos acc))
  = Some (Z.pos (Pos.of_uint_acc d acc)).
Proof.
  revert acc. induction d; intros acc; cbn [NilEmpty.string_of_uint Pos.of_uint_acc];
    [reflexivity | ..];
    (erewrite digits_step by reflexivity); rewrite <- IHd; do 2 f_equal;
    cbv [default id];
    match goal with
    | |- context [Z.of_N ?x] =>
        let v := eval vm_compute in (Z.of_N x) in change (Z.of_N x) with v
    end; lia.
Qed.

Lemma digits_of_uint (d : Decimal.uint) (acc : option Z) :
  d <> Decimal.Nil -> default 0 acc = 0 ->
  Str.digits (NilEmpty.string_of_uint d) acc = Some (Z.of_N (Pos.of_uint d)).
Proof.
  revert acc. induction d; intros acc Hnil Hacc; [congruence | ..];
    cbn [NilEmpty.string_of_uint Pos.of_uint];
    (erewrite digits_step by reflexivity); rewrite Hacc;
    try (apply digits_of_uint_acc).
  destruct d; try (apply IHd; [discriminate | reflexivity]).
  reflexivity.
Qed.

Lemma parseInt_unsigned (d : Decimal.uint) :
  d <> Decimal.Nil ->
  Str.parseInt (NilEmpty.string_of_uint d) = Some (Z.of_N (Pos.of_uint d)).
Proof.
  intros Hnil. rewrite <- (digits_of_uint d None Hnil eq_refl).
  destruct d; [congruence | reflexivity ..].
Qed.

Lemma parseInt_toString (n : Z) : 0 <= n -> Str.parseInt (Str.toString n) = Some n.
Proof.
  intros Hn. destruct n as [|p|p]; [reflexivity | | lia].
  unfold Str.toString. cbn [Z.to_int NilZero.string_of_int].
  pose proof (Unsigned.to_uint_nonnil p) as Hnil.
  replace (NilZero.string_of_uint (Pos.to_uint p))
    with (NilEmpty.string_of_uint (Pos.to_uint p))
    by (destruct (Pos.to_uint p); [congruence | reflexivity ..]).
  rewrite parseInt_unsigned by exact Hnil.
  rewrite Unsigned.of_to. reflexivity.
Qed.

(** The decimal of a natural number is a canonical token for it. *)
Lemma canonicalInt_toString (n : Z) : 0 <= n -> Str.canonicalInt (Str.toString n) = Some n.
Proof.
  intros Hn. unfold Str.canonicalInt. rewrite parseInt_toString by exact Hn.
  rewrite String.eqb_refl. reflexivity.
Qed.

(** A token that [parseInt] and [toString] take to [n] and back. *)
Lemma canonicalInt_inv (token : string) (n : Z) :
  Str.canonicalInt token = Some n ->
  Str.parseInt token = Some n /\ Str.toString n = token.
Proof.
  unfold Str.canonicalInt. destruct (Str.parseInt token) as [index|]; [|discriminate].
  destruct (String.eqb_spec token (Str.toString index)) as [Heq|]; [|discriminate].
  intros [= <-]. auto.
Qed.

(** Such a token reads the element at [n]. *)
Lemma get_element (xs : list JS) (token : string) (n : Z) :
  Str.canonicalInt token = Some n ->
  0 <= n < 4294967295 ->
  get (JArr xs) token = nth (Z.to_nat n) xs JUndef.
Proof.
  intros Hc Hn. cbn [get].
  assert (Hlen : String.eqb token "length" = false).
  { destruct (String.eqb_spec token "length") as [->|]; [discriminate Hc|reflexivity]. }
  rewrite Hlen. unfold arrayIndex. rewrite Hc.
  replace ((0 <=? n) && (n <? 4294967295)) with true; [reflexivity|].
  symmetry. apply andb_true_iff. split; [apply Z.leb_le | apply Z.ltb_lt]; lia.
Qed.

Section PrefixItems.

Variable RegExp_test : string -> string -> option bool.

(** On such a schema [getNextSchema] is [tryArrayTraversal]. *)
Lemma getNextSchema_array fuel prefix schema token ctx :
  tuple prefix schema ->
  Pointer.getNextSchema RegExp_test (S fuel) token schema ctx
  = let* next := Pointer.tryArrayTraversal token schema in
    Ret (if truthy next then next else JNull, ctx).
Proof.
  intros [Hty Hp Hpp Hpre Hmax Hlen].
  cbn [Pointer.getNextSchema]. rewrite Hty, Hp, Hpp.
  change (includesStr (typeList (JStr "array")) "object" || false || false
          || negb (truthy (JStr "array"))) with false.
  cbv iota. unfold bind at 1. cbn [ret obind fst snd truthy].
  change (includesStr (typeList (JStr "array")) "array") with true.
  cbn [orb]. unfold bind, lift.
  destruct (Pointer.tryArrayTraversal token schema) as [next| | |]; try reflexivity.
  cbn [obind fst snd]. destruct (truthy next); reflexivity.
Qed.

(** [tryArrayTraversal] on any schema with [prefixItems] and without
    [maxItems]: the positional schema inside the prefix, and past it what
    [items] allows. *)
Lemma tryArrayTraversal_prefix prefix schema token (n : Z) :
  get schema "prefixItems" = JArr prefix ->
  get schema "maxItems" = JUndef ->
  Z.of_nat (length prefix) <= 4294967295 ->
  Str.canonicalInt token = Some n -> 0 <= n ->
  Pointer.tryArrayTraversal token schema
  = Ret (if n <? Z.of_nat (length prefix)
         then nth (Z.to_nat n) prefix JUndef
         else itemsOrEmpty schema).
Proof.
  intros Hpre Hmax Hlen Hc Hn.
  destruct (canonicalInt_inv token n Hc) as [Hparse Hstr].
  unfold Pointer.tryArrayTraversal. rewrite Hparse, Hstr, String.eqb_refl, Hmax, Hpre.
  replace (n <? 0) with false by (symmetry; apply Z.ltb_ge; lia).
  cbn [orb negb defined obind truthy].
  change (get (JArr prefix) "length") with (JNum (Z.of_nat (length prefix))).
  unfold ltNumber. cbn [toNumber obind].
  destruct (n <? Z.of_nat (length prefix)) eqn:Hlt; [|reflexivity].
  rewrite (get_element prefix token n Hc); [reflexivity|].
  apply Z.ltb_lt in Hlt. lia.
Qed.

End PrefixItems.

(** A tuple that declares no [type] is first tried as an object, and as an
    object it admits every token with the schema [{}]: index [0] does not
    yield the positional schema, and index [1] is admitted although
    [items] is [false].  The same happens to a schema of type ["array"]
    that has a [properties] keyword. *)
Lemma C8_object_dispatch_comes_first :
  (get closedTuple "prefixItems" = JArr [JObj [("type", JStr "string")]] /\
   get closedTuple "items" = JBool false /\
   get closedTuple "maxItems" = JUndef /\
   Pointer.getNextSchema wordRegExp 1 "0" closedTuple (freshContext closedTuple)
   = Ret (emptySchema, freshContext closedTuple) /\
   Pointer.validateJSONPointer wordRegExp 1 "/1" closedTuple = Ret true) /\
  (get closedTupleWithProperties "type" = JStr "array" /\
   Pointer.validateJSONPointer wordRegExp 1 "/1" closedTupleWithProperties = Ret true).
Proof. repeat split. Qed.

(** C8 (amended): for a schema that declares [type: "array"], has no
    [properties] or [patternProperties] keyword, has [prefixItems] of length
    [N >= 1] and no [maxItems]: the token of index [N - 1] yields the last
    positional schema (a schema object); without [items] the token of index
    [N] yields [{}]; with [items: false] the token of index [N] yields
    [null], so the pointer is refused. *)
Theorem C8_prefix_items re fuel (schema : JS) (prefix : list JS) (ctx : SchemaContext) :
  get schema "type" = JStr "array" ->
  truthy (get schema "properties") = false ->
  truthy (get schema "patternProperties") = false ->
  get schema "prefixItems" = JArr prefix ->
  get schema "maxItems" = JUndef ->
  0 < Z.of_nat (length prefix) <= 4294967295 ->
  truthy (nth (length prefix - 1) prefix JUndef) = true ->
  Pointer.getNextSchema re (S fuel) (Str.toString (Z.of_nat (length prefix) - 1)) schema ctx
  = Ret (nth (length prefix - 1) prefix JUndef, ctx) /\
  (get schema "items" = JUndef ->
   Pointer.getNextSchema re (S fuel) (Str.toString (Z.of_nat (length prefix))) schema ctx
   = Ret (emptySchema, ctx)) /\
  (get schema "items" = JBool false ->
   Pointer.getNextSchema re (S fuel) (Str.toString (Z.of_nat (length prefix))) schema ctx
   = Ret (JNull, ctx)).
Proof.
  intros Hty Hp Hpp Hpre Hmax Hlen Hschema.
  assert (Ht : tuple prefix schema) by (split; assumption).
  assert (Hlast : Str.canonicalInt (Str.toString (Z.of_nat (length prefix) - 1))
                  = Some (Z.of_nat (length prefix) - 1))
    by (apply canonicalInt_toString; lia).
  assert (Hnext : Str.canonicalInt (Str.toString (Z.of_nat (length prefix)))
                  = Some (Z.of_nat (length prefix)))
    by (apply canonicalInt_toString; lia).
  rewrite !(getNextSchema_array re fuel prefix schema _ ctx Ht).
  rewrite (tryArrayTraversal_prefix prefix schema _ _ Hpre Hmax (proj2 Hlen) Hlast) by lia.
  rewrite (tryArrayTraversal_prefix prefix schema _ _ Hpre Hmax (proj2 Hlen) Hnext) by lia.
  replace (Z.of_nat (length prefix) - 1 <? Z.of_nat (length prefix)) with true
    by (symmetry; apply Z.ltb_lt; lia).
  rewrite Z.ltb_irrefl.
  replace (Z.to_nat (Z.of_nat (length prefix) - 1)) with (length prefix - 1)%nat by lia.
  cbn [obind]. rewrite Hschema. split; [reflexivity|].
  unfold itemsOrEmpty. split; intros ->; reflexivity.
Qed.

(** The theorem at [pairSchema] and at [closedPairSchema], where [N] is 2. *)
Lemma C8_prefix_items_witness :
  (Pointer.getNextSchema wordRegExp 1 "1" pairSchema (freshContext pairSchema)
   = Ret (JObj [("type", JStr "number")], freshContext pairSchema) /\
   Pointer.getNextSchema wordRegExp 1 "2" pairSchema (freshContext pairSchema)
   = Ret (emptySchema, freshContext pairSchema)) /\
  Pointer.getNextSchema wordRegExp 1 "2" closedPairSchema (freshContext closedPairSchema)
  = Ret (JNull, freshContext closedPairSchema).
Proof.
  assert (Hlen : 0 < 2 <= 4294967295) by lia.
  split.
  - destruct (C8_prefix_items wordRegExp 0 pairSchema
                [JObj [("type", JStr "string")]; JObj [("type", JStr "number")]]
                (freshContext pairSchema)
                eq_refl eq_refl eq_refl eq_refl eq_refl Hlen eq_refl)
      as (Hlast & Hopen & _).
    split; [exact Hlast | apply Hopen; reflexivity].
  - destruct (C8_prefix_items wordRegExp 0 closedPairSchema
                [JObj [("type", JStr "string")]; JObj [("type", JStr "number")]]
                (freshContext closedPairSchema)
                eq_refl eq_refl eq_refl eq_refl eq_refl Hlen eq_refl)
      as (_ & _ & Hclosed).
    apply Hclosed. reflexivity.
Defined.

(** ** Batches (C9) *)

Section Batch.

Variable RegExp_test : string -> string -> option bool.
Variable fuel : nat.
Variable schema : JS.

Lemma tagged_app index es es' :
  tagged index es -> tagged index es' -> tagged index (es ++ es').
Proof. apply Forall_app_2. Qed.

Lemma tagged_unlessValid index ok message :
  tagged index (Patch.unlessValid ok (Patch.fail index message)).
Proof. destruct ok; repeat constructor. Qed.

Lemma tagged_optionalError index message :
  tagged index (Patch.optionalError index message).
Proof. destruct message; repeat constructor. Qed.

Lemma withPathAndValue_tagged kind operation index check es :
  (forall path es, check path = Ret es -> tagged index es) ->
  Patch.withPathAndValue kind operation index check = Ret es -> tagged index es.
Proof.
  intros Hcheck. unfold Patch.withPathAndValue.
  destruct (negb (truthy (get operation "path"))); [intros [= <-]; repeat constructor|].
  destruct (hasProperty "value" operation) as [[|]| | |]; cbn [obind negb];
    try discriminate; [|intros [= <-]; repeat constructor].
  destruct (get operation "path"); try (intros [= <-]; repeat constructor).
  apply Hcheck.
Qed.

Lemma withFromAndPath_tagged kind operation index check es :
  (forall from path es, check from path = Ret es -> tagged index es) ->
  Patch.withFromAndPath kind operation index check = Ret es -> tagged index es.
Proof.
  intros Hcheck. unfold Patch.withFromAndPath.
  destruct (truthy (get operation "from")), (truthy (get operation "path"));
    cbn [app]; try (intros [= <-]; repeat constructor).
  destruct (get operation "from"), (get operation "path");
    try (intros [= <-]; repeat constructor).
  apply Hcheck.
Qed.

(** Every error that [validateOperation] returns names the index it was
    given. *)
Lemma validateOperation_tagged operation index es :
  Patch.validateOperation RegExp_test fuel operation schema index = Ret es ->
  tagged index es.
Proof.
  unfold Patch.validateOperation.
  destruct (negb (truthy operation) || negb (typeofObject operation));
    [intros [= <-]; repeat constructor|].
  destruct (negb (truthy (get operation "op"))); [intros [= <-]; repeat constructor|].
  destruct (negb (existsb (isStr (get operation "op")) Patch.validOps)).
  { destruct (toStr _); cbn [obind]; try discriminate. intros [= <-]. repeat constructor. }
  destruct (isStr (get operation "op") "add").
  { apply withPathAndValue_tagged. intros path es'.
    destruct (Patch.validateAddPath _ _ _ _); cbn [obind]; try discriminate.
    intros [= <-]. apply tagged_optionalError. }
  destruct (isStr (get operation "op") "remove").
  { unfold Patch.validateRemove.
    destruct (negb (truthy (get operation "path"))); [intros [= <-]; repeat constructor|].
    destruct (get operation "path"); try (intros [= <-]; repeat constructor).
    destruct (Pointer.validateJSONPointer _ _ _ _); cbn [obind]; try discriminate.
    destruct (Patch.checkRequiredProperty _ _ _ _); cbn [obind]; try discriminate.
    intros [= <-]. apply tagged_app; [apply tagged_unlessValid | apply tagged_optionalError]. }
  destruct (isStr (get operation "op") "replace").
  { apply withPathAndValue_tagged. intros path es'.
    destruct (Pointer.validateJSONPointer _ _ _ _); cbn [obind]; try discriminate.
    intros [= <-]. apply tagged_unlessValid. }
  destruct (isStr (get operation "op") "move").
  { apply withFromAndPath_tagged. intros from path es'.
    destruct (Pointer.validateJSONPointer _ _ _ _); cbn [obind]; try discriminate.
    destruct (Patch.validateAddPath _ _ _ _); cbn [obind]; try discriminate.
    destruct (Patch.checkRequiredProperty _ _ _ _); cbn [obind]; try discriminate.
    intros [= <-].
    repeat apply tagged_app; try apply tagged_unlessValid; try apply tagged_optionalError.
    destruct (Str.startsWith _ _); repeat constructor. }
  destruct (isStr (get operation "op") "copy").
  { apply withFromAndPath_tagged. intros from path es'.
    destruct (Pointer.validateJSONPointer _ _ _ _); cbn [obind]; try discriminate.
    destruct (Patch.validateAddPath _ _ _ _); cbn [obind]; try discriminate.
    intros [= <-]. apply tagged_app; [apply tagged_unlessValid | apply tagged_optionalError]. }
  destruct (isStr (get operation "op") "test").
  { apply withPathAndValue_tagged. intros path es'.
    destruct (Pointer.validateJSONPointer _ _ _ _); cbn [obind]; try discriminate.
    intros [= <-]. apply tagged_unlessValid. }
  intros [= <-]. constructor.
Qed.

(** The loop returns the reports of the operations one after the other. *)
Lemma validateOperations_concat (operations : list JS) (i : Z)
    (reports : list (list Patch.ValidationError)) :
  imap (fun k operation =>
          Patch.validateOperation RegExp_test fuel operation schema (i + Z.of_nat k)) operations
  = map Ret reports ->
  Patch.validateOperations RegExp_test fuel operations schema i = Ret (concat reports).
Proof.
  revert i reports. induction operations as [|operation rest IH]; intros i reports Heach.
  - destruct reports; [reflexivity | discriminate Heach].
  - destruct reports as [|report reports]; [discriminate Heach|].
    cbn [imap map] in Heach. injection Heach as Hfirst Hrest.
    rewrite Z.add_0_r in Hfirst.
    cbn [Patch.validateOperations concat]. rewrite Hfirst. cbn [obind].
    rewrite (IH (i + 1) reports); [reflexivity|].
    rewrite <- Hrest. apply imap_ext. intros k x _. cbn. f_equal. lia.
Qed.

End Batch.

(** Operations 0 and 2 are invalid and operation 1 is valid, and the batch
    has three errors: a move that lacks both [from] and [path] reports
    each of them. *)
Lemma C9_one_operation_two_errors :
  (exists e es, Patch.validateOperation wordRegExp 1 moveWithoutFields emptySchema 0
                = Ret (e :: es)) /\
  Patch.validateOperation wordRegExp 1 addX emptySchema 1 = Ret [] /\
  (exists e es, Patch.validateOperation wordRegExp 1 unknownOperation emptySchema 2
                = Ret (e :: es)) /\
  Patch.validateJSONPatch wordRegExp 1 (JArr [moveWithoutFields; addX; unknownOperation])
    emptySchema
  = Ret {| Patch.valid := false;
           Patch.errors :=
             [Patch.missing 0 "Move" "from";
              Patch.missing 0 "Move" "path";
              Patch.fail 2 ("Invalid operation " ++ Patch.quoted "bogus"
                            ++ ". Must be one of: add, remove, replace, move, copy, test")] |}.
Proof. repeat split; eexists; eexists; reflexivity. Qed.

(** C9 (amended): when every operation of a batch, validated alone under
    its index, returns a list of errors, [validateJSONPatch] returns these
    lists one after the other, in the order of the operations; the result
    is valid exactly when that list is empty; every error carries the
    index of the operation that it comes from (so a batch of three whose
    operations 0 and 2 are invalid has only errors of index 0 followed by
    errors of index 2, two of them when each reports one); and a patch that
    is not an array yields the single error of index -1. *)
Theorem C9_batch_accumulates re fuel (schema : JS) (operations : list JS)
    (reports : list (list Patch.ValidationError)) :
  eachOperation re fuel schema operations = map Ret reports ->
  (exists result,
      Patch.validateJSONPatch re fuel (JArr operations) schema = Ret result /\
      Patch.errors result = concat reports /\
      (Patch.valid result = true <-> Patch.errors result = [])) /\
  (forall k report, reports !! k = Some report -> tagged (Z.of_nat k) report) /\
  (forall patch, isArray patch = false ->
                 Patch.validateJSONPatch re fuel patch schema = Ret notAnArray).
Proof.
  intros Heach. split; [|split].
  - cbn [Patch.validateJSONPatch].
    rewrite (validateOperations_concat re fuel schema operations 0 reports) by exact Heach.
    cbn [obind]. eexists. split; [reflexivity|]. cbn [Patch.errors Patch.valid].
    split; [reflexivity|]. destruct (concat reports); split; congruence.
  - intros k report Hk.
    assert (Hr : eachOperation re fuel schema operations !! k = Some (Ret report)).
    { rewrite Heach. change (map Ret reports) with (Ret <$> reports).
      rewrite list_lookup_fmap, Hk. reflexivity. }
    unfold eachOperation in Hr. rewrite list_lookup_imap in Hr.
    destruct (operations !! k) as [operation|]; [|discriminate Hr].
    cbn in Hr. injection Hr as Hr.
    exact (validateOperation_tagged re fuel schema operation _ report Hr).
  - intros patch Hp. destruct patch; try reflexivity. discriminate Hp.
Qed.

(** The theorem at a batch of three whose operations 0 and 2 are invalid:
    two errors, of index 0 and of index 2. *)
Lemma C9_batch_accumulates_witness :
  (exists result,
      Patch.validateJSONPatch wordRegExp 1 (JArr [removeNothing; addName; unknownOperation])
        nameSchema = Ret result /\
      Patch.errors result = concat twoReports /\
      (Patch.valid result = true <-> Patch.errors result = [])) /\
  (forall k report, twoReports !! k = Some report -> tagged (Z.of_nat k) report) /\
  (forall patch, isArray patch = false ->
                 Patch.validateJSONPatch wordRegExp 1 patch nameSchema = Ret notAnArray).
Proof.
  apply (C9_batch_accumulates wordRegExp 1 nameSchema
           [removeNothing; addName; unknownOperation] twoReports).
  reflexivity.
Defined.

(** ** The empty path (C10) *)

Lemma validateJSONPointer_root re fuel (schema : JS) :
  Pointer.validateJSONPointer re fuel "" schema = Ret true.
Proof. reflexivity. Qed.

(** The errors of an operation are among the errors of its batch. *)
Lemma validateOperations_member re fuel (schema : JS) (operations : list JS) (i : Z)
    (errors : list Patch.ValidationError) (k : nat) (operation : JS)
    (es : list Patch.ValidationError) :
  Patch.validateOperations re fuel operations schema i = Ret errors ->
  operations !! k = Some operation ->
  Patch.validateOperation re fuel operation schema (i + Z.of_nat k) = Ret es ->
  forall e, In e es -> In e errors.
Proof.
  revert i errors k. induction operations as [|first rest IH]; intros i errors k Hall Hk Hop.
  - discriminate Hk.
  - cbn [Patch.validateOperations] in Hall.
    destruct (Patch.validateOperation re fuel first schema i) as [firstErrors| | |] eqn:Hfirst;
      try discriminate Hall.
    cbn [obind] in Hall.
    destruct (Patch.validateOperations re fuel rest schema (i + 1)) as [later| | |] eqn:Hrest;
      try discriminate Hall.
    cbn [obind] in Hall. injection Hall as <-.
    intros e He. apply in_or_app. destruct k as [|k].
    + injection Hk as ->. rewrite Z.add_0_r, Hfirst in Hop. injection Hop as <-. auto.
    + right. apply (IH (i + 1) later k Hrest Hk); [|exact He].
      rewrite <- Hop. f_equal. lia.
Qed.

(** C10: an operation of any of the six kinds whose [path] is the empty
    string gets the error that the operation must have a "path" property.
    [validateJSONPatch] reports it: the result for the batch that holds
    this operation alone is invalid and has the error under index 0 among
    its errors, and every result for a batch that holds the operation at
    position [k] is invalid and has the error under index [k].  Yet the
    empty pointer is valid against every schema. *)
Theorem C10_empty_path_counts_as_missing re fuel (schema operation : JS) (index : Z)
    (op kind : string) :
  In (op, kind) kinds ->
  get operation "op" = JStr op ->
  get operation "path" = JStr "" ->
  (exists es, Patch.validateOperation re fuel operation schema index = Ret es /\
              In (Patch.missing index kind "path") es) /\
  (exists result, Patch.validateJSONPatch re fuel (JArr [operation]) schema = Ret result /\
                  Patch.valid result = false /\
                  In (Patch.missing 0 kind "path") (Patch.errors result)) /\
  (forall (operations : list JS) (k : nat) (result : Patch.PatchValidationResult),
     operations !! k = Some operation ->
     Patch.validateJSONPatch re fuel (JArr operations) schema = Ret result ->
     Patch.valid result = false /\
     In (Patch.missing (Z.of_nat k) kind "path") (Patch.errors result)) /\
  Pointer.validateJSONPointer re fuel "" schema = Ret true.
Proof.
  intros Hkind Hop Hpath.
  assert (Hes : forall i, exists es,
               Patch.validateOperation re fuel operation schema i = Ret es /\
               In (Patch.missing i kind "path") es).
  { intros i. destruct (truthy_keyword operation "op") as (kvs & v & -> & _ & _);
      [reflexivity | reflexivity | rewrite Hop; cbn in Hkind;
       repeat (destruct Hkind as [[= <- <-]|Hkind]; [reflexivity|]); destruct Hkind |].
    unfold Patch.validateOperation. cbn [truthy typeofObject negb orb]. rewrite Hop.
    cbn in Hkind.
    repeat (destruct Hkind as [[= <- <-]|Hkind];
            [ cbn [truthy negb existsb Patch.validOps isStr String.eqb Ascii.eqb Bool.eqb orb];
              cbv iota;
              unfold Patch.validateAdd, Patch.validateRemove, Patch.validateReplace,
                Patch.validateMove, Patch.validateCopy, Patch.validateTest,
                Patch.withPathAndValue, Patch.withFromAndPath;
              rewrite Hpath; cbn [truthy negb];
              try (destruct (truthy (get (JObj kvs) "from")));
              eexists; (split; [reflexivity | cbn; tauto]) |]).
    destruct Hkind. }
  assert (Hbatch : forall (operations : list JS) (k : nat)
                          (result : Patch.PatchValidationResult),
             operations !! k = Some operation ->
             Patch.validateJSONPatch re fuel (JArr operations) schema = Ret result ->
             Patch.valid result = false /\
             In (Patch.missing (Z.of_nat k) kind "path") (Patch.errors result)).
  { intros operations k result Hk Hres. cbn [Patch.validateJSONPatch] in Hres.
    destruct (Patch.validateOperations re fuel operations schema 0) as [errors| | |] eqn:Hall;
      try discriminate Hres.
    cbn [obind] in Hres. injection Hres as <-. cbn [Patch.valid Patch.errors].
    destruct (Hes (0 + Z.of_nat k)) as (es & Hop' & Hin).
    pose proof (validateOperations_member re fuel schema operations 0 errors k operation es
                  Hall Hk Hop' _ Hin) as Hmember.
    rewrite Z.add_0_l in Hmember.
    split; [|exact Hmember]. destruct errors; [destruct Hmember | reflexivity]. }
  split; [exact (Hes index)|]. split; [|split; [exact Hbatch | reflexivity]].
  destruct (Hes 0) as (es & Hes0 & Hin).
  cbn [Patch.validateJSONPatch Patch.validateOperations]. rewrite Hes0. cbn [obind].
  eexists. split; [reflexivity|]. cbn [Patch.valid Patch.errors]. rewrite app_nil_r.
  split; [|exact Hin]. destruct es; [destruct Hin | reflexivity].
Qed.

(** The theorem at [{ op: "remove", path: "" }], alone and after a valid
    addition. *)
Lemma C10_empty_path_counts_as_missing_witness :
  (exists es, Patch.validateOperation wordRegExp 0 removeRoot emptySchema 0 = Ret es /\
              In (Patch.missing 0 "Remove" "path") es) /\
  (exists result, Patch.validateJSONPatch wordRegExp 0 (JArr [removeRoot]) emptySchema
                  = Ret result /\
                  Patch.valid result = false /\
                  In (Patch.missing 0 "Remove" "path") (Patch.errors result)) /\
  (exists result, Patch.validateJSONPatch wordRegExp 1 removeRootAfterAdd emptySchema
                  = Ret result /\
                  Patch.valid result = false /\
                  In (Patch.missing 1 "Remove" "path") (Patch.errors result)) /\
  Pointer.validateJSONPointer wordRegExp 0 "" emptySchema = Ret true.
Proof.
  destruct (C10_empty_path_counts_as_missing wordRegExp 0 emptySchema removeRoot 0
              "remove" "Remove") as (Hone & Halone & _ & Hroot);
    [cbn; tauto | reflexivity | reflexivity |].
  destruct (C10_empty_path_counts_as_missing wordRegExp 1 emptySchema removeRoot 0
              "remove" "Remove") as (_ & _ & Hbatch & _);
    [cbn; tauto | reflexivity | reflexivity |].
  split; [exact Hone|]. split; [exact Halone|]. split; [|exact Hroot].
  eexists. split; [reflexivity|].
  apply (Hbatch [addX; removeRoot] 1%nat); reflexivity.
Defined.

(** * Further properties of the code *)

(** ** What resolution leaves in the context *)

Lemma extends_refl ctx : extends ctx ctx.
Proof. repeat split; reflexivity. Qed.

Lemma extends_trans c1 c2 c3 : extends c1 c2 -> extends c2 c3 -> extends c1 c3.
Proof.
  intros (R1 & D1 & A1 & V1) (R2 & D2 & A2 & V2).
  repeat split; try congruence. etransitivity; eassumption.
Qed.

Lemma extends_add ref ctx : extends ctx (withVisited (fun v => v ∪ {[ref]}) ctx).
Proof. repeat split. cbn. apply union_subseteq_l. Qed.

Lemma extends_add_delete (ref : string) ctx :
  ref ∉ visited ctx ->
  extends ctx (withVisited (fun v => v ∖ {[ref]}) (withVisited (fun v => v ∪ {[ref]}) ctx)).
Proof.
  intros Hnot. repeat split. cbn. intros x Hx.
  apply elem_of_difference. split; [apply elem_of_union_l, Hx|].
  rewrite elem_of_singleton. intros ->. contradiction.
Qed.

Lemma keeps_ret {A} (r : A) : keeps (ret r).
Proof. intros ctx r' ctx' [= <- <-]. apply extends_refl. Qed.

Lemma keeps_throw {A} : keeps (fun _ => Throw : outcome (A * SchemaContext)).
Proof. intros ctx r ctx' H. discriminate H. Qed.

Lemma keeps_bind {A B} (m : M A) (k : A -> M B) :
  keeps m -> (forall a, keeps (k a)) -> keeps (bind m k).
Proof.
  intros Hm Hk ctx r ctx' H. unfold bind in H.
  destruct (m ctx) as [[a c]| | |] eqn:E; try discriminate H. cbn in H.
  eapply extends_trans; [eapply Hm, E | eapply Hk, H].
Qed.

Lemma keeps_lift {A} (o : outcome A) : keeps (lift o).
Proof.
  intros ctx r ctx' H. unfold lift in H.
  destruct o; try discriminate H. injection H as <- <-. apply extends_refl.
Qed.

Lemma resolveRef_keeps (rec : JS -> M JS) ref current :
  (forall s, keeps (rec s)) -> keeps (Pointer.resolveRef rec ref current).
Proof.
  intros Hrec ctx r ctx' H. destruct ref; try discriminate H.
  unfold Pointer.resolveRef in H.
  destruct (bool_decide (s ∈ visited ctx)) eqn:Hin.
  { injection H as <- <-. apply extends_refl. }
  apply bool_decide_eq_false_1 in Hin.
  destruct (_ && _ && _).
  { eapply extends_trans; [apply extends_add | eapply Hrec, H]. }
  destruct (_ && _ && _).
  { eapply extends_trans; [apply extends_add | eapply Hrec, H]. }
  destruct (_ && _); injection H as <- <-.
  - apply extends_add.
  - apply extends_add_delete, Hin.
Qed.

Lemma reduceMerge_keeps (rec : JS -> M JS) branches acc :
  (forall s, keeps (rec s)) -> keeps (Pointer.reduceMerge rec branches acc).
Proof.
  intros Hrec. revert acc. induction branches as [|s rest IH]; intros acc.
  - apply keeps_ret.
  - cbn [Pointer.reduceMerge]. apply keeps_bind; [apply Hrec|].
    intros resolved. apply keeps_bind; [apply keeps_lift|]. intros acc'. apply IH.
Qed.

Lemma resolveSchema_keeps fuel schema : keeps (Pointer.resolveSchema fuel schema).
Proof.
  revert schema. induction fuel as [|fuel IH]; intros schema.
  - intros ctx r ctx' H. discriminate H.
  - cbn [Pointer.resolveSchema].
    destruct (nullish schema); [apply keeps_throw|].
    destruct (truthy (get schema "$ref")); [apply resolveRef_keeps, IH|].
    destruct (truthy (get schema "$dynamicRef")); [apply resolveRef_keeps, IH|].
    destruct (truthy (get schema "allOf")).
    { destruct (get schema "allOf"); try apply keeps_throw.
      apply keeps_bind; [apply reduceMerge_keeps, IH | intros; apply keeps_ret]. }
    apply keeps_bind; [apply keeps_lift|]. intros [|]; [apply IH|].
    apply keeps_bind; [apply keeps_lift|]. intros [|]; [apply IH|].
    destruct (truthy (get schema "not")); [apply keeps_ret|].
    destruct (truthy (get schema "if")); [|apply keeps_ret].
    destruct (_ ++ _)%list; [apply keeps_ret|].
    apply keeps_bind; [apply reduceMerge_keeps, IH | intros; apply keeps_ret].
Qed.

Lemma patch_reduceMerge_keeps (rec : JS -> M JS) branches acc :
  (forall s, keeps (rec s)) -> keeps (Patch.reduceMerge rec branches acc).
Proof.
  intros Hrec. revert acc. induction branches as [|s rest IH]; intros acc.
  - apply keeps_ret.
  - cbn [Patch.reduceMerge]. apply keeps_bind; [apply Hrec|].
    intros resolved. apply keeps_bind; [apply keeps_lift|]. intros acc'. apply IH.
Qed.

Lemma patch_resolveSchema_keeps fuel schema : keeps (Patch.resolveSchema fuel schema).
Proof.
  revert schema. induction fuel as [|fuel IH]; intros schema.
  - intros ctx r ctx' H. discriminate H.
  - cbn [Patch.resolveSchema].
    destruct (nullish schema); [apply keeps_throw|].
    destruct (truthy (get schema "$ref")).
    { destruct (get schema "$ref") as [| | | |ref| |]; try apply keeps_throw.
      intros ctx r ctx' H.
      destruct (bool_decide (ref ∈ visited ctx)) eqn:Hin.
      { injection H as <- <-. apply extends_refl. }
      apply bool_decide_eq_false_1 in Hin.
      destruct (_ && _ && _).
      - eapply extends_trans; [apply extends_add | eapply IH, H].
      - injection H as <- <-. apply extends_add_delete, Hin. }
    destruct (truthy (get schema "allOf")).
    { destruct (get schema "allOf"); try apply keeps_throw.
      apply keeps_bind; [apply patch_reduceMerge_keeps, IH | intros; apply keeps_ret]. }
    apply keeps_bind; [apply keeps_lift|]. intros [|]; [apply IH|].
    apply keeps_bind; [apply keeps_lift|]. intros [|]; [apply IH|].
    apply keeps_ret.
Qed.

Section TraversalKeeps.

Variable RegExp_test : string -> string -> option bool.

Lemma tryObjectTraversal_keeps fuel token schema :
  keeps (Pointer.tryObjectTraversal RegExp_test fuel token schema).
Proof.
  unfold Pointer.tryObjectTraversal.
  apply keeps_bind; [apply keeps_lift|]. intros [|]; [apply keeps_ret|].
  destruct (if truthy _ then _ else None); [apply keeps_ret|].
  apply keeps_bind.
  - destruct (truthy _); [|apply keeps_ret].
    apply keeps_bind; [apply resolveSchema_keeps | intros; apply keeps_lift].
  - intros [|]; [apply keeps_ret|].
    destruct (isFalse _); [apply keeps_ret|].
    destruct (typeofObject _); [apply keeps_ret|].
    destruct (_ && _); apply keeps_ret.
Qed.

Lemma firstTruthy_keeps attempt types :
  (forall t, keeps (attempt t)) -> keeps (Pointer.firstTruthy attempt types).
Proof.
  intros H. induction types as [|t rest IH]; [apply keeps_ret|].
  cbn [Pointer.firstTruthy]. apply keeps_bind; [apply H|].
  intros r. destruct (truthy r); [apply keeps_ret | apply IH].
Qed.

Lemma getNextSchema_keeps fuel token schema :
  keeps (Pointer.getNextSchema RegExp_test fuel token schema).
Proof.
  revert schema. induction fuel as [|fuel IH]; intros schema.
  - intros ctx r ctx' H. discriminate H.
  - cbn [Pointer.getNextSchema]. apply keeps_bind.
    { destruct (_ || _ || _ || _); [apply tryObjectTraversal_keeps | apply keeps_ret]. }
    intros o. destruct (truthy o); [apply keeps_ret|].
    apply keeps_bind.
    { destruct (_ || _ || _); [apply keeps_lift | apply keeps_ret]. }
    intros a. destruct (truthy a); [apply keeps_ret|].
    destruct (get schema "type"); try apply keeps_ret.
    destruct (_ <? _); [|apply keeps_ret].
    apply firstTruthy_keeps. intros t. apply IH.
Qed.

Lemma validateTokens_keeps fuel tokens schema :
  keeps (Pointer.validateTokens RegExp_test fuel tokens schema).
Proof.
  revert schema. induction tokens as [|token rest IH]; intros schema.
  - apply keeps_ret.
  - cbn [Pointer.validateTokens]. apply keeps_bind; [apply resolveSchema_keeps|].
    intros s. destruct (negb (truthy s)); [apply keeps_ret|].
    destruct (_ || _); [apply keeps_ret|].
    apply keeps_bind; [apply getNextSchema_keeps|].
    intros n. destruct (negb (truthy n)); [apply keeps_ret | apply IH].
Qed.

End TraversalKeeps.

(** X1: a call of [resolveSchema] (of either validator) or of
    [validateTokens] that returns leaves the root, the definitions and the
    anchors of the context as they were, and takes no reference out of the
    guard set that was in it before the call: the set can only have
    grown. *)
Theorem X1_context_only_gains_guards re fuel (schema : JS) (tokens : list string)
    (ctx ctx' : SchemaContext) :
  (exists resolved, Pointer.resolveSchema fuel schema ctx = Ret (resolved, ctx')) \/
  (exists resolved, Patch.resolveSchema fuel schema ctx = Ret (resolved, ctx')) \/
  (exists ok, Pointer.validateTokens re fuel tokens schema ctx = Ret (ok, ctx')) ->
  root ctx' = root ctx /\ definitions ctx' = definitions ctx /\
  anchors ctx' = anchors ctx /\ visited ctx ⊆ visited ctx'.
Proof.
  intros [[r H]|[[r H]|[ok H]]].
  - exact (resolveSchema_keeps fuel schema ctx r ctx' H).
  - exact (patch_resolveSchema_keeps fuel schema ctx r ctx' H).
  - exact (validateTokens_keeps re fuel tokens schema ctx ok ctx' H).
Qed.

(** The theorem at the resolution of [{ $ref: "#/$defs/A" }]: the
    reference has entered the guard set and nothing else has changed. *)
Lemma X1_context_only_gains_guards_witness :
  root (withVisited (fun v => v ∪ {["#/$defs/A"]}) (freshContext definesA))
  = root (freshContext definesA) /\
  definitions (withVisited (fun v => v ∪ {["#/$defs/A"]}) (freshContext definesA))
  = definitions (freshContext definesA) /\
  anchors (withVisited (fun v => v ∪ {["#/$defs/A"]}) (freshContext definesA))
  = anchors (freshContext definesA) /\
  visited (freshContext definesA)
  ⊆ visited (withVisited (fun v => v ∪ {["#/$defs/A"]}) (freshContext definesA)).
Proof.
  apply (X1_context_only_gains_guards wordRegExp 2 refersToA []
           (freshContext definesA)
           (withVisited (fun v => v ∪ {["#/$defs/A"]}) (freshContext definesA))).
  left. exists (JObj [("type", JStr "object")]). vm_compute. reflexivity.
Defined.

(** ** References *)

Lemma startsWith_fragment_path (ref : string) :
  Str.startsWith ref "#/" = true ->
  Str.startsWith ref "#" = true /\ Str.includes ref "/" = true.
Proof.
  unfold Str.startsWith.
  destruct ref as [|c [|d r]]; cbn [String.prefix Str.includes]; try (intros [=]; fail).
  - destruct (ascii_dec "#" c); intros [=].
  - destruct (ascii_dec "#" c); [|intros [=]].
    destruct (ascii_dec "/" d); [|intros [=]]. intros _. split; [reflexivity|].
    destruct (ascii_dec "/" c); [reflexivity|]. cbn [orb]. destruct r; reflexivity.
Qed.

Lemma startsWith_not_fragment (ref : string) :
  Str.startsWith ref "#" = false -> Str.startsWith ref "#/" = false.
Proof.
  intros H. destruct (Str.startsWith ref "#/") eqn:E; [|reflexivity].
  apply startsWith_fragment_path in E. destruct E as [E _]. congruence.
Qed.

(** A schema that resolves to itself. *)
Lemma resolveSchema_plain fuel (schema : JS) (ctx : SchemaContext) :
  truthy schema = true -> typeofObject schema = true ->
  uncomposed schema -> truthy (get schema "not") = false ->
  Pointer.resolveSchema (S fuel) schema ctx = Ret (schema, ctx).
Proof.
  intros Ht Ho [Href Hdyn Hall Hany Hone Hif] Hnot.
  cbn [Pointer.resolveSchema].
  replace (nullish schema) with false by (destruct schema; try discriminate; reflexivity).
  rewrite Href, Hdyn, Hall, Hany, Hone, Hnot, Hif. reflexivity.
Qed.

Lemma patch_resolveSchema_plain fuel (schema : JS) (ctx : SchemaContext) :
  truthy schema = true -> typeofObject schema = true ->
  uncomposed schema ->
  Patch.resolveSchema (S fuel) schema ctx = Ret (schema, ctx).
Proof.
  intros Ht Ho [Href Hdyn Hall Hany Hone Hif].
  cbn [Patch.resolveSchema].
  replace (nullish schema) with false by (destruct schema; try discriminate; reflexivity).
  rewrite Href, Hall, Hany, Hone. reflexivity.
Qed.

(** X2: a schema whose [$ref] is a pointer reference [#/...] that is not
    in the guard set, and whose segments lead from the root to an object
    without reference or composition keywords, resolves (in both
    validators) to exactly that object, unchanged; the keywords that the
    referring schema holds beside [$ref] are ignored, and the reference is
    in the guard set afterwards. *)
Theorem X2_reference_to_plain_node fuel (schema target : JS) (ref : string)
    (ctx : SchemaContext) :
  get schema "$ref" = JStr ref ->
  Str.startsWith ref "#/" = true ->
  ref ∉ visited ctx ->
  walk (root ctx) (Str.split "/" (Str.sliceFrom ref 2)) = target ->
  truthy target = true -> typeofObject target = true ->
  uncomposed target -> truthy (get target "not") = false ->
  Pointer.resolveSchema (S (S fuel)) schema ctx
  = Ret (target, withVisited (fun v => v ∪ {[ref]}) ctx) /\
  Patch.resolveSchema (S (S fuel)) schema ctx
  = Ret (target, withVisited (fun v => v ∪ {[ref]}) ctx).
Proof.
  intros Href Hpath Hnew Hwalk Ht Ho Hplain Hnot.
  destruct (startsWith_fragment_path ref Hpath) as [Hfrag Hslash].
  assert (Htruthy : truthy (get schema "$ref") = true).
  { rewrite Href. destruct ref; [discriminate Hpath | reflexivity]. }
  split.
  - rewrite resolveSchema_ref, Href by exact Htruthy.
    unfold Pointer.resolveRef.
    rewrite bool_decide_eq_false_2 by exact Hnew.
    rewrite Hfrag, Hslash, Hpath. cbn [negb andb].
    change (root (withVisited (fun v => v ∪ {[ref]}) ctx)) with (root ctx).
    rewrite Hwalk, Ht, Ho. cbn [andb].
    apply resolveSchema_plain; assumption.
  - destruct (truthy_keyword schema "$ref") as (kvs & v & -> & _ & _); auto.
    cbn [Patch.resolveSchema nullish]. rewrite Htruthy, Href.
    rewrite bool_decide_eq_false_2 by exact Hnew.
    change (root (withVisited (fun v => v ∪ {[ref]}) ctx)) with (root ctx).
    rewrite Hpath, Hwalk, Ht, Ho. cbn [andb].
    apply patch_resolveSchema_plain; assumption.
Qed.

Lemma X2_reference_to_plain_node_witness :
  Pointer.resolveSchema 2 refersToA (freshContext definesA)
  = Ret (JObj [("type", JStr "object")],
         withVisited (fun v => v ∪ {["#/$defs/A"]}) (freshContext definesA)) /\
  Patch.resolveSchema 2 refersToA (freshContext definesA)
  = Ret (JObj [("type", JStr "object")],
         withVisited (fun v => v ∪ {["#/$defs/A"]}) (freshContext definesA)).
Proof.
  apply (X2_reference_to_plain_node 0 refersToA (JObj [("type", JStr "object")])
           "#/$defs/A" (freshContext definesA));
    try reflexivity.
  - apply not_elem_of_empty.
  - split; reflexivity.
Defined.

Lemma withVisited_add_elem (ref : string) (ctx : SchemaContext) :
  ref ∈ visited ctx -> withVisited (fun v => v ∪ {[ref]}) ctx = ctx.
Proof.
  intros Hin. destruct ctx as [r d v a]. unfold withVisited. cbn in *. f_equal.
  apply set_eq. intros x. rewrite elem_of_union, elem_of_singleton.
  split; [intros [? | ->]; assumption | auto].
Qed.

Lemma withVisited_add_delete (ref : string) (ctx : SchemaContext) :
  ref ∉ visited ctx ->
  withVisited (fun v => v ∖ {[ref]}) (withVisited (fun v => v ∪ {[ref]}) ctx) = ctx.
Proof.
  intros Hnot. destruct ctx as [r d v a]. unfold withVisited. cbn in *. f_equal.
  apply set_eq. intros x.
  rewrite elem_of_difference, elem_of_union, elem_of_singleton.
  split; [intros [[? | ->] ?]; [assumption | contradiction] |].
  intros Hx. split; [auto | intros ->; contradiction].
Qed.

(** X3: a reference that cannot be followed resolves to the empty schema
    [{}], so that every pointer below it is valid.  This holds of a
    reference that does not start with [#] (a URL or a relative file); of
    a pointer reference [#/...] whose segments, read from objects that
    hold them or else are not names of inherited members, do not lead to
    an object; and of a reference that starts with [#] but not with [#/]
    when it contains a [/] or no anchor of its name was collected.  The
    guard set is as before the call, except for a reference that neither
    starts with [#] nor contains [://], which stays in it. *)
Theorem X3_unresolved_reference_is_permissive re fuel (schema : JS) (ref : string)
    (ctx : SchemaContext) (tokens : list string) :
  get schema "$ref" = JStr ref -> ref <> "" ->
  (Str.startsWith ref "#" = false \/
   (Str.startsWith ref "#/" = true /\
    readsOwn (root ctx) (Str.split "/" (Str.sliceFrom ref 2)) = true /\
    let target := walk (root ctx) (Str.split "/" (Str.sliceFrom ref 2)) in
    truthy target && typeofObject target = false) \/
   (Str.startsWith ref "#" = true /\ Str.startsWith ref "#/" = false /\
    (Str.includes ref "/" = true \/ anchors ctx !! Str.sliceFrom ref 1 = None))) ->
  Pointer.resolveSchema (S fuel) schema ctx
  = Ret (emptySchema,
         if Str.startsWith ref "#" || Str.includes ref "://" then ctx
         else withVisited (fun v => v ∪ {[ref]}) ctx) /\
  exists ctx', Pointer.validateTokens re (S fuel) tokens schema ctx = Ret (true, ctx').
Proof.
  intros Href Hne Hcase.
  assert (Htruthy : truthy (get schema "$ref") = true).
  { rewrite Href. destruct ref; [congruence | reflexivity]. }
  assert (Hres : Pointer.resolveSchema (S fuel) schema ctx
                 = Ret (emptySchema,
                        if Str.startsWith ref "#" || Str.includes ref "://" then ctx
                        else withVisited (fun v => v ∪ {[ref]}) ctx)).
  { rewrite resolveSchema_ref, Href by exact Htruthy. unfold Pointer.resolveRef.
    destruct (bool_decide (ref ∈ visited ctx)) eqn:Hin.
    { apply bool_decide_eq_true_1 in Hin. rewrite withVisited_add_elem by exact Hin.
      destruct (_ || _); reflexivity. }
    apply bool_decide_eq_false_1 in Hin.
    change (root (withVisited (fun v => v ∪ {[ref]}) ctx)) with (root ctx).
    change (anchors (withVisited (fun v => v ∪ {[ref]}) ctx)) with (anchors ctx).
    destruct Hcase as [Hext|[(Hpath & _ & Hwalk)|(Hfrag & Hpath & Hanchor)]].
    - rewrite Hext, (startsWith_not_fragment ref Hext). cbn [andb negb orb].
      destruct (Str.includes ref "://"); cbn [negb];
        [rewrite withVisited_add_delete by exact Hin|]; reflexivity.
    - destruct (startsWith_fragment_path ref Hpath) as [Hfrag Hslash].
      cbv zeta in Hwalk. rewrite Hfrag, Hslash, Hpath. cbn [andb negb orb].
      rewrite Hwalk. cbn [andb]. rewrite withVisited_add_delete by exact Hin. reflexivity.
    - rewrite Hfrag, Hpath. cbn [andb negb orb].
      rewrite withVisited_add_delete by exact Hin.
      destruct Hanchor as [-> | ->]; [reflexivity|].
      rewrite andb_false_r. reflexivity. }
  split; [exact Hres|].
  destruct tokens as [|token rest]; [eexists; reflexivity|].
  cbn [Pointer.validateTokens]. unfold bind at 1. rewrite Hres. cbn [obind fst snd].
  change (truthy emptySchema) with true. cbn [negb].
  change (defined (get emptySchema "const") || defined (get emptySchema "enum")) with false.
  cbv iota. unfold bind at 1. rewrite getNextSchema_empty. cbn [obind fst snd].
  change (truthy emptySchema) with true. cbn [negb].
  rewrite validateTokens_empty. eauto.
Qed.

(** The theorem at a relative reference, and at a pointer reference to
    a definition that the root does not hold. *)
Lemma X3_unresolved_reference_is_permissive_witness :
  (Pointer.resolveSchema 1 (JObj [("$ref", JStr "other.json#/a")]) (freshContext definesA)
   = Ret (emptySchema,
          withVisited (fun v => v ∪ {["other.json#/a"]}) (freshContext definesA)) /\
   exists ctx', Pointer.validateTokens wordRegExp 1 ["x"; "y"]
                  (JObj [("$ref", JStr "other.json#/a")]) (freshContext definesA)
                = Ret (true, ctx')) /\
  (Pointer.resolveSchema 1 missingDefinition (freshContext definesA)
   = Ret (emptySchema, freshContext definesA) /\
   exists ctx', Pointer.validateTokens wordRegExp 1 ["x"; "y"] missingDefinition
                  (freshContext definesA)
                = Ret (true, ctx')).
Proof.
  split.
  - apply (X3_unresolved_reference_is_permissive wordRegExp 0
             (JObj [("$ref", JStr "other.json#/a")]) "other.json#/a"
             (freshContext definesA) ["x"; "y"]);
      [reflexivity | discriminate | left; reflexivity].
  - apply (X3_unresolved_reference_is_permissive wordRegExp 0
             missingDefinition "#/$defs/B" (freshContext definesA) ["x"; "y"]);
      [reflexivity | discriminate | right; left; repeat split; reflexivity].
Defined.

(** ** Pointers below open objects and below values without members *)

Lemma split_cons (sep : ascii) (s : string) :
  exists piece pieces, Str.split sep s = piece :: pieces.
Proof.
  induction s as [|c r IH]; cbn [Str.split]; [eauto|].
  destruct (Ascii.eqb c sep); [eauto|].
  destruct IH as (h & t & ->). eauto.
Qed.

Lemma parseTokens_cons (pointer : string) :
  exists token rest, Pointer.parseTokens pointer = token :: rest.
Proof.
  unfold Pointer.parseTokens.
  destruct (split_cons "/" (Str.sliceFrom pointer 1)) as (h & t & ->).
  cbn [map]. eauto.
Qed.

(** [validateJSONPointer] on a pointer with segments is [validateTokens]
    from the context that it builds. *)
Lemma validateJSONPointer_tokens re fuel (pointer : string) (kvs : list (string * JS)) :
  Str.startsWith pointer "/" = true -> pointer <> "/" ->
  exists ctx,
    Pointer.validateJSONPointer re fuel pointer (JObj kvs)
    = let* r := Pointer.validateTokens re fuel (Pointer.parseTokens pointer) (JObj kvs) ctx in
      Ret (fst r).
Proof.
  intros Hstart Hroot. unfold Pointer.validateJSONPointer.
  replace (String.eqb pointer "") with false
    by (destruct pointer; [discriminate Hstart | reflexivity]).
  replace (String.eqb pointer "/") with false
    by (symmetry; apply String.eqb_neq; exact Hroot).
  rewrite Hstart. cbn [orb negb nullish]. eauto.
Qed.

Section Open.

Variable RegExp_test : string -> string -> option bool.

Lemma getNextSchema_undeclared_open fuel token (schema : JS) (ctx : SchemaContext) :
  (truthy (get schema "type") = false \/
   includesStr (typeList (get schema "type")) "object" = true) ->
  truthy (get schema "patternProperties") = false ->
  truthy (get schema "propertyNames") = false ->
  (get schema "additionalProperties" = JUndef \/
   get schema "additionalProperties" = JBool true) ->
  truthy (get schema "dependentSchemas") = false ->
  undeclared token schema ->
  Pointer.getNextSchema RegExp_test (S fuel) token schema ctx = Ret (emptySchema, ctx).
Proof.
  intros Hty Hpp Hnames Hap Hdep Hund.
  cbn [Pointer.getNextSchema].
  replace (includesStr (typeList (get schema "type")) "object"
           || truthy (get schema "properties")
           || truthy (get schema "patternProperties")
           || negb (truthy (get schema "type"))) with true.
  2:{ destruct Hty as [-> | ->]; [rewrite !orb_true_r|]; reflexivity. }
  assert (Hobj : Pointer.tryObjectTraversal RegExp_test fuel token schema ctx
                 = Ret (emptySchema, ctx)).
  { unfold Pointer.tryObjectTraversal. rewrite Hpp, Hnames, Hdep.
    assert (Hdecl : (if truthy (get schema "properties")
                     then hasProperty token (get schema "properties")
                     else Ret false) = Ret false).
    { destruct Hund as [-> | (props & -> & Hown)]; [reflexivity|].
      cbn [truthy hasProperty]. rewrite Hown. reflexivity. }
    rewrite Hdecl. unfold bind, lift, ret. cbn [obind fst snd andb].
    destruct Hap as [-> | ->]; reflexivity. }
  unfold bind at 1. rewrite Hobj. reflexivity.
Qed.

End Open.

(** X4: below an open object (no composition keyword, no [const] or
    [enum], [type] absent or allowing ["object"], no [patternProperties],
    [propertyNames] or [dependentSchemas], [additionalProperties] absent or
    [true]) every pointer whose first token is not declared under
    [properties] is valid, however many tokens follow. *)
Theorem X4_undeclared_property_of_open_object re fuel (kvs : list (string * JS))
    (pointer token : string) (rest : list string) :
  openObject (JObj kvs) ->
  Str.startsWith pointer "/" = true -> pointer <> "/" ->
  Pointer.parseTokens pointer = token :: rest ->
  undeclared token (JObj kvs) ->
  Pointer.validateJSONPointer re (S fuel) pointer (JObj kvs) = Ret true.
Proof.
  intros [Hplain Hconst Henum Hty Hpp Hnames Hap Hdep] Hstart Hroot Htokens Hund.
  destruct (validateJSONPointer_tokens re (S fuel) pointer kvs Hstart Hroot) as [ctx ->].
  rewrite Htokens. cbn [Pointer.validateTokens].
  destruct (resolveSchema_uncomposed fuel kvs ctx Hplain) as (kvs' & Hres & Hsame).
  unfold bind at 1. rewrite Hres. cbn [obind fst snd truthy negb].
  rewrite !Hsame, Hconst, Henum by reflexivity. cbn [defined orb].
  unfold bind at 1.
  rewrite getNextSchema_undeclared_open;
    rewrite ?Hsame by reflexivity; try assumption.
  - cbn [obind fst snd]. change (truthy emptySchema) with true. cbn [negb].
    rewrite validateTokens_empty. reflexivity.
  - destruct Hund as [Hp | (props & Hp & Hown)]; [left | right; exists props];
      rewrite Hsame by reflexivity; auto.
Qed.

Lemma X4_undeclared_property_of_open_object_witness :
  Pointer.validateJSONPointer wordRegExp 1 "/address/street/0" personSchema = Ret true.
Proof.
  apply (X4_undeclared_property_of_open_object wordRegExp 0 _ "/address/street/0"
           "address" ["street"; "0"]).
  - split; try reflexivity; [split; reflexivity | right; reflexivity | left; reflexivity].
  - reflexivity.
  - discriminate.
  - reflexivity.
  - right. eexists. split; reflexivity.
Defined.

(** X5: no pointer other than the root is valid against a schema without
    reference or composition keywords that has [const] or [enum], or whose
    [type] is one name other than ["object"] and ["array"] while it has
    none of [properties], [patternProperties], [items] and [prefixItems]. *)
Theorem X5_nothing_below_a_leaf re fuel (kvs : list (string * JS)) (pointer : string) :
  uncomposed (JObj kvs) -> leaf (JObj kvs) ->
  Str.startsWith pointer "/" = true -> pointer <> "/" ->
  Pointer.validateJSONPointer re (S fuel) pointer (JObj kvs) = Ret false.
Proof.
  intros Hplain Hleaf Hstart Hroot.
  destruct (validateJSONPointer_tokens re (S fuel) pointer kvs Hstart Hroot) as [ctx ->].
  destruct (parseTokens_cons pointer) as (token & rest & ->).
  cbn [Pointer.validateTokens].
  destruct (resolveSchema_uncomposed fuel kvs ctx Hplain) as (kvs' & Hres & Hsame).
  unfold bind at 1. rewrite Hres. cbn [obind fst snd truthy negb].
  rewrite !Hsame by reflexivity.
  destruct Hleaf as [-> | [-> | ((t & Hty & Hne & Hobj & Harr) & Hp & Hpp & Hi & Hpre)]];
    [reflexivity | rewrite orb_true_r; reflexivity |].
  destruct (defined (get (JObj kvs) "const") || defined (get (JObj kvs) "enum"));
    [reflexivity|].
  cbn [Pointer.getNextSchema]. rewrite !Hsame by reflexivity.
  rewrite Hty, Hp, Hpp, Hi, Hpre. cbn [typeList includesStr existsb isStr].
  apply String.eqb_neq in Hobj, Harr. rewrite Hobj, Harr.
  replace (truthy (JStr t)) with true by (destruct t; [congruence | reflexivity]).
  reflexivity.
Qed.

Lemma X5_nothing_below_a_leaf_witness :
  Pointer.validateJSONPointer wordRegExp 1 "/length" (JObj [("type", JStr "string")])
  = Ret false.
Proof.
  apply (X5_nothing_below_a_leaf wordRegExp 0 [("type", JStr "string")] "/length").
  - split; reflexivity.
  - right. right. split; [|repeat split; reflexivity].
    exists "string". split; [reflexivity|]. repeat split; discriminate.
  - reflexivity.
  - discriminate.
Defined.

(** ** The last segment of a path *)

Lemma prefix_empty (s : string) : String.prefix "" s = true.
Proof. destruct s; reflexivity. Qed.

Lemma includes_char (c d : ascii) (r : string) :
  Str.includes (String c r) (String d "")
  = Ascii.eqb c d || Str.includes r (String d "").
Proof.
  cbn [Str.includes String.prefix]. rewrite prefix_empty.
  destruct (ascii_dec d c) as [->|Hne].
  - rewrite Ascii.eqb_refl. reflexivity.
  - replace (Ascii.eqb c d) with false; [reflexivity|].
    symmetry. apply Ascii.eqb_neq. congruence.
Qed.

Lemma len_nonneg (s : string) : 0 <= Str.len s.
Proof. unfold Str.len. lia. Qed.

Lemma len_cons (c : ascii) (s : string) : Str.len (String c s) = Str.len s + 1.
Proof. unfold Str.len. cbn [String.length]. lia. Qed.

Lemma append_cons (c : ascii) (a b : string) : (String c a ++ b = String c (a ++ b))%string.
Proof. reflexivity. Qed.

Lemma append_nil (b : string) : ("" ++ b = b)%string.
Proof. reflexivity. Qed.

Lemma len_app (a b : string) : Str.len (a ++ b) = Str.len a + Str.len b.
Proof.
  induction a as [|c a IH]; [reflexivity|].
  rewrite append_cons, !len_cons, IH. lia.
Qed.

Lemma lastIndexOf_from_app (c : ascii) (a b : string) (i acc : Z) :
  Str.lastIndexOf_from c (a ++ b) i acc
  = Str.lastIndexOf_from c b (i + Str.len a) (Str.lastIndexOf_from c a i acc).
Proof.
  revert i acc. induction a as [|d a IH]; intros i acc.
  - rewrite append_nil. cbn [Str.lastIndexOf_from]. f_equal. unfold Str.len. cbn. lia.
  - rewrite append_cons. cbn [Str.lastIndexOf_from]. rewrite IH, len_cons. f_equal. lia.
Qed.

Lemma lastIndexOf_from_absent (c : ascii) (s : string) (i acc : Z) :
  Str.includes s (String c "") = false -> Str.lastIndexOf_from c s i acc = acc.
Proof.
  revert i. induction s as [|d s IH]; intros i Habs; [reflexivity|].
  rewrite includes_char in Habs. apply orb_false_elim in Habs as [Hd Hs].
  cbn [Str.lastIndexOf_from]. rewrite Hd. apply IH, Hs.
Qed.

(** The last [/] of [parent/name] stands right after [parent]. *)
Lemma lastIndexOf_last_segment (parent name : string) :
  Str.includes name "/" = false ->
  Str.lastIndexOf "/" (parent ++ "/" ++ name) = Str.len parent.
Proof.
  intros Habs. unfold Str.lastIndexOf. rewrite lastIndexOf_from_app.
  rewrite append_cons, append_nil. cbn [Str.lastIndexOf_from]. rewrite Ascii.eqb_refl.
  rewrite lastIndexOf_from_absent by exact Habs. lia.
Qed.

Lemma substring_prefix (a r : string) :
  String.substring 0 (String.length a) (a ++ r) = a.
Proof.
  induction a as [|c a IH]; rewrite ?append_cons, ?append_nil;
    cbn [String.length String.substring].
  - destruct r; reflexivity.
  - rewrite IH. reflexivity.
Qed.

Lemma substring_all (s : string) : String.substring 0 (String.length s) s = s.
Proof.
  induction s as [|c s IH]; cbn [String.length String.substring]; [reflexivity|].
  rewrite IH. reflexivity.
Qed.

Lemma substring_suffix (a b : string) (n : nat) :
  String.substring (String.length a) n (a ++ b) = String.substring 0 n b.
Proof.
  induction a as [|c a IH]; [reflexivity|].
  rewrite append_cons. cbn [String.length String.substring]. exact IH.
Qed.

Lemma slice_prefix (a r : string) : Str.slice (a ++ r) 0 (Str.len a) = a.
Proof.
  unfold Str.slice. cbv zeta. rewrite len_app.
  pose proof (len_nonneg a). pose proof (len_nonneg r).
  change (0 <? 0) with false. cbv iota.
  replace (Str.len a <? 0) with false by (symmetry; apply Z.ltb_ge; lia).
  replace (Z.min 0 (Str.len a + Str.len r)) with 0 by lia.
  replace (Z.min (Str.len a) (Str.len a + Str.len r)) with (Str.len a) by lia.
  replace (Z.max (Str.len a - 0) 0) with (Str.len a) by lia.
  unfold Str.len. rewrite Nat2Z.id. apply substring_prefix.
Qed.

Lemma sliceFrom_suffix (a b : string) : Str.sliceFrom (a ++ b) (Str.len a) = b.
Proof.
  unfold Str.sliceFrom, Str.slice. cbv zeta. rewrite len_app.
  pose proof (len_nonneg a). pose proof (len_nonneg b).
  replace (Str.len a <? 0) with false by (symmetry; apply Z.ltb_ge; lia).
  replace (Str.len a + Str.len b <? 0) with false by (symmetry; apply Z.ltb_ge; lia).
  replace (Z.min (Str.len a) (Str.len a + Str.len b)) with (Str.len a) by lia.
  replace (Z.min (Str.len a + Str.len b) (Str.len a + Str.len b))
    with (Str.len a + Str.len b) by lia.
  replace (Z.max (Str.len a + Str.len b - Str.len a) 0) with (Str.len b) by lia.
  unfold Str.len. rewrite !Nat2Z.id, substring_suffix. apply substring_all.
Qed.

Lemma append_assoc (a b c : string) : ((a ++ b) ++ c = a ++ b ++ c)%string.
Proof.
  induction a as [|x a IH]; [reflexivity|]. rewrite !append_cons, IH. reflexivity.
Qed.

Lemma slice_parent (parent name : string) :
  Str.slice (parent ++ "/" ++ name) 0 (Str.len parent) = parent.
Proof. apply slice_prefix. Qed.

Lemma sliceFrom_name (parent name : string) :
  Str.sliceFrom (parent ++ "/" ++ name) (Str.len parent + 1) = name.
Proof.
  rewrite <- (append_assoc parent "/" name).
  replace (Str.len parent + 1) with (Str.len (parent ++ "/"))
    by (rewrite len_app; reflexivity).
  apply sliceFrom_suffix.
Qed.

Lemma len_zero (s : string) : (Str.len s =? 0) = String.eqb s "".
Proof. destruct s; [reflexivity|]. rewrite len_cons. pose proof (len_nonneg s).
  cbn [String.eqb]. apply Z.eqb_neq. lia. Qed.

Lemma path_not_empty (parent name : string) :
  String.eqb (parent ++ "/" ++ name) "" = false.
Proof. destruct parent; reflexivity. Qed.

Lemma path_not_root (parent name : string) :
  name <> "" -> String.eqb (parent ++ "/" ++ name) "/" = false.
Proof.
  intros Hne. apply String.eqb_neq. intros Heq.
  assert (Hlen : Str.len (parent ++ "/" ++ name) = 1) by (rewrite Heq; reflexivity).
  rewrite !len_app in Hlen. change (Str.len "/") with 1 in Hlen.
  pose proof (len_nonneg parent).
  destruct name; [congruence|]. rewrite len_cons in Hlen. pose proof (len_nonneg name). lia.
Qed.

(** ** Decimal numerals *)

Lemma includes_uint (d : Decimal.uint) :
  Str.includes (NilEmpty.string_of_uint d) "/" = false.
Proof.
  induction d; cbn [NilEmpty.string_of_uint]; [reflexivity | ..];
    rewrite includes_char, IHd; reflexivity.
Qed.

Lemma string_of_uint_nonnil (d : Decimal.uint) :
  d <> Decimal.Nil -> NilZero.string_of_uint d = NilEmpty.string_of_uint d.
Proof. destruct d; [congruence | reflexivity ..]. Qed.

Lemma toString_neg (p : positive) :
  Str.toString (Z.neg p) = String "-" (NilEmpty.string_of_uint (Pos.to_uint p)).
Proof.
  unfold Str.toString. cbn [Z.to_int NilZero.string_of_int].
  rewrite string_of_uint_nonnil by apply Unsigned.to_uint_nonnil. reflexivity.
Qed.

Lemma toString_pos (p : positive) :
  Str.toString (Z.pos p) = NilEmpty.string_of_uint (Pos.to_uint p).
Proof.
  unfold Str.toString. cbn [Z.to_int NilZero.string_of_int].
  apply string_of_uint_nonnil, Unsigned.to_uint_nonnil.
Qed.

Lemma includes_toString (n : Z) : Str.includes (Str.toString n) "/" = false.
Proof.
  destruct n as [|p|p]; [reflexivity | |].
  - rewrite toString_pos. apply includes_uint.
  - rewrite toString_neg, includes_char, includes_uint. reflexivity.
Qed.

Lemma toString_not_empty (n : Z) : Str.toString n <> "".
Proof.
  destruct n as [|p|p]; [discriminate | | rewrite toString_neg; discriminate].
  rewrite toString_pos. pose proof (Unsigned.to_uint_nonnil p) as Hnil.
  destruct (Pos.to_uint p); [congruence | discriminate ..].
Qed.

(** [parseInt] reads a negative numeral too. *)
Lemma canonicalInt_toString_signed (n : Z) : Str.canonicalInt (Str.toString n) = Some n.
Proof.
  destruct n as [|p|p]; [reflexivity | apply canonicalInt_toString; lia |].
  unfold Str.canonicalInt.
  assert (Hparse : Str.parseInt (Str.toString (Z.neg p)) = Some (Z.neg p)).
  { rewrite toString_neg. unfold Str.parseInt. cbn [Str.trimStart].
    change (Str.isWhite "-") with false. cbv iota.
    rewrite digits_of_uint by (apply Unsigned.to_uint_nonnil || reflexivity).
    rewrite Unsigned.of_to. reflexivity. }
  rewrite Hparse, String.eqb_refl. reflexivity.
Qed.

(** ** The target of an addition *)

Section LastSegment.

Variable RegExp_test : string -> string -> option bool.
Variable fuel : nat.
Variable schema : JS.

(** When the last segment of the path is [-] or a canonical integer,
    [validateAddPath] looks at the parent only. *)
Lemma validateAddPath_last (parent target : string) :
  Str.includes target "/" = false -> target <> "" ->
  String.eqb target "-" = true \/ is_Some (Str.canonicalInt target) ->
  Patch.validateAddPath RegExp_test fuel (parent ++ "/" ++ target) schema
  = if String.eqb parent "" then Ret None
    else let* ok := Pointer.validateJSONPointer RegExp_test fuel parent schema in
         Ret (if ok then None else Some (Patch.notValid "Parent path" parent)).
Proof.
  intros Habs Hne Hkind. unfold Patch.validateAddPath.
  rewrite path_not_empty, path_not_root by exact Hne. cbn [orb].
  rewrite lastIndexOf_last_segment by exact Habs.
  rewrite slice_parent, sliceFrom_name, len_zero.
  replace (String.eqb target "") with false by (symmetry; apply String.eqb_neq; exact Hne).
  rewrite andb_false_r.
  assert (Hend : (if String.eqb target "-" then Ret None
                  else match Str.canonicalInt target with
                       | Some _ => Ret None
                       | None =>
                           let* ok := Pointer.validateJSONPointer RegExp_test fuel
                                        (parent ++ "/" ++ target) schema in
                           if ok then Ret None else Ret (Some (Patch.notValid "Path"
                                                          (parent ++ "/" ++ target)))
                       end) = Ret (None : option string)).
  { destruct Hkind as [-> | [i ->]]; [reflexivity|].
    destruct (String.eqb target "-"); reflexivity. }
  destruct (String.eqb parent "") eqn:Hparent.
  - change (Pointer.validateJSONPointer RegExp_test fuel "/" schema) with (Ret true).
    cbn [obind negb]. exact Hend.
  - destruct (Pointer.validateJSONPointer RegExp_test fuel parent schema) as [[|]| | |];
      cbn [obind negb]; try reflexivity. exact Hend.
Qed.

End LastSegment.

(** X6: for the target of an addition whose last segment is the decimal
    of an integer [n] (one that a JavaScript number holds exactly),
    [validateAddPath] answers what it answers for the append marker [-] in
    its place, namely whether the parent pointer is valid (and always that
    the target is valid for a parent at the root).  The index is not
    compared with the schema: a negative index and an index at or beyond
    [maxItems] are accepted like any other. *)
Theorem X6_add_checks_the_parent_only re fuel (schema : JS) (parent : string) (n : Z) :
  safeInteger n ->
  Patch.validateAddPath re fuel (parent ++ "/" ++ Str.toString n) schema
  = Patch.validateAddPath re fuel (parent ++ "/-") schema /\
  Patch.validateAddPath re fuel (parent ++ "/-") schema
  = if String.eqb parent "" then Ret None
    else let* ok := Pointer.validateJSONPointer re fuel parent schema in
         Ret (if ok then None else Some (Patch.notValid "Parent path" parent)).
Proof.
  intros _.
  assert (Hdash : Patch.validateAddPath re fuel (parent ++ "/" ++ "-") schema
                  = if String.eqb parent "" then Ret None
                    else let* ok := Pointer.validateJSONPointer re fuel parent schema in
                         Ret (if ok then None
                              else Some (Patch.notValid "Parent path" parent))).
  { apply validateAddPath_last; [reflexivity | discriminate | left; reflexivity]. }
  change ("/" ++ "-")%string with "/-" in Hdash.
  split; [|exact Hdash]. rewrite Hdash.
  apply validateAddPath_last.
  - apply includes_toString.
  - apply toString_not_empty.
  - right. rewrite canonicalInt_toString_signed. eauto.
Qed.

(** The theorem at [/7] and at [/-1] against [{ type: "array", maxItems: 3 }]:
    both are accepted as targets of an addition. *)
Lemma X6_add_checks_the_parent_only_witness :
  (Patch.validateAddPath wordRegExp 1 ("" ++ "/" ++ Str.toString 7) (JObj upToThree)
   = Patch.validateAddPath wordRegExp 1 ("" ++ "/-") (JObj upToThree) /\
   Patch.validateAddPath wordRegExp 1 ("" ++ "/-") (JObj upToThree)
   = if String.eqb "" "" then Ret None
     else let* ok := Pointer.validateJSONPointer wordRegExp 1 "" (JObj upToThree) in
          Ret (if ok then None else Some (Patch.notValid "Parent path" ""))) /\
  Patch.validateAddPath wordRegExp 1 "/-1" (JObj upToThree) = Ret None.
Proof.
  split; [|reflexivity].
  apply (X6_add_checks_the_parent_only wordRegExp 1 (JObj upToThree) "" 7).
  unfold safeInteger. lia.
Defined.

(** ** Required properties below the root *)

(** X7: one level or more below the root the required-property check
    does fire.  When [getSchemaAtPath] finds a schema for the parent
    pointer and that schema lists names under [required],
    [checkRequiredProperty] returns the message for [parent/name] exactly
    when [name] is listed, and a patch that removes a listed name is
    invalid and carries the message under index 0. *)
Theorem X7_required_property_below_root re fuel (schema parentSchema operation : JS)
    (parent name : string) (names : list JS) (ok : bool) :
  parent <> "" -> Str.includes name "/" = false ->
  Patch.getSchemaAtPath re fuel parent schema = Ret parentSchema ->
  get parentSchema "required" = JArr names ->
  Pointer.validateJSONPointer re fuel (parent ++ "/" ++ name) schema = Ret ok ->
  get operation "op" = JStr "remove" ->
  get operation "path" = JStr (parent ++ "/" ++ name) ->
  Patch.checkRequiredProperty re fuel (parent ++ "/" ++ name) schema
  = Ret (if includesStr names name then Some (cannotRemove name) else None) /\
  (includesStr names name = true ->
   exists result,
     Patch.validateJSONPatch re fuel (JArr [operation]) schema = Ret result /\
     Patch.valid result = false /\
     In (Patch.fail 0 (cannotRemove name)) (Patch.errors result)).
Proof.
  intros Hparent Habs Hat Hreq Hok Hop Hpath.
  assert (Hcheck : Patch.checkRequiredProperty re fuel (parent ++ "/" ++ name) schema
                   = Ret (if includesStr names name then Some (cannotRemove name)
                          else None)).
  { unfold Patch.checkRequiredProperty.
    rewrite lastIndexOf_last_segment by exact Habs.
    assert (Hpos : 0 < Str.len parent).
    { destruct parent; [congruence|]. rewrite len_cons. pose proof (len_nonneg parent). lia. }
    replace (Str.len parent <=? 0) with false by (symmetry; apply Z.leb_gt; exact Hpos).
    replace (Str.len parent =? 0) with false by (symmetry; apply Z.eqb_neq; lia).
    rewrite slice_parent, sliceFrom_name, Hat. cbn [obind].
    destruct (truthy_keyword parentSchema "required") as (kvs & v & -> & _ & _);
      [reflexivity | reflexivity | rewrite Hreq; reflexivity |].
    rewrite Hreq. cbn [truthy negb obind].
    destruct (includesStr names name); reflexivity. }
  split; [exact Hcheck|]. intros Hlisted. rewrite Hlisted in Hcheck.
  destruct (truthy_keyword operation "op") as (kvs & v & -> & _ & _);
    [reflexivity | reflexivity | rewrite Hop; reflexivity |].
  cbn [Patch.validateJSONPatch Patch.validateOperations].
  unfold Patch.validateOperation. cbn [truthy typeofObject negb orb]. rewrite Hop.
  cbn [truthy negb existsb Patch.validOps isStr String.eqb Ascii.eqb Bool.eqb orb].
  cbv iota. unfold Patch.validateRemove. rewrite Hpath.
  replace (truthy (JStr (parent ++ "/" ++ name))) with true
    by (destruct parent; [congruence | reflexivity]).
  cbn [negb]. rewrite Hok, Hcheck. cbn [obind Patch.optionalError].
  eexists. split; [reflexivity|]. cbn [Patch.valid Patch.errors]. split.
  - destruct ok; reflexivity.
  - rewrite app_nil_r. apply in_or_app. right. left. reflexivity.
Qed.

(** The theorem at the removal of [/a/name] where [a] requires [name]. *)
Lemma X7_required_property_below_root_witness :
  Patch.checkRequiredProperty wordRegExp 1 "/a/name" nestedRequiredSchema
  = Ret (Some (cannotRemove "name")) /\
  exists result,
    Patch.validateJSONPatch wordRegExp 1 (JArr [removeNestedName]) nestedRequiredSchema
    = Ret result /\
    Patch.valid result = false /\
    In (Patch.fail 0 (cannotRemove "name")) (Patch.errors result).
Proof.
  destruct (X7_required_property_below_root wordRegExp 1 nestedRequiredSchema
              requiredNameSchema removeNestedName "/a" "name" [JStr "name"] true)
    as [Hcheck Hpatch]; try reflexivity; try discriminate.
  split; [exact Hcheck | apply Hpatch; reflexivity].
Defined.

(** ** The index of an operation *)

Section Index.

Variable RegExp_test : string -> string -> option bool.
Variable fuel : nat.
Variable schema : JS.

Lemma retag_unlessValid i ok message :
  map (retag i) (Patch.unlessValid ok (Patch.fail 0 message))
  = Patch.unlessValid ok (Patch.fail i message).
Proof. destruct ok; reflexivity. Qed.

Lemma retag_optionalError i message :
  map (retag i) (Patch.optionalError 0 message) = Patch.optionalError i message.
Proof. destruct message; reflexivity. Qed.

Lemma withPathAndValue_index kind operation i
    (check check0 : string -> outcome (list Patch.ValidationError)) :
  (forall path, check path = let* es := check0 path in Ret (map (retag i) es)) ->
  Patch.withPathAndValue kind operation i check
  = let* es := Patch.withPathAndValue kind operation 0 check0 in Ret (map (retag i) es).
Proof.
  intros Hcheck. unfold Patch.withPathAndValue.
  destruct (negb (truthy (get operation "path"))); [reflexivity|].
  destruct (hasProperty "value" operation) as [[|]| | |]; cbn [obind negb]; try reflexivity.
  destruct (get operation "path"); try reflexivity. apply Hcheck.
Qed.

Lemma withFromAndPath_index kind operation i
    (check check0 : string -> string -> outcome (list Patch.ValidationError)) :
  (forall from path, check from path
                     = let* es := check0 from path in Ret (map (retag i) es)) ->
  Patch.withFromAndPath kind operation i check
  = let* es := Patch.withFromAndPath kind operation 0 check0 in Ret (map (retag i) es).
Proof.
  intros Hcheck. unfold Patch.withFromAndPath.
  destruct (truthy (get operation "from")), (truthy (get operation "path"));
    cbn [app]; try reflexivity.
  destruct (get operation "from"), (get operation "path"); try reflexivity.
  apply Hcheck.
Qed.

(** The index given to [validateOperation] is copied into the errors and
    decides nothing else. *)
Lemma validateOperation_index operation i :
  Patch.validateOperation RegExp_test fuel operation schema i
  = let* es := Patch.validateOperation RegExp_test fuel operation schema 0 in
    Ret (map (retag i) es).
Proof.
  unfold Patch.validateOperation.
  destruct (negb (truthy operation) || negb (typeofObject operation)); [reflexivity|].
  destruct (negb (truthy (get operation "op"))); [reflexivity|].
  destruct (negb (existsb (isStr (get operation "op")) Patch.validOps)).
  { destruct (toStr _); reflexivity. }
  destruct (isStr (get operation "op") "add").
  { apply withPathAndValue_index. intros path.
    destruct (Patch.validateAddPath _ _ _ _); cbn [obind]; try reflexivity.
    rewrite retag_optionalError. reflexivity. }
  destruct (isStr (get operation "op") "remove").
  { unfold Patch.validateRemove.
    destruct (negb (truthy (get operation "path"))); [reflexivity|].
    destruct (get operation "path"); try reflexivity.
    destruct (Pointer.validateJSONPointer _ _ _ _); cbn [obind]; try reflexivity.
    destruct (Patch.checkRequiredProperty _ _ _ _); cbn [obind]; try reflexivity.
    rewrite map_app, retag_unlessValid, retag_optionalError. reflexivity. }
  destruct (isStr (get operation "op") "replace").
  { apply withPathAndValue_index. intros path.
    destruct (Pointer.validateJSONPointer _ _ _ _); cbn [obind]; try reflexivity.
    rewrite retag_unlessValid. reflexivity. }
  destruct (isStr (get operation "op") "move").
  { apply withFromAndPath_index. intros from path.
    destruct (Pointer.validateJSONPointer _ _ _ _); cbn [obind]; try reflexivity.
    destruct (Patch.validateAddPath _ _ _ _); cbn [obind]; try reflexivity.
    destruct (Patch.checkRequiredProperty _ _ _ _); cbn [obind]; try reflexivity.
    rewrite !map_app, retag_unlessValid, !retag_optionalError.
    destruct (Str.startsWith _ _); reflexivity. }
  destruct (isStr (get operation "op") "copy").
  { apply withFromAndPath_index. intros from path.
    destruct (Pointer.validateJSONPointer _ _ _ _); cbn [obind]; try reflexivity.
    destruct (Patch.validateAddPath _ _ _ _); cbn [obind]; try reflexivity.
    rewrite map_app, retag_unlessValid, retag_optionalError. reflexivity. }
  destruct (isStr (get operation "op") "test").
  { apply withPathAndValue_index. intros path.
    destruct (Pointer.validateJSONPointer _ _ _ _); cbn [obind]; try reflexivity.
    rewrite retag_unlessValid. reflexivity. }
  reflexivity.
Qed.

Lemma validateOperation_clean operation i :
  Patch.validateOperation RegExp_test fuel operation schema i = Ret []
  <-> Patch.validateOperation RegExp_test fuel operation schema 0 = Ret [].
Proof.
  rewrite (validateOperation_index operation i).
  destruct (Patch.validateOperation RegExp_test fuel operation schema 0) as [es| | |];
    cbn [obind]; split; try discriminate; try (intros H; exact H).
  - destruct es; [reflexivity | discriminate].
  - intros [= ->]. reflexivity.
Qed.

Lemma validateOperations_clean operations i :
  Patch.validateOperations RegExp_test fuel operations schema i = Ret []
  <-> Forall (fun operation =>
                Patch.validateOperation RegExp_test fuel operation schema 0 = Ret [])
        operations.
Proof.
  revert i. induction operations as [|operation rest IH]; intros i.
  - split; [constructor | reflexivity].
  - cbn [Patch.validateOperations]. rewrite Forall_cons_iff, <- (IH (i + 1)).
    rewrite <- (validateOperation_clean operation i).
    destruct (Patch.validateOperation RegExp_test fuel operation schema i) as [es| | |];
      cbn [obind]; try (split; [discriminate | intros [H _]; discriminate H]).
    destruct (Patch.validateOperations RegExp_test fuel rest schema (i + 1)) as [later| | |];
      cbn [obind]; try (split; [discriminate | intros [_ H]; discriminate H]).
    split.
    + intros [= H]. apply app_eq_nil in H as [-> ->]. auto.
    + intros [[= ->] [= ->]]. reflexivity.
Qed.

Lemma accepts_operations operations :
  accepts RegExp_test fuel schema (JArr operations)
  <-> Patch.validateOperations RegExp_test fuel operations schema 0 = Ret [].
Proof.
  unfold accepts. cbn [Patch.validateJSONPatch]. split.
  - intros (result & Hres & Hvalid).
    destruct (Patch.validateOperations _ _ _ _ _) as [es| | |]; try discriminate Hres.
    cbn [obind] in Hres. injection Hres as <-. cbn [Patch.valid] in Hvalid.
    destruct es; [reflexivity | discriminate Hvalid].
  - intros ->. eexists. split; reflexivity.
Qed.

End Index.

(** X8: a batch is valid exactly when each of its operations is valid
    as a batch of its own: the index of an operation only labels its
    errors.  (agent.ts validates the operations one at a time.) *)
Theorem X8_batch_is_valid_iff_each_operation_is re fuel (schema : JS) (operations : list JS) :
  accepts re fuel schema (JArr operations)
  <-> Forall (fun operation => accepts re fuel schema (JArr [operation])) operations.
Proof.
  rewrite accepts_operations, validateOperations_clean.
  apply Forall_proper; [|reflexivity]. intros operation.
  rewrite accepts_operations, validateOperations_clean, Forall_singleton. reflexivity.
Qed.

(** ** What [mergeSchemas] does with [required], [properties] and the bounds *)

Lemma includes_string (xs : list JS) (s : string) :
  includes xs (JStr s) = Ret (includesStr xs s).
Proof.
  induction xs as [|x xs IH]; [reflexivity|].
  cbn [includes includesStr existsb]. unfold sameValueZero.
  cbn [isPrimitive negb andb obind]. rewrite IH.
  destruct x; cbn [primEqb isStr orb]; try reflexivity.
  destruct (String.eqb s0 s); reflexivity.
Qed.

Lemma includesStr_app (xs ys : list JS) (s : string) :
  includesStr (xs ++ ys) s = includesStr xs s || includesStr ys s.
Proof. apply existsb_app. Qed.

Lemma unique_includesStr (xs seen u : list JS) (name : string) :
  unique xs seen = Ret u ->
  includesStr u name = includesStr seen name || includesStr xs name.
Proof.
  revert seen. induction xs as [|x xs IH]; intros seen H.
  - injection H as <-. rewrite orb_false_r. reflexivity.
  - cbn [unique] in H.
    destruct (includes seen x) as [dup| | |] eqn:Hdup; try discriminate H.
    cbn [obind] in H. rewrite (IH _ H). cbn [includesStr existsb].
    fold (includesStr xs name). fold (includesStr seen name).
    destruct dup.
    + destruct (isStr x name) eqn:Hx; [|reflexivity].
      destruct x; try discriminate Hx. cbn [isStr] in Hx.
      apply String.eqb_eq in Hx. subst.
      rewrite includes_string in Hdup. injection Hdup as ->. reflexivity.
    + rewrite includesStr_app. cbn [includesStr existsb]. rewrite orb_false_r.
      rewrite orb_assoc. reflexivity.
Qed.

Lemma requiredOf_falsy (schema : JS) :
  truthy (get schema "required") = false -> requiredOf schema = Some [].
Proof.
  unfold requiredOf. intros H. destruct (get schema "required"); try reflexivity;
    try discriminate H; rewrite H; reflexivity.
Qed.

Lemma requiredOf_truthy (schema : JS) (names : list JS) :
  requiredOf schema = Some names -> truthy (get schema "required") = true ->
  get schema "required" = JArr names.
Proof.
  unfold requiredOf. intros H Ht.
  destruct (get schema "required"); try (rewrite Ht in H; discriminate H);
    try discriminate Ht. congruence.
Qed.

Lemma requiredOf_names (schema : JS) (names : list JS) :
  requiredOf schema = Some names ->
  iterate (if truthy (get schema "required") then get schema "required" else JArr [])
  = Ret names.
Proof.
  intros H. destruct (truthy (get schema "required")) eqn:Ht.
  - rewrite (requiredOf_truthy schema names H Ht). reflexivity.
  - rewrite (requiredOf_falsy schema Ht) in H. injection H as <-. reflexivity.
Qed.

(** After [mergeRequired] the list holds the names of both operands. *)
Lemma mergeRequired_union (kvs1 kvs2 base merged : list (string * JS)) (r1 r2 : list JS) :
  own base "required" = own (spread (spread [] (JObj kvs1)) (JObj kvs2)) "required" ->
  requiredOf (JObj kvs1) = Some r1 -> requiredOf (JObj kvs2) = Some r2 ->
  mergeRequired (JObj kvs1) (JObj kvs2) base = Ret merged ->
  exists names,
    requiredOf (JObj merged) = Some names /\
    forall name, includesStr names name = includesStr r1 name || includesStr r2 name.
Proof.
  intros Hbase H1 H2 Hm. unfold mergeRequired in Hm.
  destruct (truthy (get (JObj kvs1) "required") || truthy (get (JObj kvs2) "required"))
    eqn:Hany.
  - rewrite (requiredOf_names _ _ H1), (requiredOf_names _ _ H2) in Hm.
    cbn [obind] in Hm.
    destruct (unique (r1 ++ r2) []) as [u| | |] eqn:Hu; try discriminate Hm.
    cbn [obind] in Hm. injection Hm as <-. exists u. split.
    + unfold requiredOf. cbn [get]. rewrite own_setProp, String.eqb_refl. reflexivity.
    + intros name. rewrite (unique_includesStr _ _ _ name Hu), includesStr_app. reflexivity.
  - injection Hm as <-. apply orb_false_elim in Hany as [Hf1 Hf2].
    rewrite (requiredOf_falsy _ Hf1) in H1. rewrite (requiredOf_falsy _ Hf2) in H2.
    injection H1 as <-. injection H2 as <-. exists []. split; [|reflexivity].
    apply requiredOf_falsy. cbn [get] in *. rewrite Hbase, !own_spread_object.
    destruct (own kvs2 "required"); [exact Hf2|].
    destruct (own kvs1 "required"); [exact Hf1 | reflexivity].
Qed.

Lemma spread_undefined (target : list (string * JS)) : spread target JUndef = target.
Proof. reflexivity. Qed.

Lemma mergeType_own s1 s2 merged merged' k :
  mergeType s1 s2 merged = Ret merged' ->
  String.eqb "type" k = false ->
  own merged' k = own merged k.
Proof.
  unfold mergeType. intros H Hk.
  destruct (truthy (get s1 "type") && truthy (get s2 "type")).
  - destruct (common _ _) as [[|t [|t' rest]]| | |]; try discriminate H;
      cbn [obind] in H; injection H as <-; rewrite ?own_setProp, ?Hk; reflexivity.
  - injection H as <-. reflexivity.
Qed.

(** X9: [mergeSchemas] (of either validator) on two objects whose
    [required] is an array or absent: the merged schema lists a name under
    [required] exactly when one of the operands does. *)
Theorem X9_merged_required_is_the_union (kvs1 kvs2 : list (string * JS)) (merged : JS)
    (r1 r2 : list JS) :
  requiredOf (JObj kvs1) = Some r1 -> requiredOf (JObj kvs2) = Some r2 ->
  Pointer.mergeSchemas (JObj kvs1) (JObj kvs2) = Ret merged \/
  Patch.mergeSchemas (JObj kvs1) (JObj kvs2) = Ret merged ->
  exists names,
    requiredOf merged = Some names /\
    forall name, includesStr names name = includesStr r1 name || includesStr r2 name.
Proof.
  intros H1 H2 [Hm|Hm].
  - unfold Pointer.mergeSchemas in Hm. cbn [nullish orb] in Hm.
    destruct (mergeRequired _ _ _) as [m1| | |] eqn:Hreq; try discriminate Hm.
    cbn [obind] in Hm.
    destruct (mergeType _ _ _) as [m2| | |] eqn:Hty; try discriminate Hm.
    cbn [obind] in Hm.
    destruct (Pointer.mergeMinProperties _ _ _) as [m3| | |] eqn:Hmin; try discriminate Hm.
    cbn [obind] in Hm.
    destruct (Pointer.mergeMaxProperties _ _ _) as [m4| | |] eqn:Hmax; try discriminate Hm.
    cbn [obind] in Hm. injection Hm as <-.
    assert (Hsame : get (JObj m4) "required" = get (JObj m1) "required").
    { cbn [get].
      rewrite (mergeMaxProperties_own _ _ _ _ _ Hmax) by reflexivity.
      rewrite (mergeMinProperties_own _ _ _ _ _ Hmin) by reflexivity.
      rewrite (mergeType_own _ _ _ _ _ Hty) by reflexivity. reflexivity. }
    unfold requiredOf. rewrite Hsame. fold (requiredOf (JObj m1)).
    refine (mergeRequired_union kvs1 kvs2 _ m1 r1 r2 _ H1 H2 Hreq).
    rewrite !mergeProperties_own by reflexivity. reflexivity.
  - unfold Patch.mergeSchemas in Hm. cbn [nullish orb] in Hm.
    destruct (mergeRequired _ _ _) as [m1| | |] eqn:Hreq; try discriminate Hm.
    cbn [obind] in Hm.
    destruct (mergeType _ _ _) as [m2| | |] eqn:Hty; try discriminate Hm.
    cbn [obind] in Hm. injection Hm as <-.
    assert (Hsame : get (JObj m2) "required" = get (JObj m1) "required").
    { cbn [get]. rewrite (mergeType_own _ _ _ _ _ Hty) by reflexivity. reflexivity. }
    unfold requiredOf. rewrite Hsame. fold (requiredOf (JObj m1)).
    refine (mergeRequired_union kvs1 kvs2 _ m1 r1 r2 _ H1 H2 Hreq).
    rewrite !mergeProperties_own by reflexivity. reflexivity.
Qed.

Lemma X9_merged_required_is_the_union_witness :
  exists names,
    requiredOf (JObj [("required", JArr [JStr "a"; JStr "b"; JStr "c"])]) = Some names /\
    forall name, includesStr names name
                 = includesStr [JStr "a"; JStr "b"] name
                   || includesStr [JStr "b"; JStr "c"] name.
Proof.
  apply (X9_merged_required_is_the_union
           [("required", JArr [JStr "a"; JStr "b"])]
           [("required", JArr [JStr "b"; JStr "c"])]
           (JObj [("required", JArr [JStr "a"; JStr "b"; JStr "c"])])
           [JStr "a"; JStr "b"] [JStr "b"; JStr "c"]);
    [reflexivity | reflexivity | left; reflexivity].
Defined.

(** What [{ ...s1[key], ...s2[key] }] holds. *)
Lemma spread_entries (v1 v2 : JS) (name : string) :
  objectOrAbsent v1 = true -> objectOrAbsent v2 = true ->
  own (spread (spread [] v1) v2) name
  = match own (entries v2) name with
    | Some schema => Some schema
    | None => own (entries v1) name
    end.
Proof.
  intros Ho1 Ho2.
  destruct v2 as [| | | | | |p2]; try discriminate Ho2;
    destruct v1 as [| | | | | |p1]; try discriminate Ho1;
    cbn [entries]; rewrite ?spread_undefined, ?own_spread_object; cbn [own];
    try reflexivity;
    repeat match goal with
           | |- context [own ?p name] => destruct (own p name)
           end; reflexivity.
Qed.

(** The two steps of [mergeSchemas] on [properties] and
    [patternProperties] assign the key when an operand has it. *)
Lemma mergeProperties_set (s1 s2 : JS) (base : list (string * JS)) (key : string) :
  key = "properties" \/ key = "patternProperties" ->
  truthy (get s1 key) || truthy (get s2 key) = true ->
  own (mergeProperties "patternProperties" s1 s2 (mergeProperties "properties" s1 s2 base))
    key
  = Some (JObj (spread (spread [] (get s1 key)) (get s2 key))).
Proof.
  intros [-> | ->] Hany.
  - rewrite mergeProperties_own by reflexivity.
    unfold mergeProperties. rewrite Hany, own_setProp. reflexivity.
  - unfold mergeProperties at 1. rewrite Hany, own_setProp. reflexivity.
Qed.

(** The later steps of [mergeSchemas] leave the other keys alone. *)
Lemma pointer_mergeSchemas_own (s1 s2 merged : JS) (k : string) :
  Pointer.mergeSchemas s1 s2 = Ret merged ->
  String.eqb "required" k = false -> String.eqb "type" k = false ->
  String.eqb "minProperties" k = false -> String.eqb "maxProperties" k = false ->
  exists mk,
    merged = JObj mk /\
    own mk k
    = own (mergeProperties "patternProperties" s1 s2
             (mergeProperties "properties" s1 s2 (spread (spread [] s1) s2))) k.
Proof.
  intros Hm Hr Ht Hmin Hmax. unfold Pointer.mergeSchemas in Hm.
  destruct (nullish s1 || nullish s2); [discriminate Hm|].
  destruct (mergeRequired _ _ _) as [m1| | |] eqn:Hreq; try discriminate Hm.
  cbn [obind] in Hm.
  destruct (mergeType _ _ _) as [m2| | |] eqn:Hty; try discriminate Hm.
  cbn [obind] in Hm.
  destruct (Pointer.mergeMinProperties _ _ _) as [m3| | |] eqn:Hmi; try discriminate Hm.
  cbn [obind] in Hm.
  destruct (Pointer.mergeMaxProperties _ _ _) as [m4| | |] eqn:Hma; try discriminate Hm.
  cbn [obind] in Hm. injection Hm as <-. exists m4. split; [reflexivity|].
  rewrite (mergeMaxProperties_own _ _ _ _ _ Hma) by exact Hmax.
  rewrite (mergeMinProperties_own _ _ _ _ _ Hmi) by exact Hmin.
  rewrite (mergeType_own _ _ _ _ _ Hty) by exact Ht.
  apply (mergeRequired_own _ _ _ _ _ Hreq). exact Hr.
Qed.

Lemma patch_mergeSchemas_own (s1 s2 merged : JS) (k : string) :
  Patch.mergeSchemas s1 s2 = Ret merged ->
  String.eqb "required" k = false -> String.eqb "type" k = false ->
  exists mk,
    merged = JObj mk /\
    own mk k
    = own (mergeProperties "patternProperties" s1 s2
             (mergeProperties "properties" s1 s2 (spread (spread [] s1) s2))) k.
Proof.
  intros Hm Hr Ht. unfold Patch.mergeSchemas in Hm.
  destruct (nullish s1 || nullish s2); [discriminate Hm|].
  destruct (mergeRequired _ _ _) as [m1| | |] eqn:Hreq; try discriminate Hm.
  cbn [obind] in Hm.
  destruct (mergeType _ _ _) as [m2| | |] eqn:Hty; try discriminate Hm.
  cbn [obind] in Hm. injection Hm as <-. exists m2. split; [reflexivity|].
  rewrite (mergeType_own _ _ _ _ _ Hty) by exact Ht.
  apply (mergeRequired_own _ _ _ _ _ Hreq). exact Hr.
Qed.

(** X10: [mergeSchemas] (of either validator) on two objects of which at
    least one has [properties] (likewise [patternProperties]): the merged
    keyword is an object that has every key of either operand's, with the
    right-hand operand's schema where both declare the key. *)
Theorem X10_merged_properties_right_operand_wins (kvs1 kvs2 : list (string * JS))
    (merged : JS) (key : string) :
  key = "properties" \/ key = "patternProperties" ->
  objectOrAbsent (get (JObj kvs1) key) = true ->
  objectOrAbsent (get (JObj kvs2) key) = true ->
  truthy (get (JObj kvs1) key) || truthy (get (JObj kvs2) key) = true ->
  Pointer.mergeSchemas (JObj kvs1) (JObj kvs2) = Ret merged \/
  Patch.mergeSchemas (JObj kvs1) (JObj kvs2) = Ret merged ->
  exists declared,
    get merged key = JObj declared /\
    forall name,
      own declared name
      = match own (entries (get (JObj kvs2) key)) name with
        | Some schema => Some schema
        | None => own (entries (get (JObj kvs1) key)) name
        end.
Proof.
  intros Hkey Ho1 Ho2 Hany Hm.
  exists (spread (spread [] (get (JObj kvs1) key)) (get (JObj kvs2) key)).
  split; [|intros name; apply spread_entries; assumption].
  assert (Hother : String.eqb "required" key = false /\ String.eqb "type" key = false /\
                   String.eqb "minProperties" key = false /\
                   String.eqb "maxProperties" key = false).
  { destruct Hkey as [-> | ->]; repeat split; reflexivity. }
  destruct Hother as (Hr & Ht & Hmin & Hmax).
  destruct Hm as [Hm|Hm].
  - destruct (pointer_mergeSchemas_own _ _ _ key Hm Hr Ht Hmin Hmax) as (mk & -> & Hown).
    change (get (JObj mk) key) with (default JUndef (own mk key)).
    rewrite Hown, (mergeProperties_set _ _ _ key Hkey Hany). reflexivity.
  - destruct (patch_mergeSchemas_own _ _ _ key Hm Hr Ht) as (mk & -> & Hown).
    change (get (JObj mk) key) with (default JUndef (own mk key)).
    rewrite Hown, (mergeProperties_set _ _ _ key Hkey Hany). reflexivity.
Qed.

Lemma X10_merged_properties_right_operand_wins_witness :
  exists declared,
    get mergedProperties "properties" = JObj declared /\
    forall name,
      own declared name
      = match own (entries (get (JObj rightProperties) "properties")) name with
        | Some schema => Some schema
        | None => own (entries (get (JObj leftProperties) "properties")) name
        end.
Proof.
  apply (X10_merged_properties_right_operand_wins leftProperties rightProperties
           mergedProperties "properties");
    [left; reflexivity | reflexivity | reflexivity | reflexivity | left; reflexivity].
Defined.

Lemma spread_base_get (kvs1 kvs2 : list (string * JS)) (k : string) :
  get (JObj kvs1) k = JUndef -> get (JObj kvs2) k = JUndef ->
  get (JObj (spread (spread [] (JObj kvs1)) (JObj kvs2))) k = JUndef.
Proof.
  cbn [get]. intros H1 H2. rewrite !own_spread_object.
  destruct (own kvs2 k); [exact H2|]. destruct (own kvs1 k); [exact H1 | reflexivity].
Qed.

(** X11: [mergeSchemas] of the pointer validator keeps the tighter
    bounds: the merged [minProperties] is the larger of the two (an absent
    one counts as 0) and the merged [maxProperties] is the smaller of the
    two (an absent one does not count). *)
Theorem X11_merged_bounds_are_the_tighter_ones (kvs1 kvs2 : list (string * JS))
    (merged : JS) (a b : Z) (hi1 hi2 : option Z) :
  lowerBound (get (JObj kvs1) "minProperties") = Some a ->
  lowerBound (get (JObj kvs2) "minProperties") = Some b ->
  upperBound (get (JObj kvs1) "maxProperties") = Some hi1 ->
  upperBound (get (JObj kvs2) "maxProperties") = Some hi2 ->
  Pointer.mergeSchemas (JObj kvs1) (JObj kvs2) = Ret merged ->
  lowerBound (get merged "minProperties") = Some (Z.max a b) /\
  upperBound (get merged "maxProperties") = Some (tighter hi1 hi2).
Proof.
  intros Ha Hb Hhi1 Hhi2 Hm.
  unfold Pointer.mergeSchemas in Hm. cbn [nullish orb] in Hm.
  destruct (mergeRequired _ _ _) as [m1| | |] eqn:Hreq; try discriminate Hm.
  cbn [obind] in Hm.
  destruct (mergeType _ _ _) as [m2| | |] eqn:Hty; try discriminate Hm.
  cbn [obind] in Hm.
  destruct (Pointer.mergeMinProperties _ _ _) as [m3| | |] eqn:Hmin; try discriminate Hm.
  cbn [obind] in Hm.
  destruct (Pointer.mergeMaxProperties _ _ _) as [m4| | |] eqn:Hmax; try discriminate Hm.
  cbn [obind] in Hm. injection Hm as <-.
  assert (Hbase : forall k,
             String.eqb "properties" k = false ->
             String.eqb "patternProperties" k = false ->
             String.eqb "required" k = false -> String.eqb "type" k = false ->
             own m2 k = own (spread (spread [] (JObj kvs1)) (JObj kvs2)) k).
  { intros k Hp Hpp Hr Ht.
    rewrite (mergeType_own _ _ _ _ _ Hty) by exact Ht.
    rewrite (mergeRequired_own _ _ _ _ _ Hreq) by exact Hr.
    rewrite !mergeProperties_own by assumption. reflexivity. }
  split.
  - cbn [get]. rewrite (mergeMaxProperties_own _ _ _ _ _ Hmax) by reflexivity.
    unfold Pointer.mergeMinProperties in Hmin.
    destruct (get (JObj kvs1) "minProperties") as [| | |x| | |] eqn:E1; try discriminate Ha;
      destruct (get (JObj kvs2) "minProperties") as [| | |y| | |] eqn:E2; try discriminate Hb;
      injection Ha as <-; injection Hb as <-; cbn [defined orb] in Hmin.
    + injection Hmin as <-. rewrite Hbase by reflexivity.
      change (default JUndef (own (spread (spread [] (JObj kvs1)) (JObj kvs2)) "minProperties"))
        with (get (JObj (spread (spread [] (JObj kvs1)) (JObj kvs2))) "minProperties").
      rewrite spread_base_get by assumption. reflexivity.
    + destruct y; cbn in Hmin; injection Hmin as <-; rewrite own_setProp; reflexivity.
    + destruct x; cbn in Hmin; injection Hmin as <-; rewrite own_setProp; reflexivity.
    + destruct x, y; cbn in Hmin; injection Hmin as <-; rewrite own_setProp; reflexivity.
  - cbn [get]. unfold Pointer.mergeMaxProperties in Hmax.
    assert (Hkeep : own m3 "maxProperties"
                    = own (spread (spread [] (JObj kvs1)) (JObj kvs2)) "maxProperties").
    { rewrite (mergeMinProperties_own _ _ _ _ _ Hmin) by reflexivity.
      apply Hbase; reflexivity. }
    destruct (get (JObj kvs1) "maxProperties") as [| | |x| | |] eqn:E1; try discriminate Hhi1;
      destruct (get (JObj kvs2) "maxProperties") as [| | |y| | |] eqn:E2; try discriminate Hhi2;
      injection Hhi1 as <-; injection Hhi2 as <-; cbn in Hmax; injection Hmax as <-;
      rewrite ?own_setProp; try reflexivity.
    rewrite Hkeep.
    change (default JUndef (own (spread (spread [] (JObj kvs1)) (JObj kvs2)) "maxProperties"))
      with (get (JObj (spread (spread [] (JObj kvs1)) (JObj kvs2))) "maxProperties").
    rewrite spread_base_get by assumption. reflexivity.
Qed.

Lemma X11_merged_bounds_are_the_tighter_ones_witness :
  lowerBound (get (JObj [("minProperties", JNum 2); ("maxProperties", JNum 5)])
                "minProperties") = Some (Z.max 1 2) /\
  upperBound (get (JObj [("minProperties", JNum 2); ("maxProperties", JNum 5)])
                "maxProperties") = Some (tighter (Some 5) None).
Proof.
  apply (X11_merged_bounds_are_the_tighter_ones oneToFive atLeastTwo
           (JObj [("minProperties", JNum 2); ("maxProperties", JNum 5)])
           1 2 (Some 5) None); reflexivity.
Defined.

(** ** Indices *)

Section Indices.

Variable RegExp_test : string -> string -> option bool.

Lemma getNextSchema_arrayOnly fuel schema token ctx :
  arrayOnly schema ->
  Pointer.getNextSchema RegExp_test (S fuel) token schema ctx
  = let* next := Pointer.tryArrayTraversal token schema in
    Ret (if truthy next then next else JNull, ctx).
Proof.
  intros [Hty Hp Hpp].
  cbn [Pointer.getNextSchema]. rewrite Hty, Hp, Hpp.
  change (includesStr (typeList (JStr "array")) "object" || false || false
          || negb (truthy (JStr "array"))) with false.
  cbv iota. unfold bind at 1. cbn [ret obind fst snd truthy].
  change (includesStr (typeList (JStr "array")) "array") with true.
  cbn [orb]. unfold bind, lift.
  destruct (Pointer.tryArrayTraversal token schema) as [next| | |]; try reflexivity.
  cbn [obind fst snd]. destruct (truthy next); reflexivity.
Qed.

(** What [tryArrayTraversal] admits is a canonical index below [maxItems]. *)
Lemma tryArrayTraversal_accepts token schema next :
  Pointer.tryArrayTraversal token schema = Ret next -> truthy next = true ->
  exists n, 0 <= n /\ token = Str.toString n /\
            forall m, get schema "maxItems" = JNum m -> n < m.
Proof.
  unfold Pointer.tryArrayTraversal. intros H Ht.
  destruct (Str.parseInt token) as [index|]; [|injection H as <-; discriminate Ht].
  destruct (index <? 0) eqn:Hneg; [injection H as <-; discriminate Ht|].
  destruct (String.eqb_spec token (Str.toString index)) as [Heq|];
    [|injection H as <-; discriminate Ht].
  cbn [orb negb] in H. exists index. apply Z.ltb_ge in Hneg.
  split; [exact Hneg|]. split; [exact Heq|]. intros m Hm. rewrite Hm in H.
  cbn [defined] in H. unfold geNumber in H. cbn [toNumber obind] in H.
  destruct (m <=? index) eqn:Hfull; [injection H as <-; discriminate Ht|].
  apply Z.leb_gt in Hfull. exact Hfull.
Qed.

End Indices.

(** X12: against a schema of type ["array"] (without reference or
    composition keywords, [properties] and [patternProperties]) a pointer
    is valid only if its first token is the canonical decimal of a natural
    number (no sign, no leading zero, no blank) that is below [maxItems]
    when the schema has one. *)
Theorem X12_only_canonical_indices_below_maxItems re fuel (kvs : list (string * JS))
    (pointer token : string) (rest : list string) :
  uncomposed (JObj kvs) -> arrayOnly (JObj kvs) ->
  Str.startsWith pointer "/" = true -> pointer <> "/" ->
  Pointer.parseTokens pointer = token :: rest ->
  Pointer.validateJSONPointer re (S fuel) pointer (JObj kvs) = Ret true ->
  exists n, 0 <= n /\ token = Str.toString n /\
            forall m, get (JObj kvs) "maxItems" = JNum m -> n < m.
Proof.
  intros Hplain [Hty Hp Hpp] Hstart Hroot Htokens.
  destruct (validateJSONPointer_tokens re (S fuel) pointer kvs Hstart Hroot) as [ctx ->].
  rewrite Htokens. cbn [Pointer.validateTokens].
  destruct (resolveSchema_uncomposed fuel kvs ctx Hplain) as (kvs' & Hres & Hsame).
  unfold bind at 1. rewrite Hres. cbn [obind fst snd truthy negb].
  destruct (defined (get (JObj kvs') "const") || defined (get (JObj kvs') "enum"));
    [intros [=]|].
  unfold bind at 1. rewrite getNextSchema_arrayOnly
    by (split; rewrite Hsame by reflexivity; assumption).
  destruct (Pointer.tryArrayTraversal token (JObj kvs')) as [next| | |] eqn:Hnext;
    cbn [obind fst snd]; try (intros [=]; fail).
  destruct (truthy next) eqn:Ht; [|intros [=]]. intros _.
  destruct (tryArrayTraversal_accepts token (JObj kvs') next Hnext Ht) as (n & Hn & Heq & Hmax).
  exists n. split; [exact Hn|]. split; [exact Heq|].
  intros m Hm. apply Hmax. rewrite Hsame by reflexivity. exact Hm.
Qed.

Lemma X12_only_canonical_indices_below_maxItems_witness :
  exists n, 0 <= n /\ "2" = Str.toString n /\
            forall m, get (JObj upToThree) "maxItems" = JNum m -> n < m.
Proof.
  apply (X12_only_canonical_indices_below_maxItems wordRegExp 1 upToThree "/2/x" "2" ["x"]);
    [split; reflexivity | split; reflexivity | reflexivity | discriminate
    | reflexivity | reflexivity].
Defined.

(** ** What an operation is read for *)

(** X13: [validateOperation] reads of an operation only [op], [path],
    [from] and whether [value] is present.  Two operations that agree on
    these get the same errors: the value itself and any further member are
    never inspected. *)
Theorem X13_only_op_path_from_are_read re fuel (schema : JS) (index : Z)
    (kvs1 kvs2 : list (string * JS)) :
  get (JObj kvs1) "op" = get (JObj kvs2) "op" ->
  get (JObj kvs1) "path" = get (JObj kvs2) "path" ->
  get (JObj kvs1) "from" = get (JObj kvs2) "from" ->
  (is_Some (own kvs1 "value") <-> is_Some (own kvs2 "value")) ->
  Patch.validateOperation re fuel (JObj kvs1) schema index
  = Patch.validateOperation re fuel (JObj kvs2) schema index.
Proof.
  intros Hop Hpath Hfrom Hvalue.
  assert (Hhas : hasProperty "value" (JObj kvs1) = hasProperty "value" (JObj kvs2)).
  { cbn [hasProperty]. f_equal. apply bool_decide_ext. exact Hvalue. }
  unfold Patch.validateOperation, Patch.validateAdd, Patch.validateRemove,
    Patch.validateReplace, Patch.validateMove, Patch.validateCopy, Patch.validateTest,
    Patch.withPathAndValue, Patch.withFromAndPath.
  cbn [truthy typeofObject negb orb]. rewrite Hop, Hpath, Hfrom, Hhas. reflexivity.
Qed.

Lemma X13_only_op_path_from_are_read_witness :
  Patch.validateOperation wordRegExp 1 addX nameSchema 0
  = Patch.validateOperation wordRegExp 1 (JObj addXWithNote) nameSchema 0.
Proof.
  apply (X13_only_op_path_from_are_read wordRegExp 1 nameSchema 0
           [("op", JStr "add"); ("path", JStr "/x"); ("value", JNum 1)] addXWithNote);
    try reflexivity.
  split; intros _; eexists; reflexivity.
Defined.

(** ** The schema that [checkRequiredProperty] reads *)

Section RequiredBelow.

Variable RegExp_test : string -> string -> option bool.

Lemma checkRequiredProperty_below fuel (schema parentSchema : JS) (parent name : string)
    (names : list JS) :
  parent <> "" -> Str.includes name "/" = false ->
  Patch.getSchemaAtPath RegExp_test fuel parent schema = Ret parentSchema ->
  truthy parentSchema = true ->
  requiredOf parentSchema = Some names ->
  Patch.checkRequiredProperty RegExp_test fuel (parent ++ "/" ++ name) schema
  = Ret (if includesStr names name then Some (cannotRemove name) else None).
Proof.
  intros Hparent Habs Hat Ht Hreq. unfold Patch.checkRequiredProperty.
  rewrite lastIndexOf_last_segment by exact Habs.
  assert (Hpos : 0 < Str.len parent).
  { destruct parent; [congruence|]. rewrite len_cons. pose proof (len_nonneg parent). lia. }
  replace (Str.len parent <=? 0) with false by (symmetry; apply Z.leb_gt; exact Hpos).
  replace (Str.len parent =? 0) with false by (symmetry; apply Z.eqb_neq; lia).
  rewrite slice_parent, sliceFrom_name, Hat. cbn [obind]. rewrite Ht. cbn [negb].
  destruct (truthy (get parentSchema "required")) eqn:Hr.
  - rewrite (requiredOf_truthy parentSchema names Hreq Hr). cbn [obind].
    destruct (includesStr names name); reflexivity.
  - rewrite (requiredOf_falsy parentSchema Hr) in Hreq. injection Hreq as <-. reflexivity.
Qed.

Lemma split_plain (s : string) :
  Str.includes s "/" = false -> Str.split "/" s = [s].
Proof.
  induction s as [|c s IH]; intros Habs; [reflexivity|].
  rewrite includes_char in Habs. apply orb_false_elim in Habs as [Hc Hs].
  cbn [Str.split]. rewrite Hc, (IH Hs). reflexivity.
Qed.

Lemma sliceFrom_slash (s : string) : Str.sliceFrom ("/" ++ s) 1 = s.
Proof. apply (sliceFrom_suffix "/" s). Qed.

(** The schema at a declared property of a plain object is the schema
    that [properties] holds, as it is written. *)
Lemma getSchemaAtPath_declared fuel (kvs props : list (string * JS)) (p : string) (s : JS) :
  uncomposed (JObj kvs) ->
  get (JObj kvs) "properties" = JObj props ->
  p <> "" -> Str.includes p "/" = false ->
  own props (unescape p) = Some s -> truthy s = true ->
  Patch.getSchemaAtPath RegExp_test (S fuel) ("/" ++ p) (JObj kvs) = Ret s.
Proof.
  intros Hplain Hprops Hp Habs Hown Ht. unfold Patch.getSchemaAtPath.
  replace (String.eqb ("/" ++ p) "") with false by reflexivity.
  replace (String.eqb ("/" ++ p) "/") with false
    by (destruct p; [congruence | reflexivity]).
  cbn [orb]. rewrite sliceFrom_slash, split_plain by exact Habs.
  cbn [map Patch.schemaAtTokens nullish].
  rewrite patch_resolveSchema_plain by (reflexivity || exact Hplain).
  cbn [obind fst truthy negb]. unfold Patch.getNextSchemaForToken.
  rewrite Hprops. cbn [truthy]. rewrite orb_true_r. cbn [orb hasProperty].
  rewrite Hown. rewrite bool_decide_eq_true_2 by eauto. cbn [obind get].
  rewrite Hown. change (default JUndef (Some s)) with s. rewrite Ht. reflexivity.
Qed.

End RequiredBelow.

(** X14: [getSchemaAtPath] returns the schema of a declared property as
    [properties] holds it, without resolving it, and
    [checkRequiredProperty] reads [required] from that schema as written.
    So when the property's schema is a reference (and lists nothing under
    [required] itself), no property below it is protected, whatever the
    referenced definition requires. *)
Theorem X14_required_is_read_from_the_written_schema re fuel
    (kvs props : list (string * JS)) (p name : string) (s : JS) (names : list JS) :
  uncomposed (JObj kvs) ->
  get (JObj kvs) "properties" = JObj props ->
  p <> "" -> Str.includes p "/" = false ->
  own props (unescape p) = Some s -> truthy s = true ->
  Str.includes name "/" = false ->
  requiredOf s = Some names ->
  Patch.getSchemaAtPath re (S fuel) ("/" ++ p) (JObj kvs) = Ret s /\
  Patch.checkRequiredProperty re (S fuel) (("/" ++ p) ++ "/" ++ name) (JObj kvs)
  = Ret (if includesStr names name then Some (cannotRemove name) else None).
Proof.
  intros Hplain Hprops Hp Habs Hown Ht Hname Hreq.
  pose proof (getSchemaAtPath_declared re fuel kvs props p s Hplain Hprops Hp Habs Hown Ht)
    as Hat.
  split; [exact Hat|].
  apply (checkRequiredProperty_below re (S fuel) (JObj kvs) s ("/" ++ p) name names);
    try assumption. discriminate.
Qed.

Lemma X14_required_is_read_from_the_written_schema_witness :
  Patch.getSchemaAtPath wordRegExp 1 ("/" ++ "owner") (JObj ownerSchema)
  = Ret (JObj [("$ref", JStr "#/$defs/Person")]) /\
  Patch.checkRequiredProperty wordRegExp 1 (("/" ++ "owner") ++ "/" ++ "name")
    (JObj ownerSchema)
  = Ret (if includesStr [] "name" then Some (cannotRemove "name") else None).
Proof.
  apply (X14_required_is_read_from_the_written_schema wordRegExp 0 ownerSchema
           [("owner", JObj [("$ref", JStr "#/$defs/Person")])] "owner" "name"
           (JObj [("$ref", JStr "#/$defs/Person")]) []);
    try reflexivity; [split; reflexivity | discriminate].
Defined.

(** ** Pointers and their tokens *)

Lemma replace2_other (a b c : ascii) (r s : string) :
  Ascii.eqb c a = false ->
  Str.replace2 a b r (String c s) = String c (Str.replace2 a b r s).
Proof.
  intros Hc. destruct s as [|d s]; [reflexivity|].
  cbn [Str.replace2]. rewrite Hc. reflexivity.
Qed.

Lemma replace2_miss (a b c d : ascii) (r s : string) :
  Ascii.eqb d b = false ->
  Str.replace2 a b r (String c (String d s)) = String c (Str.replace2 a b r (String d s)).
Proof. intros Hd. cbn [Str.replace2]. rewrite Hd, andb_false_r. reflexivity. Qed.

Lemma replace2_hit (a b : ascii) (r s : string) :
  Str.replace2 a b r (String a (String b s)) = (r ++ Str.replace2 a b r s)%string.
Proof. cbn [Str.replace2]. rewrite !Ascii.eqb_refl. reflexivity. Qed.

(** The encoding with [/] left as it is: what the first replacement of
    [unescape] makes of an encoded token. *)
Lemma replace2_escape (token : string) :
  Str.replace2 "~" "1" "/" (escape token)
  = (fix half (t : string) : string :=
       match t with
       | EmptyString => EmptyString
       | String c r => if Ascii.eqb c "~" then String "~" (String "0" (half r))
                       else String c (half r)
       end) token.
Proof.
  induction token as [|c r IH]; [reflexivity|].
  cbn [escape]. destruct (Ascii.eqb c "~") eqn:Htilde.
  - change ("~0" ++ escape r)%string with (String "~" (String "0" (escape r))).
    rewrite replace2_miss by reflexivity. rewrite replace2_other by reflexivity.
    rewrite IH. reflexivity.
  - destruct (Ascii.eqb c "/") eqn:Hslash.
    + apply Ascii.eqb_eq in Hslash. subst c.
      change ("~1" ++ escape r)%string with (String "~" (String "1" (escape r))).
      rewrite replace2_hit, IH. reflexivity.
    + change (String c "" ++ escape r)%string with (String c (escape r)).
      rewrite replace2_other by exact Htilde. rewrite IH. reflexivity.
Qed.

Lemma unescape_escape (token : string) : unescape (escape token) = token.
Proof.
  unfold unescape. rewrite replace2_escape.
  induction token as [|c r IH]; [reflexivity|].
  destruct (Ascii.eqb c "~") eqn:Htilde.
  - apply Ascii.eqb_eq in Htilde. subst c.
    rewrite replace2_hit, IH. reflexivity.
  - rewrite replace2_other by exact Htilde. rewrite IH. reflexivity.
Qed.

Lemma includes_escape (token : string) : Str.includes (escape token) "/" = false.
Proof.
  induction token as [|c r IH]; [reflexivity|].
  cbn [escape]. destruct (Ascii.eqb c "~").
  - change ("~0" ++ escape r)%string with (String "~" (String "0" (escape r))).
    rewrite !includes_char, IH. reflexivity.
  - destruct (Ascii.eqb c "/") eqn:Hslash.
    + change ("~1" ++ escape r)%string with (String "~" (String "1" (escape r))).
      rewrite !includes_char, IH. reflexivity.
    + change (String c "" ++ escape r)%string with (String c (escape r)).
      rewrite includes_char, IH, Hslash. reflexivity.
Qed.

Lemma split_segment (a b : string) :
  Str.includes a "/" = false ->
  Str.split "/" (a ++ "/" ++ b) = a :: Str.split "/" b.
Proof.
  induction a as [|c a IH]; intros Habs.
  - reflexivity.
  - rewrite includes_char in Habs. apply orb_false_elim in Habs as [Hc Ha].
    rewrite append_cons. cbn [Str.split]. rewrite Hc, (IH Ha). reflexivity.
Qed.

Lemma split_pointerOf (token : string) (rest : list string) :
  Str.split "/" (escape token ++ pointerOf rest) = map escape (token :: rest).
Proof.
  revert token. induction rest as [|next rest IH]; intros token.
  - cbn [pointerOf map]. replace (escape token ++ "")%string with (escape token).
    + apply split_plain, includes_escape.
    + induction (escape token) as [|c s IHs]; [reflexivity|].
      rewrite append_cons, <- IHs. reflexivity.
  - cbn [pointerOf]. rewrite split_segment by apply includes_escape.
    rewrite IH. reflexivity.
Qed.

Lemma startsWith_slash (s : string) : Str.startsWith ("/" ++ s) "/" = true.
Proof.
  unfold Str.startsWith. change ("/" ++ s)%string with (String "/" s).
  cbn [String.prefix]. destruct (ascii_dec "/" "/"); [apply prefix_empty | congruence].
Qed.

(** X15: decoding undoes the encoding of RFC 6901.  The pointer that
    names a non-empty list of arbitrary tokens, each written with [~0] for
    [~] and [~1] for [/], starts with [/] and is parsed by
    [validateJSONPointer] into exactly these tokens. *)
Theorem X15_tokens_of_an_encoded_pointer (token : string) (rest : list string) :
  Str.startsWith (pointerOf (token :: rest)) "/" = true /\
  Pointer.parseTokens (pointerOf (token :: rest)) = token :: rest.
Proof.
  split; [apply startsWith_slash|].
  unfold Pointer.parseTokens. cbn [pointerOf].
  rewrite sliceFrom_slash, split_pointerOf.
  rewrite map_map. rewrite <- (map_id (token :: rest)) at 2.
  apply map_ext. intros t. apply unescape_escape.
Qed.

(** ** The lines that the agent reads *)

Lemma removelast_cons2 {A} (x y : A) (l : list A) :
  removelast (x :: y :: l) = x :: removelast (y :: l).
Proof. reflexivity. Qed.

Lemma last_cons2 {A} (x y : A) (l : list A) (d : A) :
  List.last (x :: y :: l) d = List.last (y :: l) d.
Proof. reflexivity. Qed.

(** Splitting a text in two parts: the complete lines of the first part,
    then the lines of its unfinished line followed by the second part. *)
Lemma split_app (sep : ascii) (a b : string) :
  Str.split sep (a ++ b)
  = (removelast (Str.split sep a)
     ++ Str.split sep (List.last (Str.split sep a) EmptyString ++ b))%list.
Proof.
  induction a as [|c a IH]; [reflexivity|].
  rewrite append_cons. cbn [Str.split].
  destruct (split_cons sep a) as (h & t & Ha). rewrite Ha in *.
  destruct (Ascii.eqb c sep) eqn:Hc.
  - rewrite removelast_cons2, last_cons2, IH. reflexivity.
  - rewrite IH. destruct t as [|h2 t2].
    + cbn [removelast List.last app]. rewrite append_cons. cbn [Str.split]. rewrite Hc.
      reflexivity.
    + rewrite !removelast_cons2, !last_cons2. reflexivity.
Qed.

(** The unfinished line holds no separator. *)
Lemma split_last (sep : ascii) (a : string) :
  Str.split sep (List.last (Str.split sep a) EmptyString)
  = [List.last (Str.split sep a) EmptyString].
Proof.
  induction a as [|c a IH]; [reflexivity|].
  cbn [Str.split]. destruct (split_cons sep a) as (h & t & Ha). rewrite Ha in *.
  destruct (Ascii.eqb c sep) eqn:Hc.
  - rewrite last_cons2. exact IH.
  - destruct t as [|h2 t2].
    + cbn [List.last] in *. cbn [Str.split]. rewrite Hc, IH. reflexivity.
    + rewrite last_cons2 in *. exact IH.
Qed.

Lemma removelast_app_cons {A} (xs : list A) (y : A) (ys : list A) :
  removelast (xs ++ y :: ys) = (xs ++ removelast (y :: ys))%list.
Proof. apply removelast_app. discriminate. Qed.

Lemma last_app_cons {A} (xs : list A) (y : A) (ys : list A) (d : A) :
  List.last (xs ++ y :: ys) d = List.last (y :: ys) d.
Proof.
  induction xs as [|x xs IH]; [reflexivity|].
  change ((x :: xs) ++ y :: ys)%list with (x :: (xs ++ y :: ys))%list.
  destruct (xs ++ y :: ys)%list eqn:E; [destruct xs; discriminate E|].
  rewrite last_cons2. exact IH.
Qed.

Lemma completeLines_app (a b : string) :
  completeLines (a ++ b)
  = (completeLines a
     ++ completeLines (List.last (Str.split Agent.newline a) EmptyString ++ b))%list.
Proof.
  unfold completeLines. rewrite split_app.
  destruct (split_cons Agent.newline (List.last (Str.split Agent.newline a) "" ++ b))
    as (h & t & ->).
  apply removelast_app_cons.
Qed.

Lemma last_split_app (a b : string) :
  List.last (Str.split Agent.newline (a ++ b)) EmptyString
  = List.last (Str.split Agent.newline
            (List.last (Str.split Agent.newline a) EmptyString ++ b)) EmptyString.
Proof.
  rewrite split_app.
  destruct (split_cons Agent.newline (List.last (Str.split Agent.newline a) "" ++ b))
    as (h & t & ->).
  apply last_app_cons.
Qed.

Section Lines.

Variable RegExp_test : string -> string -> option bool.
Variable JSON_parse : string -> option JS.
Variable fuel : nat.
Variable schema : JS.

Lemma andThen_finished (r : Agent.run) : Agent.andThen r Agent.finished = r.
Proof.
  unfold Agent.andThen. destruct r as [ys [[]| | |]]; cbn; try reflexivity.
  rewrite app_nil_r. reflexivity.
Qed.

Lemma andThen_assoc (r1 r2 r3 : Agent.run) :
  Agent.andThen (Agent.andThen r1 r2) r3 = Agent.andThen r1 (Agent.andThen r2 r3).
Proof.
  unfold Agent.andThen.
  destruct r1 as [y1 [[]| | |]], r2 as [y2 [[]| | |]]; cbn; try reflexivity.
  rewrite app_assoc. reflexivity.
Qed.

Lemma processLines_app (xs ys : list string) :
  Agent.processLines RegExp_test JSON_parse fuel schema (xs ++ ys)
  = Agent.andThen (Agent.processLines RegExp_test JSON_parse fuel schema xs)
      (Agent.processLines RegExp_test JSON_parse fuel schema ys).
Proof.
  induction xs as [|x xs IH].
  - cbn [app Agent.processLines]. unfold Agent.andThen, Agent.finished. cbn.
    destruct (Agent.processLines _ _ _ _ ys); reflexivity.
  - cbn [app Agent.processLines]. rewrite IH, andThen_assoc. reflexivity.
Qed.

(** From a buffer without a line feed, the generator reads the complete
    lines of the buffer followed by all the text that arrives. *)
Lemma consume_lines (textStream : list string) (buffer : string) :
  Str.split Agent.newline buffer = [buffer] ->
  Agent.consume RegExp_test JSON_parse fuel schema buffer textStream
  = Agent.processLines RegExp_test JSON_parse fuel schema
      (completeLines (buffer ++ received textStream)).
Proof.
  revert buffer. induction textStream as [|textPart rest IH]; intros buffer Hplain.
  - cbn [Agent.consume received fold_right]. unfold completeLines.
    replace (buffer ++ "")%string with buffer.
    + rewrite Hplain. reflexivity.
    + clear. induction buffer as [|c s IHs]; [reflexivity|].
      rewrite append_cons, <- IHs. reflexivity.
  - cbn [Agent.consume received fold_right]. fold (received rest).
    rewrite (IH _ (split_last _ _)).
    rewrite <- append_assoc.
    rewrite (completeLines_app (buffer ++ textPart) (received rest)).
    rewrite processLines_app. reflexivity.
Qed.

End Lines.

(** X16: what the streaming agent yields depends only on the text that
    the stream delivers in all, not on how the text is cut into parts: the
    agent processes, in order, the lines of that text that end in a line
    feed.  The text after the last line feed is never parsed. *)
Theorem X16_agent_reads_the_complete_lines re parse fuel (schema : JS)
    (textStream : list string) :
  Agent.jsonPatchStreamingAgent re parse fuel schema textStream
  = Agent.processLines re parse fuel schema (completeLines (received textStream)).
Proof.
  unfold Agent.jsonPatchStreamingAgent.
  rewrite consume_lines by reflexivity. reflexivity.
Qed.

(** Two parts that cut an operation in the middle: the operation is
    yielded once its line is complete, and the text after the line feed
    waits in the buffer, unparsed. *)
Example agent_yields_a_line_cut_in_two :
  exists first second,
    (first ++ second)%string = (addXText ++ lf ++ "{")%string /\
    Agent.jsonPatchStreamingAgent wordRegExp parseAddX 1 emptySchema [first; second]
    = {| Agent.yielded := [addXText]; Agent.ending := Ret tt |}.
Proof.
  exists (String.substring 0 12 addXText).
  exists (String.substring 12 100 addXText ++ lf ++ "{")%string.
  split; vm_compute; reflexivity.
Qed.

(** An operation that no line feed follows is never validated. *)
Example agent_drops_the_unfinished_line re parse fuel (schema : JS) (text : string) :
  Str.split Agent.newline text = [text] ->
  Agent.jsonPatchStreamingAgent re parse fuel schema [text] = Agent.finished.
Proof.
  intros Hplain. unfold Agent.jsonPatchStreamingAgent.
  rewrite consume_lines by reflexivity. rewrite append_nil.
  unfold received. cbn [fold_right].
  replace (text ++ "")%string with text.
  - unfold completeLines. rewrite Hplain. reflexivity.
  - clear. induction text as [|c s IHs]; [reflexivity|].
    rewrite append_cons, <- IHs. reflexivity.
Qed.

(** A complete line that is not JSON ends the generator with the
    exception of [JSON.parse]. *)
Example agent_throws_on_a_line_that_is_not_json :
  Agent.jsonPatchStreamingAgent wordRegExp parseAddX 1 emptySchema
    [(addXText ++ lf ++ "oops" ++ lf ++ addXText ++ lf)%string]
  = {| Agent.yielded := [addXText]; Agent.ending := Throw |}.
Proof. vm_compute. reflexivity. Qed.

(** ** The properties of an [allOf] *)

(** The [properties] of a merge, also when neither operand has any. *)
Lemma mergeSchemas_properties (kvs1 kvs2 : list (string * JS)) (merged : JS) :
  objectOrAbsent (get (JObj kvs1) "properties") = true ->
  objectOrAbsent (get (JObj kvs2) "properties") = true ->
  Pointer.mergeSchemas (JObj kvs1) (JObj kvs2) = Ret merged ->
  (exists mk, merged = JObj mk) /\
  objectOrAbsent (get merged "properties") = true /\
  forall name,
    own (entries (get merged "properties")) name
    = match own (entries (get (JObj kvs2) "properties")) name with
      | Some schema => Some schema
      | None => own (entries (get (JObj kvs1) "properties")) name
      end.
Proof.
  intros Ho1 Ho2 Hm.
  destruct (pointer_mergeSchemas_own _ _ _ "properties" Hm eq_refl eq_refl eq_refl eq_refl)
    as (mk & -> & Hown).
  split; [eauto|].
  change (get (JObj mk) "properties") with (default JUndef (own mk "properties")).
  rewrite Hown.
  destruct (truthy (get (JObj kvs1) "properties") || truthy (get (JObj kvs2) "properties"))
    eqn:Hany.
  - rewrite (mergeProperties_set _ _ _ "properties" (or_introl eq_refl) Hany).
    change (default JUndef (Some ?v)) with v. cbn [objectOrAbsent entries].
    split; [reflexivity|]. intros name. apply spread_entries; assumption.
  - apply orb_false_elim in Hany as [Hf1 Hf2].
    assert (H1 : get (JObj kvs1) "properties" = JUndef)
      by (destruct (get (JObj kvs1) "properties"); try discriminate; reflexivity).
    assert (H2 : get (JObj kvs2) "properties" = JUndef)
      by (destruct (get (JObj kvs2) "properties"); try discriminate; reflexivity).
    rewrite mergeProperties_own by reflexivity.
    unfold mergeProperties. rewrite Hf1, Hf2. cbn [orb].
    change (default JUndef (own (spread (spread [] (JObj kvs1)) (JObj kvs2)) "properties"))
      with (get (JObj (spread (spread [] (JObj kvs1)) (JObj kvs2))) "properties").
    rewrite (spread_base_get kvs1 kvs2 "properties" H1 H2), H1, H2.
    split; reflexivity.
Qed.

Section AllOf.

Variable RegExp_test : string -> string -> option bool.

(** Folding plain branches into an accumulator: each name keeps the
    schema of the last branch that declares it. *)
Lemma reduceMerge_properties fuel (name : string) (branches : list JS) :
  Forall plainBranch branches ->
  forall (akvs : list (string * JS)) (ctx : SchemaContext) (merged : JS)
         (ctx' : SchemaContext),
    objectOrAbsent (get (JObj akvs) "properties") = true ->
    Pointer.reduceMerge (Pointer.resolveSchema (S fuel)) branches (JObj akvs) ctx
    = Ret (merged, ctx') ->
    (exists mk, merged = JObj mk) /\
    objectOrAbsent (get merged "properties") = true /\
    own (entries (get merged "properties")) name
    = lastDeclared name branches (own (entries (get (JObj akvs) "properties")) name).
Proof.
  induction 1 as [|branch rest Hbranch Hrest IH]; intros akvs ctx merged ctx' Hacc Hm.
  - injection Hm as <- <-. split; [eauto|]. split; [exact Hacc | reflexivity].
  - destruct Hbranch as [[bkvs ->] Hplain Hnot Hprops].
    cbn [Pointer.reduceMerge] in Hm. unfold bind at 1 in Hm.
    rewrite resolveSchema_plain in Hm by (reflexivity || assumption).
    cbn [obind fst snd] in Hm. unfold bind at 1, lift in Hm.
    destruct (Pointer.mergeSchemas (JObj akvs) (JObj bkvs)) as [acc| | |] eqn:Hmerge;
      try discriminate Hm.
    cbn [obind fst snd] in Hm.
    destruct (mergeSchemas_properties akvs bkvs acc Hacc Hprops Hmerge)
      as ([mk ->] & Hacc' & Hdecl).
    destruct (IH mk ctx merged ctx' Hacc' Hm) as (Hobj & Hmp & Hlast).
    split; [exact Hobj|]. split; [exact Hmp|].
    rewrite Hlast, Hdecl. reflexivity.
Qed.

End AllOf.

(** X17: the properties of the branches of an [allOf] are combined.
    When the branches are objects without reference or composition
    keywords, the schema that [resolveSchema] returns for the [allOf]
    leads, from a property name that a branch declares, to the schema that
    the last such branch gives it (a truthy one): later branches override
    earlier ones. *)
Theorem X17_allOf_declares_what_a_branch_declares re fuel fuel' (kvs : list (string * JS))
    (branches : list JS) (name : string) (declared resolved : JS)
    (ctx ctx' ctx'' : SchemaContext) :
  truthy (get (JObj kvs) "$ref") = false ->
  truthy (get (JObj kvs) "$dynamicRef") = false ->
  get (JObj kvs) "allOf" = JArr branches ->
  Forall plainBranch branches ->
  lastDeclared name branches None = Some declared ->
  truthy declared = true ->
  Pointer.resolveSchema (S (S fuel)) (JObj kvs) ctx = Ret (resolved, ctx') ->
  Pointer.getNextSchema re (S fuel') name resolved ctx'' = Ret (declared, ctx'').
Proof.
  intros Href Hdyn Hall Hbranches Hlast Ht Hres.
  cbn [Pointer.resolveSchema nullish] in Hres. rewrite Href, Hdyn, Hall in Hres.
  cbn [truthy] in Hres. unfold bind at 1 in Hres.
  destruct (Pointer.reduceMerge _ branches emptySchema ctx) as [[merged c]| | |] eqn:Hm;
    try discriminate Hres.
  cbn [obind fst snd ret] in Hres. injection Hres as <- <-.
  destruct (reduceMerge_properties fuel name branches Hbranches [] ctx merged c
              eq_refl Hm) as ([mk ->] & Ho & Hown).
  change (own (entries (get (JObj []) "properties")) name) with (@None JS) in Hown.
  rewrite Hlast in Hown.
  destruct (get (JObj mk) "properties") as [| | | | | |props] eqn:Hprops;
    try discriminate Ho; try discriminate Hown.
  cbn [entries] in Hown.
  assert (Hget : get (Pointer.overlay (JObj kvs) (JObj mk) ["allOf"]) "properties"
                 = JObj props).
  { unfold Pointer.overlay. cbn [fold_left get].
    rewrite own_setProp. cbn [String.eqb Ascii.eqb Bool.eqb].
    rewrite own_spread_object.
    cbn [get] in Hprops. destruct (own mk "properties"); [|discriminate Hprops].
    exact Hprops. }
  cbn [Pointer.getNextSchema]. rewrite Hget. cbn [truthy]. rewrite orb_true_r.
  cbn [orb]. unfold bind at 1. unfold Pointer.tryObjectTraversal.
  rewrite Hget. cbn [truthy hasProperty]. unfold bind at 1, lift.
  rewrite bool_decide_eq_true_2 by (rewrite Hown; eauto).
  cbn [obind fst snd ret get]. rewrite Hown.
  change (default JUndef (Some declared)) with declared. rewrite Ht. reflexivity.
Qed.

(** The theorem at two branches that both declare [a]: the second wins. *)
Lemma X17_allOf_declares_what_a_branch_declares_witness :
  Pointer.getNextSchema wordRegExp 1 "a"
    (JObj [("allOf", JUndef);
           ("properties", JObj [("a", JObj [("type", JStr "number")]); ("b", JObj [])])])
    (freshContext allOfTwo)
  = Ret (JObj [("type", JStr "number")], freshContext allOfTwo).
Proof.
  apply (X17_allOf_declares_what_a_branch_declares wordRegExp 0 0
           [("allOf", JArr twoBranches)] twoBranches "a"
           (JObj [("type", JStr "number")])
           (JObj [("allOf", JUndef);
                  ("properties",
                   JObj [("a", JObj [("type", JStr "number")]); ("b", JObj [])])])
           (freshContext allOfTwo) (freshContext allOfTwo) (freshContext allOfTwo));
    try reflexivity.
  repeat constructor; try reflexivity; eexists; reflexivity.
Defined.

(** ** The anchors that [collectAnchors] records *)

Lemma size_member (k : string) (v : JS) (kvs : list (string * JS)) :
  In (k, v) kvs -> (size v < size (JObj kvs))%nat.
Proof.
  cbn [size]. induction kvs as [|[k0 v0] kvs IH]; intros Hin; [destruct Hin|].
  cbn [map]. unfold list_sum in *. cbn [fold_right].
  destruct Hin as [[= -> ->]|Hin]; [lia|].
  specialize (IH Hin). lia.
Qed.

Lemma size_element (v : JS) (xs : list JS) :
  In v xs -> (size v < size (JArr xs))%nat.
Proof.
  cbn [size]. induction xs as [|x xs IH]; intros Hin; [destruct Hin|].
  cbn [map]. unfold list_sum in *. cbn [fold_right].
  destruct Hin as [->|Hin]; [lia|].
  specialize (IH Hin). lia.
Qed.

Lemma own_In {A} (kvs : list (string * A)) (k : string) (v : A) :
  own kvs k = Some v -> exists k', In (k', v) kvs.
Proof.
  induction kvs as [|[k0 v0] kvs IH]; cbn [own]; [discriminate|].
  destruct (String.eqb k0 k).
  - intros [= ->]. exists k0. left. reflexivity.
  - intros H. destruct (IH H) as [k' Hin]. exists k'. right. exact Hin.
Qed.

Lemma In_indexed {A} (i : Z) (xs : list A) (k : string) (x : A) :
  In (k, x) (indexed i xs) -> In x xs.
Proof.
  revert i. induction xs as [|y xs IH]; intros i; cbn [indexed]; [tauto|].
  intros [[= _ ->]|Hin]; [left; reflexivity | right; exact (IH _ Hin)].
Qed.

Lemma setAnchor_declared (name schema : JS) (anchors : gmap string JS) :
  (name = get schema "$anchor" \/ name = get schema "$dynamicAnchor") ->
  declaredAnchors anchors -> declaredAnchors (Pointer.setAnchor name schema anchors).
Proof.
  intros Hname Hdecl. unfold Pointer.setAnchor.
  destruct name as [| | | |a| |]; try exact Hdecl.
  destruct (truthy (JStr a)); [|exact Hdecl].
  intros b s. rewrite lookup_insert_Some. intros [[<- <-]|[_ Hb]]; [|exact (Hdecl b s Hb)].
  destruct Hname as [-> | ->]; auto.
Qed.

Lemma collectAnchors_declared (n : nat) :
  forall (schema : JS) (anchors : gmap string JS),
    (size schema <= n)%nat ->
    declaredAnchors anchors -> declaredAnchors (Pointer.collectAnchors schema anchors).
Proof.
  induction n as [|n IH]; intros schema anchors Hsize Hdecl.
  { destruct schema; cbn [size] in Hsize; lia. }
  destruct schema as [| | | | | |kvs]; try exact Hdecl.
  cbn [Pointer.collectAnchors].
  set (calls := map _ kvs).
  assert (Hcalls : forall key inner k call,
             own calls key = Some inner -> own inner k = Some call ->
             forall acc, declaredAnchors acc -> declaredAnchors (call acc)).
  { intros key inner k call Hinner Hcall acc Hacc.
    destruct (own_In _ _ _ Hinner) as [key' Hin]. subst calls.
    apply in_map_iff in Hin as ([k0 v] & [= _ <-] & Hv).
    pose proof (size_member _ _ _ Hv) as Hlt.
    destruct (own_In _ _ _ Hcall) as [k' Hin'].
    destruct v as [| | | | |xs|cs]; try (destruct Hin'; fail).
    - apply In_indexed, in_map_iff in Hin' as (x & <- & Hx).
      pose proof (size_element _ _ Hx). apply IH; [lia | exact Hacc].
    - apply in_map_iff in Hin' as ([ck cv] & [= _ <-] & Hcv).
      pose proof (size_member _ _ _ Hcv). apply IH; [lia | exact Hacc]. }
  assert (Hbelow : forall key keys acc,
             declaredAnchors acc ->
             declaredAnchors
               (fold_left (fun acc k =>
                             match own (default [] (own calls key)) k with
                             | Some call => call acc
                             | None => acc
                             end) keys acc)).
  { intros key keys. induction keys as [|k keys IHk]; intros acc Hacc; [exact Hacc|].
    cbn [fold_left]. apply IHk.
    destruct (own calls key) as [inner|] eqn:Hinner; [|exact Hacc].
    change (default [] (Some inner)) with inner.
    destruct (own inner k) as [call|] eqn:Hcall; [|exact Hacc].
    exact (Hcalls key inner k call Hinner Hcall acc Hacc). }
  assert (Hown : declaredAnchors
                   (Pointer.setAnchor (get (JObj kvs) "$dynamicAnchor") (JObj kvs)
                      (Pointer.setAnchor (get (JObj kvs) "$anchor") (JObj kvs) anchors))).
  { apply setAnchor_declared; [auto|]. apply setAnchor_declared; auto. }
  destruct (truthy (get (JObj kvs) "properties")), (truthy (get (JObj kvs) "$defs"));
    repeat apply Hbelow; exact Hown.
Qed.

(** X18: every anchor that [collectAnchors] records for a schema maps
    its name to a schema that declares this name under [$anchor] or
    [$dynamicAnchor]: a reference [#name] can only be resolved to a schema
    that carries the anchor. *)
Theorem X18_collected_anchors_declare_their_name (schema s : JS) (a : string) :
  Pointer.collectAnchors schema ∅ !! a = Some s ->
  get s "$anchor" = JStr a \/ get s "$dynamicAnchor" = JStr a.
Proof.
  apply (collectAnchors_declared (size schema) schema ∅ (le_n _)).
  intros b t Hb. rewrite lookup_empty in Hb. discriminate Hb.
Qed.

(** The theorem at the anchor [d] of a definition. *)
Lemma X18_collected_anchors_declare_their_name_witness :
  get (JObj [("$anchor", JStr "d"); ("type", JStr "object")]) "$anchor" = JStr "d" \/
  get (JObj [("$anchor", JStr "d"); ("type", JStr "object")]) "$dynamicAnchor" = JStr "d".
Proof.
  apply (X18_collected_anchors_declare_their_name anchoredDefinition
           (JObj [("$anchor", JStr "d"); ("type", JStr "object")]) "d").
  vm_compute. reflexivity.
Defined.

(** ** Move and copy *)

Lemma accepts_single re fuel (schema operation : JS) :
  accepts re fuel schema (JArr [operation])
  <-> Patch.validateOperation re fuel operation schema 0 = Ret [].
Proof.
  rewrite accepts_operations, validateOperations_clean, Forall_singleton. reflexivity.
Qed.

(** X19: a move is valid exactly when the copy between the same places
    is valid, the source does not lie below the destination
    ([from] does not start with [path + "/"]), and [checkRequiredProperty]
    has nothing against removing the source.  [validateCopy] makes neither
    of the two further checks. *)
Theorem X19_move_is_copy_and_two_more_checks re fuel (schema : JS)
    (move copy : list (string * JS)) (from path : string) :
  get (JObj move) "op" = JStr "move" -> get (JObj copy) "op" = JStr "copy" ->
  get (JObj move) "from" = JStr from -> get (JObj move) "path" = JStr path ->
  get (JObj copy) "from" = JStr from -> get (JObj copy) "path" = JStr path ->
  accepts re fuel schema (JArr [JObj move])
  <-> accepts re fuel schema (JArr [JObj copy]) /\
      Str.startsWith from (path ++ "/") = false /\
      Patch.checkRequiredProperty re fuel from schema = Ret None.
Proof.
  intros Hmove Hcopy Hmf Hmp Hcf Hcp. rewrite !accepts_single.
  unfold Patch.validateOperation. cbn [truthy typeofObject negb orb].
  rewrite Hmove, Hcopy.
  cbn [truthy negb existsb Patch.validOps isStr String.eqb Ascii.eqb Bool.eqb orb].
  cbv iota. unfold Patch.validateMove, Patch.validateCopy, Patch.withFromAndPath.
  rewrite Hmf, Hmp, Hcf, Hcp.
  destruct from as [|c from]; [cbn; split; [intros [=] | intros [[=] _]]|].
  destruct path as [|d path]; [cbn; split; [intros [=] | intros [[=] _]]|].
  cbn [truthy app].
  destruct (Pointer.validateJSONPointer re fuel (String c from) schema) as [[|]| | |];
    cbn [obind]; try (split; [intros [=] | intros [[=] _]]; fail);
    destruct (Patch.validateAddPath re fuel (String d path) schema) as [[e|]| | |];
    cbn [obind]; try (split; [intros [=] | intros [[=] _]]; fail);
    destruct (Str.startsWith (String c from) (String d path ++ "/"));
    destruct (Patch.checkRequiredProperty re fuel (String c from) schema) as [[e'|]| | |];
    cbn [obind Patch.unlessValid Patch.optionalError app];
    (split; [intros [=] | intros (Hc & Hs & Hr); try discriminate Hc; try discriminate Hs;
                          try discriminate Hr]);
    auto.
Qed.

(** The theorem at a move from [/a] to [/b]. *)
Lemma X19_move_is_copy_and_two_more_checks_witness :
  accepts wordRegExp 1 emptySchema (JArr [JObj moveAB])
  <-> accepts wordRegExp 1 emptySchema (JArr [JObj copyAB]) /\
      Str.startsWith "/a" ("/b" ++ "/") = false /\
      Patch.checkRequiredProperty wordRegExp 1 "/a" emptySchema = Ret None.
Proof.
  apply (X19_move_is_copy_and_two_more_checks wordRegExp 1 emptySchema moveAB copyAB
           "/a" "/b"); reflexivity.
Defined.

(** ** The steps of a traversal through an object *)

Section ObjectSteps.

Variable RegExp_test : string -> string -> option bool.

(** One step of [validateTokens] from a schema without composition
    keywords, [const] and [enum]. *)
Lemma validateTokens_step fuel (kvs : list (string * JS)) (token : string)
    (rest : list string) (ctx : SchemaContext) :
  uncomposed (JObj kvs) ->
  get (JObj kvs) "const" = JUndef -> get (JObj kvs) "enum" = JUndef ->
  exists kvs',
    (forall k, String.eqb "not" k = false -> get (JObj kvs') k = get (JObj kvs) k) /\
    Pointer.validateTokens RegExp_test (S fuel) (token :: rest) (JObj kvs) ctx
    = bind (Pointer.getNextSchema RegExp_test (S fuel) token (JObj kvs'))
        (fun next => if negb (truthy next) then ret false
                     else Pointer.validateTokens RegExp_test (S fuel) rest next) ctx.
Proof.
  intros Hplain Hconst Henum.
  destruct (resolveSchema_uncomposed fuel kvs ctx Hplain) as (kvs' & Hres & Hsame).
  exists kvs'. split; [exact Hsame|].
  cbn [Pointer.validateTokens]. unfold bind at 1. rewrite Hres.
  cbn [obind fst snd truthy negb]. rewrite !Hsame, Hconst, Henum by reflexivity.
  reflexivity.
Qed.

(** The traversal of an object schema tries the object keywords, and
    nothing else when they give no schema. *)
Lemma getNextSchema_object fuel (schema : JS) (token : string) (ctx : SchemaContext) :
  (truthy (get schema "type") = false \/ get schema "type" = JStr "object") ->
  truthy (get schema "items") = false ->
  truthy (get schema "prefixItems") = false ->
  Pointer.getNextSchema RegExp_test (S fuel) token schema ctx
  = bind (Pointer.tryObjectTraversal RegExp_test fuel token schema)
      (fun next => ret (if truthy next then next else JNull)) ctx.
Proof.
  intros Hty Hitems Hprefix. cbn [Pointer.getNextSchema]. rewrite Hitems, Hprefix.
  assert (Hobject : includesStr (typeList (get schema "type")) "object"
                    || truthy (get schema "properties")
                    || truthy (get schema "patternProperties")
                    || negb (truthy (get schema "type")) = true).
  { destruct Hty as [-> | ->]; [rewrite !orb_true_r|]; reflexivity. }
  assert (Harray : includesStr (typeList (get schema "type")) "array" = false).
  { destruct Hty as [Hf | ->]; [|reflexivity].
    destruct (get schema "type") as [| |[|]|n|s| |]; try discriminate Hf; try reflexivity.
    destruct s; [reflexivity | discriminate Hf]. }
  rewrite Hobject, Harray. cbn [orb]. unfold bind, ret.
  destruct (Pointer.tryObjectTraversal RegExp_test fuel token schema ctx)
    as [[next c]| | |]; cbn [obind fst snd]; try reflexivity.
  destruct (truthy next); [reflexivity|].
  destruct Hty as [Hf | ->]; [|reflexivity].
  destruct (get schema "type"); try discriminate Hf; reflexivity.
Qed.

Lemma undeclared_declared (token : string) (schema : JS) :
  undeclared token schema ->
  (if truthy (get schema "properties") then hasProperty token (get schema "properties")
   else Ret false) = Ret false.
Proof.
  intros [-> | (props & -> & Hown)]; [reflexivity|].
  cbn [truthy hasProperty]. rewrite Hown. reflexivity.
Qed.

Lemma forIn_single (k : string) (v : JS) : forIn (JObj [(k, v)]) = [k].
Proof.
  unfold forIn, ownKeys, keyOrder. cbn [map fst remove_dups].
  destruct (decide_rel elem_of k []) as [Hin|_]; [apply elem_of_nil in Hin; destruct Hin|].
  cbn [fold_left filter]. unfold filter. cbn [list_filter].
  destruct (arrayIndex k) as [i|] eqn:Hi; reflexivity.
Qed.

End ObjectSteps.

Lemma objectSchema_resolved (kvs kvs' : list (string * JS)) :
  (forall k, String.eqb "not" k = false -> get (JObj kvs') k = get (JObj kvs) k) ->
  objectSchema (JObj kvs) ->
  (truthy (get (JObj kvs') "type") = false \/ get (JObj kvs') "type" = JStr "object") /\
  truthy (get (JObj kvs') "items") = false /\
  truthy (get (JObj kvs') "prefixItems") = false /\
  truthy (get (JObj kvs') "dependentSchemas") = false.
Proof.
  intros Hsame [_ _ _ Hty Hi Hp Hd]. rewrite !Hsame by reflexivity. auto.
Qed.

Lemma undeclared_resolved (token : string) (kvs kvs' : list (string * JS)) :
  (forall k, String.eqb "not" k = false -> get (JObj kvs') k = get (JObj kvs) k) ->
  undeclared token (JObj kvs) -> undeclared token (JObj kvs').
Proof.
  intros Hsame [Hp | (props & Hp & Hown)]; [left | right; exists props];
    rewrite Hsame by reflexivity; auto.
Qed.

(** X20: a property that [properties] does not declare, and whose name
    is not that of a member inherited from [Object.prototype], is
    validated against [additionalProperties] when that is a schema: under
    an object schema without [patternProperties] and [propertyNames], a
    traversal through such a token continues as the traversal of the
    remaining tokens under the [additionalProperties] schema. *)
Theorem X20_undeclared_property_continues_under_additionalProperties re fuel
    (kvs additional : list (string * JS)) (token : string) (rest : list string)
    (ctx : SchemaContext) :
  objectSchema (JObj kvs) ->
  truthy (get (JObj kvs) "patternProperties") = false ->
  truthy (get (JObj kvs) "propertyNames") = false ->
  get (JObj kvs) "additionalProperties" = JObj additional ->
  undeclared token (JObj kvs) -> inherited token = false ->
  Pointer.validateTokens re (S fuel) (token :: rest) (JObj kvs) ctx
  = Pointer.validateTokens re (S fuel) rest (JObj additional) ctx.
Proof.
  intros Hobject Hpp Hnames Hap Hund _.
  destruct (validateTokens_step re fuel kvs token rest ctx)
    as (kvs' & Hsame & ->); try apply Hobject.
  destruct (objectSchema_resolved kvs kvs' Hsame Hobject) as (Hty & Hi & Hp & Hd).
  unfold bind at 1. rewrite getNextSchema_object by assumption.
  unfold bind at 1. unfold Pointer.tryObjectTraversal.
  rewrite (undeclared_declared token (JObj kvs') (undeclared_resolved _ _ _ Hsame Hund)).
  rewrite !Hsame, Hpp, Hnames, Hap by reflexivity. reflexivity.
Qed.

(** The theorem at a map of strings: a key is valid, and nothing is
    valid below it. *)
Lemma X20_undeclared_property_continues_under_additionalProperties_witness :
  Pointer.validateTokens wordRegExp 1 ["key"; "x"] (JObj stringMap) (freshContext (JObj stringMap))
  = Pointer.validateTokens wordRegExp 1 ["x"] (JObj [("type", JStr "string")])
      (freshContext (JObj stringMap)).
Proof.
  apply (X20_undeclared_property_continues_under_additionalProperties wordRegExp 0
           stringMap [("type", JStr "string")] "key" ["x"] (freshContext (JObj stringMap)));
    try reflexivity.
  - split; try reflexivity; [split; reflexivity | right; reflexivity].
  - left. reflexivity.
Defined.

(** X21: under an object schema with one pattern in [patternProperties]
    (and [additionalProperties] absent or [true]), a token that
    [properties] does not declare, and that is not the name of a member
    inherited from [Object.prototype], continues under the pattern's
    schema when the pattern matches it, and under [{}] otherwise.  A
    pattern that the [RegExp] constructor rejects counts as not matching:
    the exception is swallowed. *)
Theorem X21_pattern_property re fuel (kvs : list (string * JS)) (pattern : string)
    (matched : JS) (token : string) (rest : list string) (ctx : SchemaContext) :
  objectSchema (JObj kvs) ->
  get (JObj kvs) "patternProperties" = JObj [(pattern, matched)] ->
  truthy matched = true ->
  truthy (get (JObj kvs) "propertyNames") = false ->
  additionalAllowed (JObj kvs) ->
  undeclared token (JObj kvs) -> inherited token = false ->
  Pointer.validateTokens re (S fuel) (token :: rest) (JObj kvs) ctx
  = Pointer.validateTokens re (S fuel) rest
      (match re pattern token with Some true => matched | _ => emptySchema end) ctx.
Proof.
  intros Hobject Hpp Hmatched Hnames Hap Hund _.
  destruct (validateTokens_step re fuel kvs token rest ctx)
    as (kvs' & Hsame & ->); try apply Hobject.
  destruct (objectSchema_resolved kvs kvs' Hsame Hobject) as (Hty & Hi & Hp & Hd).
  unfold bind at 1. rewrite getNextSchema_object by assumption.
  unfold bind at 1. unfold Pointer.tryObjectTraversal.
  rewrite (undeclared_declared token (JObj kvs') (undeclared_resolved _ _ _ Hsame Hund)).
  rewrite Hd. rewrite !Hsame, Hpp, Hnames by reflexivity.
  cbn [truthy]. rewrite forIn_single. cbn [findPattern].
  change (get (JObj [(pattern, matched)]) pattern)
    with (default JUndef (if String.eqb pattern pattern then Some matched else None)).
  rewrite String.eqb_refl. change (default JUndef (Some matched)) with matched.
  unfold bind, lift, ret.
  destruct (re pattern token) as [[|]|]; destruct Hap as [Hap | Hap]; rewrite ?Hap;
    cbn [obind fst snd andb isFalse typeofObject truthy negb];
    rewrite ?Hmatched; reflexivity.
Qed.

(** The theorem at the pattern [id] and the token [userid]. *)
Lemma X21_pattern_property_witness :
  Pointer.validateTokens wordRegExp 1 ["userid"; "x"] (JObj idPattern)
    (freshContext (JObj idPattern))
  = Pointer.validateTokens wordRegExp 1 ["x"]
      (match wordRegExp "id" "userid" with
       | Some true => JObj [("type", JStr "number")]
       | _ => emptySchema
       end) (freshContext (JObj idPattern)).
Proof.
  apply (X21_pattern_property wordRegExp 0 idPattern "id" (JObj [("type", JStr "number")])
           "userid" ["x"] (freshContext (JObj idPattern)));
    try reflexivity.
  - split; try reflexivity; [split; reflexivity | left; reflexivity].
  - left. reflexivity.
  - left. reflexivity.
Defined.

(** X22: [propertyNames] bounds the names that are not declared, and only
    those.  Under an object schema whose [propertyNames] gives a
    [minLength] and a [maxLength], a pointer whose first token is neither
    declared under [properties] nor the name of a member inherited from
    [Object.prototype] is valid exactly when the length of that token lies
    within the bounds (whatever tokens follow), while a token that
    [properties] declares leads to its schema whatever its length. *)
Theorem X22_propertyNames_bounds_undeclared_names re fuel (kvs : list (string * JS))
    (names : JS) (lo hi : Z) (token : string) (rest : list string) (ctx : SchemaContext) :
  objectSchema (JObj kvs) ->
  truthy (get (JObj kvs) "patternProperties") = false ->
  get (JObj kvs) "propertyNames" = names ->
  lengthBounds lo hi names ->
  additionalAllowed (JObj kvs) ->
  (undeclared token (JObj kvs) -> inherited token = false ->
   Pointer.validateTokens re (S (S fuel)) (token :: rest) (JObj kvs) ctx
   = Ret ((lo <=? Str.len token) && (Str.len token <=? hi), ctx)) /\
  (forall props declared,
     get (JObj kvs) "properties" = JObj props ->
     own props token = Some declared -> truthy declared = true ->
     Pointer.validateTokens re (S (S fuel)) (token :: rest) (JObj kvs) ctx
     = Pointer.validateTokens re (S (S fuel)) rest declared ctx).
Proof.
  intros Hobject Hpp Hnames [[nkvs Hn] Hplain Hnot Hconst Henum Hpattern Hmin Hmax] Hap.
  rewrite Hn in *. clear Hn. rename Hnames into Hn.
  destruct (validateTokens_step re (S fuel) kvs token rest ctx)
    as (kvs' & Hsame & ->); try apply Hobject.
  destruct (objectSchema_resolved kvs kvs' Hsame Hobject) as (Hty & Hi & Hp & Hd).
  split.
  - intros Hund _.
    unfold bind at 1. rewrite getNextSchema_object by assumption.
    unfold bind at 1. unfold Pointer.tryObjectTraversal. rewrite Hd.
    rewrite !Hsame, Hpp, Hn by reflexivity.
    rewrite (undeclared_declared token (JObj kvs) Hund).
    unfold bind at 1, lift at 1. cbn [obind fst snd ret].
    cbn [truthy]. unfold bind at 1. unfold bind at 1.
    rewrite resolveSchema_plain by (reflexivity || assumption).
    cbn [obind fst snd]. unfold lift, Pointer.violatesPropertyNames.
    rewrite Hconst, Henum, Hpattern, Hmin, Hmax.
    cbn [defined andb negb obind toNumber].
    rewrite (Z.ltb_antisym lo (Str.len token)), (Z.ltb_antisym (Str.len token) hi).
    destruct (lo <=? Str.len token); cbn [negb obind fst snd andb ret truthy];
      [|reflexivity].
    destruct (Str.len token <=? hi); cbn [negb obind fst snd andb ret truthy];
      [|reflexivity].
    destruct Hap as [-> | ->]; cbn [isFalse typeofObject ret obind fst snd truthy negb];
      change (truthy emptySchema) with true; cbv iota; change (truthy emptySchema) with true;
      cbn [negb]; apply validateTokens_empty.
  - intros props declared Hprops Hown Ht.
    unfold bind at 1. rewrite getNextSchema_object by assumption.
    unfold bind at 1. unfold Pointer.tryObjectTraversal.
    rewrite !Hsame, Hprops by reflexivity.
    cbn [truthy hasProperty]. rewrite bool_decide_eq_true_2 by (rewrite Hown; eauto).
    unfold bind at 1, lift at 1. cbn [obind fst snd ret get]. rewrite Hown.
    change (default JUndef (Some declared)) with declared.
    cbn [obind fst snd]. rewrite Ht. cbn [obind fst snd negb].
    rewrite Ht. reflexivity.
Qed.

(** The theorem at names of two to four characters: the undeclared [abcde]
    is refused, and the declared [a] is not measured. *)
Lemma X22_propertyNames_bounds_undeclared_names_witness :
  Pointer.validateTokens wordRegExp 2 ["abcde"] (JObj shortNames)
    (freshContext (JObj shortNames))
  = Ret (false, freshContext (JObj shortNames)) /\
  Pointer.validateTokens wordRegExp 2 ["a"] (JObj shortNames)
    (freshContext (JObj shortNames))
  = Pointer.validateTokens wordRegExp 2 [] (JObj []) (freshContext (JObj shortNames)).
Proof.
  assert (Hobject : objectSchema (JObj shortNames))
    by (split; try reflexivity; [split; reflexivity | left; reflexivity]).
  assert (Hbounds : lengthBounds 2 4 (JObj [("minLength", JNum 2); ("maxLength", JNum 4)]))
    by (split; try reflexivity; [eexists; reflexivity | split; reflexivity]).
  split.
  - apply (proj1 (X22_propertyNames_bounds_undeclared_names wordRegExp 0 shortNames
                    _ 2 4 "abcde" [] (freshContext (JObj shortNames))
                    Hobject eq_refl eq_refl Hbounds (or_introl eq_refl))).
    + right. eexists. split; reflexivity.
    + reflexivity.
  - apply (proj2 (X22_propertyNames_bounds_undeclared_names wordRegExp 0 shortNames
                    _ 2 4 "a" [] (freshContext (JObj shortNames))
                    Hobject eq_refl eq_refl Hbounds (or_introl eq_refl))
             [("a", JObj [])] (JObj [])); reflexivity.
Defined.

(** ** Conditional schemas *)

(** A schema with [if], [then] and [else] is resolved by merging [then]
    and [else]. *)
Lemma resolveSchema_conditional fuel (kvs : list (string * JS)) (ctx : SchemaContext) :
  uncomposed_but_if (JObj kvs) ->
  truthy (get (JObj kvs) "if") = true ->
  truthy (get (JObj kvs) "then") = true -> truthy (get (JObj kvs) "else") = true ->
  Pointer.resolveSchema (S fuel) (JObj kvs) ctx
  = bind (Pointer.reduceMerge (Pointer.resolveSchema fuel)
            [get (JObj kvs) "then"; get (JObj kvs) "else"] emptySchema)
      (fun merged => ret (Pointer.overlay (JObj kvs) merged ["if"; "then"; "else"])) ctx.
Proof.
  intros [Href Hdyn Hall Hany Hone Hnot] Hif Hthen Helse.
  cbn [Pointer.resolveSchema nullish].
  rewrite Href, Hdyn, Hall, Hany, Hone, Hnot, Hif, Hthen, Helse. reflexivity.
Qed.

(** X23: [if], [then] and [else] are applied conservatively: the
    condition is not evaluated, and the properties of [then] and of [else]
    are both declared after resolution.  When both branches are objects
    without reference or composition keywords, the resolved schema leads
    from a property name that one of them declares to the (truthy) schema
    that the last one to declare it gives, [else] after [then]. *)
Theorem X23_then_and_else_both_apply re fuel fuel' (kvs : list (string * JS))
    (thenSchema elseSchema : JS) (name : string) (declared resolved : JS)
    (ctx ctx' ctx'' : SchemaContext) :
  uncomposed_but_if (JObj kvs) ->
  truthy (get (JObj kvs) "if") = true ->
  get (JObj kvs) "then" = thenSchema -> get (JObj kvs) "else" = elseSchema ->
  plainBranch thenSchema -> plainBranch elseSchema ->
  lastDeclared name [thenSchema; elseSchema] None = Some declared ->
  truthy declared = true ->
  Pointer.resolveSchema (S (S fuel)) (JObj kvs) ctx = Ret (resolved, ctx') ->
  Pointer.getNextSchema re (S fuel') name resolved ctx'' = Ret (declared, ctx'').
Proof.
  intros Hcond Hif Hthen Helse Hbt Hbe Hlast Ht Hres.
  assert (Htt : truthy thenSchema = true) by (destruct Hbt as [[? ->] _ _ _]; reflexivity).
  assert (Hte : truthy elseSchema = true) by (destruct Hbe as [[? ->] _ _ _]; reflexivity).
  rewrite resolveSchema_conditional in Hres
    by (assumption || (rewrite ?Hthen, ?Helse; assumption)).
  rewrite Hthen, Helse in Hres. unfold bind at 1 in Hres.
  destruct (Pointer.reduceMerge _ [thenSchema; elseSchema] emptySchema ctx)
    as [[merged c]| | |] eqn:Hm; try discriminate Hres.
  cbn [obind fst snd ret] in Hres. injection Hres as <- <-.
  assert (Hbranches : Forall plainBranch [thenSchema; elseSchema])
    by (constructor; [assumption | constructor; [assumption | constructor]]).
  destruct (reduceMerge_properties fuel name [thenSchema; elseSchema] Hbranches
              [] ctx merged c eq_refl Hm) as ([mk ->] & Ho & Hown).
  change (own (entries (get (JObj []) "properties")) name) with (@None JS) in Hown.
  rewrite Hlast in Hown.
  destruct (get (JObj mk) "properties") as [| | | | | |props] eqn:Hprops;
    try discriminate Ho; try discriminate Hown.
  cbn [entries] in Hown.
  assert (Hget : get (Pointer.overlay (JObj kvs) (JObj mk) ["if"; "then"; "else"])
                   "properties" = JObj props).
  { unfold Pointer.overlay. cbn [fold_left get].
    rewrite !own_setProp. cbn [String.eqb Ascii.eqb Bool.eqb].
    rewrite own_spread_object.
    cbn [get] in Hprops. destruct (own mk "properties"); [|discriminate Hprops].
    exact Hprops. }
  cbn [Pointer.getNextSchema]. rewrite Hget. cbn [truthy]. rewrite orb_true_r.
  cbn [orb]. unfold bind at 1. unfold Pointer.tryObjectTraversal.
  rewrite Hget. cbn [truthy hasProperty]. unfold bind at 1, lift.
  rewrite bool_decide_eq_true_2 by (rewrite Hown; eauto).
  cbn [obind fst snd ret get]. rewrite Hown.
  change (default JUndef (Some declared)) with declared. rewrite Ht. reflexivity.
Qed.

(** The theorem at a schema whose [then] declares [a] and whose [else]
    declares [b]: both names are declared after resolution. *)
Lemma X23_then_and_else_both_apply_witness :
  Pointer.getNextSchema wordRegExp 1 "a"
    (JObj [("if", JUndef);
           ("then", JUndef);
           ("else", JUndef);
           ("properties", JObj [("a", JObj [("type", JStr "string")]);
                                ("b", JObj [("type", JStr "number")])])])
    (freshContext (JObj conditional))
  = Ret (JObj [("type", JStr "string")], freshContext (JObj conditional)).
Proof.
  apply (X23_then_and_else_both_apply wordRegExp 0 0 conditional
           (JObj [("properties", JObj [("a", JObj [("type", JStr "string")])])])
           (JObj [("properties", JObj [("b", JObj [("type", JStr "number")])])])
           "a" (JObj [("type", JStr "string")])
           (JObj [("if", JUndef);
                  ("then", JUndef);
                  ("else", JUndef);
                  ("properties", JObj [("a", JObj [("type", JStr "string")]);
                                       ("b", JObj [("type", JStr "number")])])])
           (freshContext (JObj conditional)) (freshContext (JObj conditional))
           (freshContext (JObj conditional)));
    try reflexivity;
    split; try reflexivity; try (eexists; reflexivity); split; reflexivity.
Defined.
